(** * gitmanager: the HTTP views of the grader (access/views.py)

    A shallow embedding of [access/views.py] and [scripts/build_template.py].

    Configuration data is a tree of Python values as a YAML or JSON file
    yields them.  Numbers are integers (any other atom, a float or a date,
    is treated by every operation here as an integer is).  Dictionaries keep
    their insertion order, so they are association lists with string keys;
    every operation below reads the first binding of a key and a dictionary
    built by these operations never holds a key twice.

    A view either returns, raises a Python exception, or meets a value whose
    dynamic type lies outside this data model (a module that is no dictionary,
    say); what Python does in the last case is not followed, and the model
    answers [IllTyped]. *)

From Stdlib Require Import ZArith.
From stdpp Require Import base option strings list gmap.

Open Scope string_scope.
Open Scope list_scope.
Open Scope nat_scope.

#[local] Set Warnings "-clear-no-such-hyp".

(** Induction over the nested type of values is stated by hand below; no
    other type of this file is used by induction. *)
#[local] Unset Elimination Schemes.

(** ** Values *)

Inductive value : Type :=
  | VNone
  | VBool (b : bool)
  | VInt (n : Z)
  | VStr (s : string)
  | VList (l : list value)
  | VDict (d : list (string * value)).

Abbreviation dict := (list (string * value)).

(** Structural induction that reaches the values inside lists and
    dictionaries. *)
Section value_induction.
Variable P : value → Prop.
Hypothesis HNone : P VNone.
Hypothesis HBool : ∀ b, P (VBool b).
Hypothesis HInt : ∀ n, P (VInt n).
Hypothesis HStr : ∀ s, P (VStr s).
Hypothesis HList : ∀ l, Forall P l → P (VList l).
Hypothesis HDict : ∀ d, Forall (λ kv, P kv.2) d → P (VDict d).

Fixpoint value_ind (v : value) : P v :=
  match v with
  | VNone => HNone
  | VBool b => HBool b
  | VInt n => HInt n
  | VStr s => HStr s
  | VList l =>
      HList l ((fix go (l : list value) : Forall P l :=
                  match l with
                  | [] => Forall_nil_2 P
                  | x :: l' => Forall_cons_2 P x l' (value_ind x) (go l')
                  end) l)
  | VDict d =>
      HDict d ((fix go (d : dict) : Forall (λ kv, P kv.2) d :=
                  match d with
                  | [] => Forall_nil_2 _
                  | (k, x) :: d' =>
                      Forall_cons_2 (λ kv, P kv.2) (k, x) d' (value_ind x) (go d')
                  end) d)
  end.
End value_induction.

(** ** Exceptions and outcomes *)

Inductive exn : Set :=
  | Http404
  | KeyError
  | TypeError
  | AttributeError
  | ImproperlyConfigured
  | ConfigError
  | OSError.

Inductive outcome (A : Type) : Type :=
  | Ok (a : A)
  | Raise (e : exn)
  | IllTyped.
Arguments Ok {A} a.
Arguments Raise {A} e.
Arguments IllTyped {A}.

Definition outcome_bind {A B} (f : A → outcome B) (m : outcome A) : outcome B :=
  match m with
  | Ok a => f a
  | Raise e => Raise e
  | IllTyped => IllTyped
  end.

#[export] Instance outcome_ret : MRet outcome := @Ok.
#[export] Instance outcome_mbind : MBind outcome := @outcome_bind.

(** ** Dictionaries *)

(** The operations are those of any insertion-ordered dictionary with string
    keys, whatever its values are. *)
Section dictionaries.
Context {V : Type}.
Implicit Types d base : list (string * V).

(** [d.get(k)], [None] when [k] is no key of [d]. *)
Fixpoint dict_get (k : string) d : option V :=
  match d with
  | [] => None
  | (k', v) :: d' => if String.eqb k' k then Some v else dict_get k d'
  end.

(** [k in d]. *)
Definition dict_has (k : string) d : bool :=
  match dict_get k d with Some _ => true | None => false end.

(** [d[k]] for a string [k]. *)
Definition dict_subscript (k : string) d : outcome V :=
  match dict_get k d with Some v => Ok v | None => Raise KeyError end.

(** [d.get(k, default)]. *)
Definition dict_get_default (k : string) (default : V) d : V :=
  match dict_get k d with Some v => v | None => default end.

(** [d[k] = v]: a key that is present keeps its place, a new one goes last. *)
Fixpoint dict_set d (k : string) (v : V) : list (string * V) :=
  match d with
  | [] => [(k, v)]
  | (k', v') :: d' =>
      if String.eqb k' k then (k, v) :: d' else (k', v') :: dict_set d' k v
  end.

(** [del d[k]] for a key that is present. *)
Definition dict_del (k : string) d : list (string * V) :=
  List.filter (λ kv : string * V, negb (String.eqb kv.1 k)) d.

(** [base.update(d)]: [base[k] = v] for every entry of [d], in order. *)
Definition dict_update base d : list (string * V) :=
  fold_left (λ b kv, dict_set b kv.1 kv.2) d base.

End dictionaries.

(** Lists and dictionaries have no hash. *)
Definition hashable (v : value) : bool :=
  match v with
  | VList _ | VDict _ => false
  | _ => true
  end.

(** [key in d] for any value [key]: the key is hashed first; the keys of [d]
    are strings, so no other hashable value is among them. *)
Definition dict_contains (key : value) (d : dict) : outcome bool :=
  match key with
  | VStr s => Ok (dict_has s d)
  | VList _ | VDict _ => Raise TypeError
  | _ => Ok false
  end.

(** [d[key]] for any value [key]. *)
Definition dict_getitem (key : value) (d : dict) : outcome value :=
  match key with
  | VStr s => dict_subscript s d
  | VList _ | VDict _ => Raise TypeError
  | _ => Raise KeyError
  end.

Definition as_dict (v : value) : outcome dict :=
  match v with VDict d => Ok d | _ => IllTyped end.

Definition as_list (v : value) : outcome (list value) :=
  match v with VList l => Ok l | _ => IllTyped end.

(** [copy.deepcopy] on a tree of values: the tree is rebuilt. *)
Fixpoint deepcopy (v : value) : value :=
  match v with
  | VList l => VList (map deepcopy l)
  | VDict d => VDict (map (λ kv, (kv.1, deepcopy kv.2)) d)
  | _ => v
  end.

(** [base.update(d)] for any value [base]: only a dictionary has the
    method. *)
Definition py_update (base : value) (d : dict) : outcome dict :=
  match base with
  | VDict b => Ok (dict_update b d)
  | _ => Raise AttributeError
  end.

(** ** [_filter_fields], [_copy_fields], [_type_dict] *)

(** The inner loop of [_filter_fields]: [new_entry[name] = entry[name]]. *)
Fixpoint pick_entry (entry : dict) (pick_fields : list string) (new_entry : dict)
    : outcome dict :=
  match pick_fields with
  | [] => Ok new_entry
  | name :: rest =>
      v ← dict_subscript name entry;
      pick_entry entry rest (dict_set new_entry name v)
  end.

Fixpoint _filter_fields (dict_list : list dict) (pick_fields : list string)
    : outcome (list dict) :=
  match dict_list with
  | [] => Ok []
  | entry :: rest =>
      new_entry ← pick_entry entry pick_fields [];
      result ← _filter_fields rest pick_fields;
      Ok (new_entry :: result)
  end.

Definition _copy_fields (dict_item : dict) (pick_fields : list string) : dict :=
  fold_left
    (λ result name,
       match dict_get name dict_item with
       | Some v => dict_set result name (deepcopy v)
       | None => result
       end)
    pick_fields [].

Definition _type_dict (dict_item : dict) (dict_types : value) : outcome dict :=
  base ← match dict_get "type" dict_item with
         | Some t =>
             types ← as_dict dict_types;
             found ← dict_contains t types;
             if found : bool
             then tv ← dict_getitem t types; Ok (deepcopy tv)
             else Ok (VDict [])
         | None => Ok (VDict [])
         end;
  base ← py_update base dict_item;
  Ok (if dict_has "type" base then dict_del "type" base else base).

(** ** Loops *)

(** [result = []; for x in l: result.append(f(x))]: the first [x] on which
    [f] does not return ends the loop. *)
Definition for_each {A B} (f : A → outcome B) : list A → outcome (list B) :=
  fix go l :=
    match l with
    | [] => Ok []
    | x :: l' => y ← f x; ys ← go l'; Ok (y :: ys)
    end.

(** The same loop over [[x for x in l if p(x)]]. *)
Definition for_each_if {A B} (p : A → bool) (f : A → outcome B)
    : list A → outcome (list B) :=
  fix go l :=
    match l with
    | [] => Ok []
    | x :: l' => if p x then y ← f x; ys ← go l'; Ok (y :: ys) else go l'
    end.

(** [found(d[k]) if k in d else absent]. *)
Definition dict_find {R} (k : string) (found : value → R) (absent : R) : dict → R :=
  fix go d :=
    match d with
    | [] => absent
    | (k', v) :: d' => if String.eqb k' k then found v else go d'
    end.

(** ** Requests, responses and the collaborators of the views *)

Record request : Type := {
  (** [request.method] *)
  method : string;
  (** [request.is_ajax()] *)
  is_ajax : bool;
  (** [request.GET.get(name, None)] *)
  GET : string → option string;
  (** [request.POST], the posted form fields *)
  POST : dict;
  (** [request.build_absolute_uri(location)] *)
  build_absolute_uri : string → string;
}.

Inductive response : Type :=
  | HttpResponse (content : value)
  | JsonResponse (data : dict)
  | Render (template_name : string) (context : dict).

(** A configured exercise view: called as
    [exview(request, course, exercise, post_url)] while the language given
    first is the active translation. *)
Definition handler : Type :=
  value → request → dict → dict → option string → outcome response.

(** What the views reach outside this module: the configuration parser
    ([access.config]), the task queue, Django's settings, URL resolver and
    module loader, and the text renderings of Python values. *)
Record env : Type := {
  (** [config.courses()] *)
  config_courses : list dict;
  (** [config.exercises(course_key)]: the course, or [None], and its
      exercises *)
  config_exercises : string → option dict * list dict;
  (** [config.exercise_entry(course_key, exercise_key, lang=lang)] *)
  config_exercise_entry : value → value → option string → option dict * option dict;
  (** [config.course_entry(course_key)] *)
  config_course_entry : string → option dict;
  (** [reverse(viewname, args=args)] *)
  reverse : string → list value → string;
  (** [import_by_path(dotted_path)] *)
  import_by_path : value → outcome handler;
  (** [qlength()] *)
  qlength : Z;
  (** [settings.STATIC_URL] and [settings.SUBMISSION_PATH] *)
  STATIC_URL : string;
  SUBMISSION_PATH : string;
  (** [str(v)], as [str.format] renders a [{}] field *)
  py_str : value → string;
  (** [json.dumps(vals)] *)
  json_dumps : dict → string;
}.

(** [os.path.join(a, b)] on POSIX for a relative [b]. *)
Fixpoint ends_with_slash (a : string) : bool :=
  match a with
  | EmptyString => false
  | String c EmptyString => Ascii.eqb c (Ascii.ascii_of_nat 47)
  | String _ a' => ends_with_slash a'
  end.

Definition os_path_join (a b : string) : string :=
  if String.eqb a "" then b
  else if ends_with_slash a then a +:+ b
  else a +:+ "/" +:+ b.

(** The file system: the content of every file that exists, by path, and
    the paths at which [open(path, 'w')] succeeds (the directory is there
    and may be written to; elsewhere [open] raises [OSError] and nothing is
    written). *)
Record files : Type := {
  content : gmap string string;
  writable : string → bool;
}.

(** The content of the file at [path], if it exists. *)
#[export] Instance files_lookup : Lookup string string files :=
  λ path fs, content fs !! path.

(** What [f.write(text)] leaves of a file opened with [open(path, 'w')]. *)
Definition write_file (path text : string) (fs : files) : files :=
  {| content := <[path := text]> (content fs); writable := writable fs |}.

(** ** The views *)

Definition index (E : env) (request : request) : outcome response :=
  let courses := config_courses E in
  if is_ajax request then
    picked ← _filter_fields courses ["key"; "name"];
    Ok (JsonResponse [("ready", VBool true); ("courses", VList (VDict <$> picked))])
  else
    Ok (Render "access/ready.html" [("courses", VList (VDict <$> courses))]).

Definition course (E : env) (request : request) (course_key : string)
    : outcome response :=
  let '(course, exercises) := config_exercises E course_key in
  match course with
  | None => Raise Http404
  | Some course =>
      if is_ajax request then
        name ← dict_subscript "name" course;
        picked ← _filter_fields exercises ["key"; "title"];
        Ok (JsonResponse [("ready", VBool true);
                          ("course_name", name);
                          ("exercises", VList (VDict <$> picked))])
      else
        key ← dict_subscript "key" course;
        Ok (Render "access/course.html"
              [("course", VDict course);
               ("exercises", VList (VDict <$> exercises));
               ("plus_config_url",
                VStr (build_absolute_uri request
                        (reverse E "access.views.aplus_json" [key])))])
  end.

(** The language [exercise] activates: the [lang] of the query string unless
    it is missing or empty ([not lang]), then the course's, then ["en"]. *)
Definition exercise_lang (lang : option string) (course : dict) : value :=
  let configured :=
    if dict_has "lang" course then dict_get_default "lang" VNone course
    else VStr "en" in
  match lang with
  | None => configured
  | Some s => if String.eqb s "" then configured else VStr s
  end.

Definition exercise (E : env) (request : request) (course_key exercise_key : string)
    : outcome response :=
  let post_url := GET request "post_url" in
  let lang := GET request "lang" in
  let '(course, exercise) :=
    config_exercise_entry E (VStr course_key) (VStr exercise_key) lang in
  match course, exercise with
  | Some course, Some exercise =>
      let lang := exercise_lang lang course in
      view_type ← dict_subscript "view_type" exercise;
      match import_by_path E view_type with
      | Ok exview => exview lang request course exercise post_url
      | Raise ImproperlyConfigured => Raise ConfigError
      | Raise e => Raise e
      | IllTyped => IllTyped
      end
  | _, _ => Raise Http404
  end.

Definition ajax_submit (E : env) (request : request) (course_key exercise_key : string)
    : outcome response :=
  Ok (HttpResponse (VStr "bla")).

(** The dictionary the source calls [of], as generated for a child [o] that
    has a key, before it is updated with [o]. *)
Definition exercise_fields (E : env) (request : request) (course : dict) (o : dict)
    : outcome dict :=
  if dict_has "config" o then
    course_key ← dict_subscript "key" course;
    o_key ← dict_subscript "key" o;
    match (config_exercise_entry E course_key o_key None).2 with
    | None => Raise AttributeError
    | Some exercise =>
        let title := dict_get_default "title" (VStr "") exercise in
        let description := dict_get_default "description" (VStr "") exercise in
        exercise_key ← dict_subscript "key" exercise;
        Ok [("title", title);
            ("description", description);
            ("url", VStr (build_absolute_uri request
                            (reverse E "access.views.exercise"
                               [course_key; exercise_key])))]
    end
  else if dict_has "static_content" o then
    course_key ← dict_subscript "key" course;
    static_content ← dict_subscript "static_content" o;
    Ok [("url", VStr (build_absolute_uri request
                        (STATIC_URL E +:+ py_str E course_key +:+ "/"
                           +:+ py_str E static_content)))]
  else Ok [].

(** [course.get("exercise_types", {})] and [course.get("module_types", {})] *)
Definition exercise_types (course : dict) : value :=
  dict_get_default "exercise_types" (VDict []) course.

Definition module_types (course : dict) : value :=
  dict_get_default "module_types" (VDict []) course.

(** The body of the loop of [children_recursion] for one child [o], given
    what the recursive call on [o] yields. *)
Definition child_entry (E : env) (request : request) (course : dict) (o : dict)
    (children_of_o : outcome (list value)) : outcome value :=
  fields ← exercise_fields E request course o;
  let fields := dict_update fields o in
  children ← children_of_o;
  let fields := dict_set fields "children" (VList children) in
  typed ← _type_dict fields (exercise_types course);
  Ok (VDict typed).

Definition is_dict (v : value) : bool :=
  match v with VDict _ => true | _ => false end.

(** ["key" in o] *)
Definition has_key (o : value) : bool :=
  match o with VDict d => dict_has "key" d | _ => false end.

Fixpoint children_recursion (E : env) (request : request) (course : dict)
    (parent : value) {struct parent} : outcome (list value) :=
  match parent with
  | VDict d =>
      dict_find "children"
        (λ children,
           match children with
           | VList l =>
               if forallb is_dict l then
                 for_each_if has_key
                   (λ o, match o with
                         | VDict od =>
                             child_entry E request course od
                               (children_recursion E request course o)
                         | _ => IllTyped
                         end) l
               else IllTyped
           | _ => IllTyped
           end)
        (Ok []) d
  | _ => IllTyped
  end.

Definition course_fields : list string :=
  ["name"; "description"; "lang"; "contact"; "assistants"; "start"; "end";
   "categories"; "numerate_ignoring_modules"].

(** The body of the loop of [aplus_json] over the modules. *)
Definition module_entry (E : env) (request : request) (course : dict) (m : value)
    : outcome value :=
  md ← as_dict m;
  mf ← _type_dict md (module_types course);
  children ← children_recursion E request course m;
  Ok (VDict (dict_set mf "children" (VList children))).

Definition aplus_json (E : env) (request : request) (course_key : string)
    : outcome response :=
  match config_course_entry E course_key with
  | None => Raise Http404
  | Some course =>
      let data := _copy_fields course course_fields in
      modules ←
        (if dict_has "modules" course then
           ms ← dict_subscript "modules" course;
           l ← as_list ms;
           for_each (module_entry E request course) l
         else Ok []);
      Ok (JsonResponse (dict_set data "modules" (VList modules)))
  end.

Definition queue_length (E : env) (request : request) : outcome response :=
  Ok (HttpResponse (VInt (qlength E))).

Definition no_test_result : string := "No test result received yet.".

(** [test_result] at the time whose text [str(timezone.now())] is [now],
    on the file system [fs]. *)
Definition test_result (E : env) (now : string) (request : request) (fs : files)
    : outcome response * files :=
  let file_path := os_path_join (SUBMISSION_PATH E) "test-result" in
  if String.eqb (method request) "POST" then
    let vals := POST request in
    let vals := dict_set vals "time" (VStr now) in
    if writable fs file_path then
      let fs := write_file file_path (json_dumps E vals) fs in
      (Ok (JsonResponse [("success", VBool true)]), fs)
    else (Raise OSError, fs)
  else
    let result := fs !! file_path in
    (Ok (HttpResponse
           (VStr match result with
                 | Some content =>
                     if String.eqb content "" then no_test_result else content
                 | None => no_test_result
                 end)),
     fs).

(** ** The build hook ([scripts/build_template.py]) *)

(** The body of [build] is its docstring: with its six parameters and the
    extra keyword arguments bound, it runs nothing and yields [None]. *)
Definition build (logger course_key path image env settings : value)
    (kwargs : dict) : value :=
  VNone.

(** The parameters of [build], in order, and its annotations
    ([build.__annotations__]), which Python records and does not check. *)
Definition build_parameters : list string :=
  ["logger"; "course_key"; "path"; "image"; "env"; "settings"].

Definition build_annotations : list (string * string) :=
  [("logger", "logging.Logger"); ("course_key", "str"); ("path", "Path");
   ("image", "str"); ("env", "Dict[str, str]"); ("settings", "Any");
   ("return", "bool")].

(** A call binds the positional arguments to the parameters from the
    left; more arguments than parameters raise [TypeError]. *)
Fixpoint bind_positional (parameters : list string) (args : list value)
    : outcome (dict * list string) :=
  match args, parameters with
  | [], _ => Ok ([], parameters)
  | _ :: _, [] => Raise TypeError
  | a :: args', p :: parameters' =>
      '(bound, unbound) ← bind_positional parameters' args';
      Ok ((p, a) :: bound, unbound)
  end.

(** Then the keyword arguments: a name that is a parameter still unbound
    binds it, a name already bound raises [TypeError], and any other name
    goes to [kwargs]. *)
Fixpoint bind_keywords (unbound : list string) (bound kwargs : dict)
    (keywords : dict) : outcome (dict * list string * dict) :=
  match keywords with
  | [] => Ok (bound, unbound, kwargs)
  | (k, v) :: keywords' =>
      if dict_has k bound then Raise TypeError
      else if bool_decide (k ∈ unbound) then
        bind_keywords (List.filter (λ p, negb (String.eqb p k)) unbound)
          (dict_set bound k v) kwargs keywords'
      else bind_keywords unbound bound (dict_set kwargs k v) keywords'
  end.

(** [build] called with the positional arguments [args] and the keyword
    arguments [keywords]: a parameter left unbound raises [TypeError];
    otherwise the body runs. *)
Definition call_build (args : list value) (keywords : dict) : outcome value :=
  '(bound, unbound) ← bind_positional build_parameters args;
  '(bound, unbound, kwargs) ← bind_keywords unbound bound [] keywords;
  match unbound with
  | [] =>
      logger ← dict_subscript "logger" bound;
      course_key ← dict_subscript "course_key" bound;
      path ← dict_subscript "path" bound;
      image ← dict_subscript "image" bound;
      env ← dict_subscript "env" bound;
      settings ← dict_subscript "settings" bound;
      Ok (build logger course_key path image env settings kwargs)
  | _ :: _ => Raise TypeError
  end.

(** ** Objects and their identity

    The functions above say which entries a result has.  Which of its values
    are shared with the arguments is a matter of object identity: here a
    list or dictionary is an object on a heap, named by its address, and a
    value is an immutable atom or a reference to an object.  A function
    answers [None] when it does not return (it raises, meets a value outside
    the data model, or the recursion bound [fuel] of [deepcopy] is used
    up). *)

Module Heap.

(** An address. *)
Abbreviation loc := nat (only parsing).

Inductive atom : Type :=
  | ANone
  | ABool (b : bool)
  | AInt (n : Z)
  | AStr (s : string).

Inductive val : Type :=
  | Atom (a : atom)
  | Ref (l : loc).

Abbreviation entries := (list (string * val)).

Inductive obj : Type :=
  | ODict (d : entries)
  | OList (l : list val).

(** The object at address [l] is the [l]-th of the heap; a new object
    takes the next address. *)
Abbreviation heap := (list obj).

Definition alloc (o : obj) (h : heap) : loc * heap := (length h, h ++ [o]).

(** [y[k] = v] for the dictionary at address [y]. *)
Definition store_item (y : loc) (k : string) (v : val) (h : heap) : heap :=
  match h !! y with
  | Some (ODict d) => <[y := ODict (dict_set d k v)]> h
  | _ => h
  end.

(** [y.append(v)] for the list at address [y]. *)
Definition store_append (y : loc) (v : val) (h : heap) : heap :=
  match h !! y with
  | Some (OList l) => <[y := OList (l ++ [v])]> h
  | _ => h
  end.

(** The loops of [copy.deepcopy] over the entries of a dictionary and the
    elements of a list, filling the copy at address [y]; [copy] is the
    recursive call. *)
Definition copy_items
    (copy : val → gmap loc loc → heap → option (val * gmap loc loc * heap))
    (y : loc) : entries → gmap loc loc → heap → option (gmap loc loc * heap) :=
  fix items d memo h :=
    match d with
    | [] => Some (memo, h)
    | (key, value) :: d' =>
        '(v, memo, h) ← copy value memo h;
        items d' memo (store_item y key v h)
    end.

Definition copy_elements
    (copy : val → gmap loc loc → heap → option (val * gmap loc loc * heap))
    (y : loc) : list val → gmap loc loc → heap → option (gmap loc loc * heap) :=
  fix elements xs memo h :=
    match xs with
    | [] => Some (memo, h)
    | a :: xs' =>
        '(v, memo, h) ← copy a memo h;
        elements xs' memo (store_append y v h)
    end.

(** [copy.deepcopy(x, memo)]: an atom is returned as it is; an object
    already in [memo] yields its copy; any other object gets a new, empty
    copy that is entered in [memo] and then filled with the copies of its
    parts. *)
Fixpoint deepcopy (fuel : nat) (x : val) (memo : gmap loc loc) (h : heap)
    : option (val * gmap loc loc * heap) :=
  match fuel with
  | 0 => None
  | S fuel =>
      match x with
      | Atom _ => Some (x, memo, h)
      | Ref l =>
          match memo !! l with
          | Some y => Some (Ref y, memo, h)
          | None =>
              match h !! l with
              | None => None
              | Some (ODict d) =>
                  let '(y, h) := alloc (ODict []) h in
                  let memo := <[l := y]> memo in
                  '(memo, h) ← copy_items (deepcopy fuel) y d memo h;
                  Some (Ref y, memo, h)
              | Some (OList xs) =>
                  let '(y, h) := alloc (OList []) h in
                  let memo := <[l := y]> memo in
                  '(memo, h) ← copy_elements (deepcopy fuel) y xs memo h;
                  Some (Ref y, memo, h)
              end
          end
      end
  end.

(** [base.update(d)] for the dictionary at [base]. *)
Definition update (base : loc) (d : entries) (h : heap) : heap :=
  fold_left (λ h kv, store_item base kv.1 kv.2 h) d h.

(** [key in d] and [d[key]] for a value [key]: an object has no hash. *)
Definition contains (key : val) (d : entries) : option bool :=
  match key with
  | Atom (AStr s) => Some (bool_decide (is_Some (dict_get s d)))
  | Atom _ => Some false
  | Ref _ => None
  end.

Definition getitem (key : val) (d : entries) : option val :=
  match key with
  | Atom (AStr s) => dict_get s d
  | _ => None
  end.

Definition as_dict (v : val) (h : heap) : option entries :=
  match v with
  | Ref l => match h !! l with Some (ODict d) => Some d | _ => None end
  | Atom _ => None
  end.

Definition _type_dict (fuel : nat) (dict_item dict_types : val) (h : heap)
    : option (val * heap) :=
  item ← as_dict dict_item h;
  let '(base, h) := alloc (ODict []) h in
  '(base, h) ←
    match dict_get "type" item with
    | Some t =>
        types ← as_dict dict_types h;
        found ← contains t types;
        if found : bool then
          tv ← getitem t types;
          '(copy, _, h) ← deepcopy fuel tv ∅ h;
          Some (copy, h)
        else Some (Ref base, h)
    | None => Some (Ref base, h)
    end;
  match base with
  | Ref b =>
      _ ← as_dict base h;
      let h := update b item h in
      d ← as_dict base h;
      let h := if bool_decide (is_Some (dict_get "type" d))
               then <[b := ODict (dict_del "type" d)]> h else h in
      Some (base, h)
  | Atom _ => None
  end.

(** The loop of [_copy_fields] over the picked names, filling the
    dictionary at [result]. *)
Fixpoint copy_loop (fuel : nat) (item : entries) (pick_fields : list string)
    (result : loc) (h : heap) : option heap :=
  match pick_fields with
  | [] => Some h
  | name :: rest =>
      match dict_get name item with
      | Some v =>
          '(copy, _, h) ← deepcopy fuel v ∅ h;
          copy_loop fuel item rest result (store_item result name copy h)
      | None => copy_loop fuel item rest result h
      end
  end.

Definition _copy_fields (fuel : nat) (dict_item : val) (pick_fields : list string)
    (h : heap) : option (val * heap) :=
  item ← as_dict dict_item h;
  let '(result, h) := alloc (ODict []) h in
  h ← copy_loop fuel item pick_fields result h;
  Some (Ref result, h).

(** The addresses an object holds. *)
Definition val_refs (v : val) : list loc :=
  match v with Ref l => [l] | Atom _ => [] end.

Definition obj_refs (o : obj) : list loc :=
  match o with
  | ODict d => d.*2 ≫= val_refs
  | OList l => l ≫= val_refs
  end.

(** A heap is closed when its objects hold addresses of its own only, and
    its dictionaries hold no key twice. *)
Definition obj_ok (n : nat) (o : obj) : Prop :=
  Forall (λ l, l < n) (obj_refs o) ∧
  match o with ODict d => NoDup d.*1 | OList _ => True end.

Definition closed (h : heap) : Prop := Forall (obj_ok (length h)) h.

(** [v'] is a copy, made on top of the heap [h0], of the value [v]: the
    atom itself, or a reference to an object that [h0] does not have. *)
Definition copy_of (h0 : heap) (v v' : val) : Prop :=
  match v with
  | Atom a => v' = Atom a
  | Ref _ => ∃ y, v' = Ref y ∧ length h0 ≤ y
  end.

(** The state of a copying pass on top of [h0]: the objects of [h0] are as
    they were, [memo] sends objects of [h0] to objects made since, and the
    objects made since hold addresses of such objects only. *)
Definition copying (h0 : heap) (memo : gmap loc loc) (h : heap) : Prop :=
  (length h0 ≤ length h ∧ ∀ l, l < length h0 → h !! l = h0 !! l) ∧
  (∀ l y, memo !! l = Some y → l < length h0 ∧ length h0 ≤ y < length h) ∧
  (∀ y o, length h0 ≤ y → h !! y = Some o →
     Forall (λ l, length h0 ≤ l < length h) (obj_refs o)).

(** What a call [copy x memo h] that returned [r] has done, in a pass on
    top of [h0]: the pass goes on, [memo] has grown, no object that was
    there is changed, and the result is the atom [x] or the copy entered in
    [memo] for the object [x]; a dictionary copied by this very call has its
    copy filled, entry for entry. *)
Definition copy_post (h0 : heap) (x : val) (memo : gmap loc loc) (h : heap)
    (r : val * gmap loc loc * heap) : Prop :=
  copying h0 r.1.2 r.2 ∧ memo ⊆ r.1.2 ∧
  (length h ≤ length r.2 ∧ ∀ l, l < length h → r.2 !! l = h !! l) ∧
  match x with
  | Atom a => r.1.1 = Atom a
  | Ref l =>
      ∃ y, r.1.1 = Ref y ∧ r.1.2 !! l = Some y ∧
        (memo !! l = None → ∀ d, h0 !! l = Some (ODict d) →
           ∃ d', r.2 !! y = Some (ODict d') ∧
             Forall2 (λ e e', e.1 = e'.1 ∧ copy_of h0 e.2 e'.2) d d')
  end.

Definition copy_sound (h0 : heap)
    (copy : val → gmap loc loc → heap → option (val * gmap loc loc * heap)) : Prop :=
  ∀ x memo h r,
    copying h0 memo h → Forall (λ l, l < length h0) (val_refs x) →
    copy x memo h = Some r → copy_post h0 x memo h r.

(** [v'] is what stands for [v] in the copies that [memo] records: the
    atom itself, or the copy that [memo] has of the object. *)
Definition renamed (memo : gmap loc loc) (v v' : val) : Prop :=
  match v with
  | Atom a => v' = Atom a
  | Ref l => ∃ y, v' = Ref y ∧ memo !! l = Some y
  end.

(** [o'] is [o] entry for entry, or element for element, with every value
    replaced by what stands for it. *)
Definition renamed_obj (memo : gmap loc loc) (o o' : obj) : Prop :=
  match o, o' with
  | ODict d, ODict d' =>
      Forall2 (λ e e' : string * val, e.1 = e'.1 ∧ renamed memo e.2 e'.2) d d'
  | OList xs, OList xs' => Forall2 (renamed memo) xs xs'
  | _, _ => False
  end.

(** What has been entered in [memo] since it was [memo0], when the heap had
    [n] objects, is copied whole: the copy is an object made since and holds
    the object of [h0] entry for entry. *)
Definition copied_whole (h0 : heap) (memo0 memo : gmap loc loc) (n : nat) (h : heap)
    : Prop :=
  ∀ l y, memo !! l = Some y → memo0 !! l = None →
    n ≤ y ∧ ∃ o o', h0 !! l = Some o ∧ h !! y = Some o' ∧ renamed_obj memo o o'.

(** What a call [copy x memo h] that returned has copied: the result stands
    for [x], the objects copied by the call are copied whole, and the copy
    of an object [x] not yet in [memo] is the first object made. *)
Definition copy_whole (h0 : heap)
    (copy : val → gmap loc loc → heap → option (val * gmap loc loc * heap)) : Prop :=
  ∀ x memo h v memo' h',
    copying h0 memo h → Forall (λ l, l < length h0) (val_refs x) →
    copy x memo h = Some (v, memo', h') →
    renamed memo' x v ∧
    copied_whole h0 memo memo' (length h) h' ∧
    ∀ l, x = Ref l → memo !! l = None →
      v = Ref (length h) ∧
      ∀ l' y', l' ≠ l → memo' !! l' = Some y' → memo !! l' = None → length h < y'.

(** The objects of [h0] that a pass has not copied yet: each recursive call
    of [deepcopy] that goes deeper has copied one more. *)
Definition uncopied (h0 : heap) (memo : gmap loc loc) : gset loc :=
  set_seq 0 (length h0) ∖ dom memo.

Definition copy_returns (h0 : heap) (fuel : nat)
    (copy : val → gmap loc loc → heap → option (val * gmap loc loc * heap)) : Prop :=
  ∀ x memo h,
    copying h0 memo h → Forall (λ l, l < length h0) (val_refs x) →
    size (uncopied h0 memo) < fuel → is_Some (copy x memo h).

(** Shallow-copy semantics of the merge, as C2 words it: a value that the
    result inherits from the type dictionary is the very value stored
    there. *)
Definition shares_type_values (fuel : nat) (dict_item dict_types : val) (h : heap)
    : Prop :=
  ∀ r h' item types t tv td res,
    _type_dict fuel dict_item dict_types h = Some (Ref r, h') →
    as_dict dict_item h = Some item →
    as_dict dict_types h = Some types →
    dict_get "type" item = Some t →
    getitem t types = Some tv →
    as_dict tv h = Some td →
    h' !! r = Some (ODict res) →
    ∀ k v, k ≠ "type" → dict_get k item = None → dict_get k td = Some v →
      dict_get k res = Some v.

(** The same for [_copy_fields]: a picked value is the very value stored in
    the course entry. *)
Definition shares_course_values (fuel : nat) (dict_item : val)
    (pick_fields : list string) (h : heap) : Prop :=
  ∀ r h' item res,
    _copy_fields fuel dict_item pick_fields h = Some (Ref r, h') →
    as_dict dict_item h = Some item →
    h' !! r = Some (ODict res) →
    ∀ k v, k ∈ pick_fields → dict_get k item = Some v → dict_get k res = Some v.

(** The tree of values that a value on the heap stands for, read down to
    depth [fuel]. *)
Definition atom_value (a : atom) : value :=
  match a with
  | ANone => VNone
  | ABool b => VBool b
  | AInt n => VInt n
  | AStr s => VStr s
  end.

Fixpoint read (fuel : nat) (h : heap) (v : val) : option value :=
  match fuel with
  | 0 => None
  | S fuel =>
      match v with
      | Atom a => Some (atom_value a)
      | Ref l =>
          match h !! l with
          | Some (ODict d) =>
              VDict <$> mapM (λ kv : string * val, pair kv.1 <$> read fuel h kv.2) d
          | Some (OList xs) => VList <$> mapM (read fuel h) xs
          | None => None
          end
      end
  end.

(** [v'] on the heap [h'] holds the content of [v] on [h]: whatever tree of
    values [v] stands for there, [v'] stands for here. *)
Definition same_content (h : heap) (v : val) (h' : heap) (v' : val) : Prop :=
  ∀ fuel tree, read fuel h v = Some tree → read fuel h' v' = Some tree.

(** A heap with a course entry (0), its exercise types (1), the type
    dictionary ["quiz"] (2) with a list of tags (3), an exercise (4) of that
    type, and the list of assistants of the course (5). *)
Definition example_heap : heap :=
  [ODict [("name", Atom (AStr "Course")); ("assistants", Ref 5);
          ("exercise_types", Ref 1)];
   ODict [("quiz", Ref 2)];
   ODict [("max_points", Atom (AInt 10)); ("tags", Ref 3)];
   OList [Atom (AStr "auto")];
   ODict [("key", Atom (AStr "e1")); ("type", Atom (AStr "quiz"))];
   OList [Atom (AStr "ta1"); Atom (AStr "ta2")]].

End Heap.

(** ** Vocabulary of the statements *)

(** A dictionary of type dictionaries, as a value. *)
Definition types_value (dict_types : list (string * dict)) : value :=
  VDict (prod_map id VDict <$> dict_types).

(** The type dictionary a type value names, if it names one. *)
Definition type_named (t : value) (dict_types : list (string * dict)) : option dict :=
  match t with
  | VStr s => snd <$> List.find (λ kd : string * dict, String.eqb kd.1 s) dict_types
  | _ => None
  end.

(** Type inheritance with every key of the type dictionary inherited, the
    ["type"] key included, and the entries of [dict_item] kept whenever its
    type is no key of [dict_types]. *)
Definition inherits_every_key (dict_item : dict) (dict_types : list (string * dict))
    : Prop :=
  ∃ result, _type_dict dict_item (types_value dict_types) = Ok result ∧
    match dict_get "type" dict_item with
    | Some t =>
        match type_named t dict_types with
        | Some td =>
            ∀ k v, dict_get k td = Some v →
              dict_get k result
              = Some (match dict_get k dict_item with Some v' => v' | None => v end)
        | None =>
            ∀ k, dict_get k result
                 = if String.eqb k "type" then None else dict_get k dict_item
        end
    | None =>
        ∀ k, dict_get k result
             = if String.eqb k "type" then None else dict_get k dict_item
    end.

(** An entry of the JSON feed that has no ["type"] field, carries a
    ["children"] list, and whose children are such entries again. *)
Inductive no_type_field : value → Prop :=
  | no_type_field_entry d l :
      dict_get "type" d = None →
      dict_get "children" d = Some (VList l) →
      Forall no_type_field l →
      no_type_field (VDict d).

(** The children list the feed carries for [parent], said as a relation:
    none when [parent] has no ["children"]; otherwise one entry for every
    child that has a ["key"], in order, each the type inheritance (with the
    exercise types of the course) of the generated fields updated with the
    child and carrying the children list of the child. *)
Inductive built_children (E : env) (request : request) (course : dict)
    : value → list value → Prop :=
  | built_no_children d :
      dict_get "children" d = None →
      built_children E request course (VDict d) []
  | built_from_children d l entries :
      dict_get "children" d = Some (VList l) →
      Forall2 (built_child E request course) (List.filter has_key l) entries →
      built_children E request course (VDict d) entries
with built_child (E : env) (request : request) (course : dict)
    : value → value → Prop :=
  | built_child_entry o fields children typed :
      exercise_fields E request course o = Ok fields →
      built_children E request course (VDict o) children →
      _type_dict (dict_set (dict_update fields o) "children" (VList children))
        (exercise_types course) = Ok typed →
      built_child E request course (VDict o) (VDict typed).

(** The entry of the feed for a module [m]: its type inheritance with the
    module types of the course, carrying the children list of [m]. *)
Definition built_module (E : env) (request : request) (course : dict)
    (m mf : value) : Prop :=
  ∃ md typed children,
    m = VDict md ∧
    _type_dict md (module_types course) = Ok typed ∧
    built_children E request course m children ∧
    mf = VDict (dict_set typed "children" (VList children)).

(** A ["type"] that [_type_dict] can resolve in [types]: a hashable value,
    with [types] a dictionary in which the entry it names, if any, is a
    dictionary. *)
Definition type_ok (types : value) (d : dict) : Prop :=
  match dict_get "type" d with
  | None => True
  | Some t =>
      hashable t = true ∧
      ∃ dts, types = VDict dts ∧
        ∀ tv, dict_getitem t dts = Ok tv → is_dict tv = true
  end.

(** What the generated fields of a child with a key need: the course entry
    has a ["key"] when the child has ["config"] or ["static_content"], and
    the configuration has an exercise entry with a ["key"] for a child with
    ["config"]. *)
Definition fields_ok (E : env) (course : dict) (o : dict) : Prop :=
  (dict_has "config" o = true →
   ∃ course_key, dict_get "key" course = Some course_key ∧
     ∀ o_key, dict_get "key" o = Some o_key →
       ∃ exercise,
         (config_exercise_entry E course_key o_key None).2 = Some exercise ∧
         is_Some (dict_get "key" exercise)) ∧
  (dict_has "config" o = false → dict_has "static_content" o = true →
   is_Some (dict_get "key" course)).

(** A well-formed tree of children below a dictionary: every ["children"]
    is a list of dictionaries, and each of them that has a ["key"] holds no
    key twice, has what its generated fields need, a type that the exercise
    types resolve, and well-formed children. *)
Inductive children_ok (E : env) (course : dict) : value → Prop :=
  | children_ok_dict d :
      (∀ v, dict_get "children" d = Some v →
         ∃ l, v = VList l ∧ forallb is_dict l = true) →
      (∀ l o, dict_get "children" d = Some (VList l) →
         VDict o ∈ l → dict_has "key" o = true →
         NoDup o.*1 ∧ fields_ok E course o ∧
         type_ok (exercise_types course) o ∧
         children_ok E course (VDict o)) →
      children_ok E course (VDict d).

(** A well-formed course entry: its ["modules"], if any, is a list of
    dictionaries, each with a type that the module types resolve and
    well-formed children. *)
Definition course_ok (E : env) (course : dict) : Prop :=
  ∀ ms, dict_get "modules" course = Some ms →
    ∃ l, ms = VList l ∧
      ∀ m, m ∈ l →
        ∃ md, m = VDict md ∧ type_ok (module_types course) md ∧
              children_ok E course m.



(** [build] returns a boolean. *)
Definition is_boolean (v : value) : Prop := ∃ b, v = VBool b.

(** The dictionary that [_type_dict] takes as its base for [dict_item]: the
    entry of [dict_types] that the type of [dict_item] names, and the empty
    dictionary when it names none. *)
Definition inherited (dict_item : dict) (dict_types : value) : dict :=
  match dict_get "type" dict_item, dict_types with
  | Some (VStr s), VDict types =>
      match dict_get s types with
      | Some (VDict td) => td
      | _ => []
      end
  | _, _ => []
  end.

(** An entry as [_filter_fields] cuts it down to the picked names. *)
Definition picked_from (pick_fields : list string) (entry new_entry : dict) : Prop :=
  ∀ k, dict_get k new_entry
       = if bool_decide (k ∈ pick_fields) then dict_get k entry else None.

(** The ["key"] of an entry. *)
Definition entry_key (entry : value) : option value :=
  match entry with VDict d => dict_get "key" d | _ => None end.

(** ** An example configuration *)

(** A course with one module of one exercise and one child without a key. *)
Definition example_course : dict :=
  [("key", VStr "c1");
   ("name", VStr "Course");
   ("exercise_types", VDict [("quiz", VDict [("max_points", VInt 10)])]);
   ("modules",
    VList [VDict [("key", VStr "m1");
                  ("type", VStr "week");
                  ("children",
                   VList [VDict [("key", VStr "e1");
                                 ("config", VStr "e1.yaml");
                                 ("type", VStr "quiz")];
                          VDict [("title", VStr "A heading")]])]])].

(** A course whose module gives a list as its type. *)
Definition list_typed_course : dict :=
  [("key", VStr "c2");
   ("name", VStr "Course");
   ("modules", VList [VDict [("key", VStr "m1"); ("type", VList [VStr "week"])]])].

Definition example_exercise (key : value) : dict :=
  [("key", key); ("title", VStr "Exercise");
   ("view_type", VStr "access.types.stdsync.createForm")].

Definition example_view : handler :=
  λ lang request course exercise post_url,
    Ok (Render "access/create_form_default.html"
          [("course", VDict course); ("exercise", VDict exercise)]).

Definition example_env : env := {|
  config_courses := [example_course; list_typed_course];
  config_exercises := λ course_key,
    if String.eqb course_key "c1" then (Some example_course, [example_exercise (VStr "e1")])
    else (None, []);
  config_exercise_entry := λ course_key exercise_key lang,
    match course_key, exercise_key with
    | VStr "c1", VStr "e1" => (Some example_course, Some (example_exercise (VStr "e1")))
    | _, _ => (None, None)
    end;
  config_course_entry := λ course_key,
    if String.eqb course_key "c1" then Some example_course
    else if String.eqb course_key "c2" then Some list_typed_course
    else None;
  reverse := λ viewname args, "/" +:+ viewname;
  import_by_path := λ dotted_path,
    match dotted_path with
    | VStr "access.types.stdsync.createForm" => Ok example_view
    | VStr _ => Raise ImproperlyConfigured
    | _ => Raise AttributeError
    end;
  qlength := 0;
  STATIC_URL := "/static/";
  SUBMISSION_PATH := "/srv/uploads";
  py_str := λ v, match v with VStr s => s | _ => "" end;
  json_dumps := λ vals, match dict_get "time" vals with Some (VStr t) => t | _ => "" end;
|}.

(** A disk on which every directory is there and may be written to, and
    one on which nothing may be written. *)
Definition disk (content : gmap string string) : files :=
  {| content := content; writable := λ path, true |}.

Definition read_only_disk (content : gmap string string) : files :=
  {| content := content; writable := λ path, false |}.

Definition example_request (method : string) : request := {|
  method := method;
  is_ajax := false;
  GET := λ name, None;
  POST := [("points", VStr "10")];
  build_absolute_uri := λ location, "http://grader" +:+ location;
|}.

(** * Properties *)

(** ** Dictionary operations *)

Section dictionary_facts.
Context {V : Type}.
Implicit Types d b : list (string * V).

Lemma dict_get_set_eq d k v : dict_get k (dict_set d k v) = Some v.
Proof.
  induction d as [|[k' v'] d IH]; simpl.
  - by rewrite String.eqb_refl.
  - destruct (String.eqb k' k) eqn:E; simpl; rewrite ?String.eqb_refl, ?E; auto.
Qed.

Lemma dict_get_set_ne d k k' v :
  k ≠ k' → dict_get k' (dict_set d k v) = dict_get k' d.
Proof.
  intros Hne. induction d as [|[k0 v0] d IH]; simpl.
  - by apply String.eqb_neq in Hne as ->.
  - destruct (String.eqb k0 k) eqn:E; simpl.
    + apply String.eqb_eq in E as ->.
      by apply String.eqb_neq in Hne as ->.
    + destruct (String.eqb k0 k'); auto.
Qed.

Lemma dict_get_set d k k' v :
  dict_get k' (dict_set d k v) = if String.eqb k k' then Some v else dict_get k' d.
Proof.
  destruct (String.eqb k k') eqn:E.
  - apply String.eqb_eq in E as ->. apply dict_get_set_eq.
  - apply String.eqb_neq in E. by apply dict_get_set_ne.
Qed.

Lemma dict_get_del_eq d k : dict_get k (dict_del k d) = None.
Proof.
  induction d as [|[k' v'] d IH]; simpl; [done|].
  destruct (String.eqb k' k) eqn:E; simpl; [done|]. by rewrite E.
Qed.

Lemma dict_get_del_ne d k k' :
  k ≠ k' → dict_get k' (dict_del k d) = dict_get k' d.
Proof.
  intros Hne. induction d as [|[k0 v0] d IH]; simpl; [done|].
  destruct (String.eqb k0 k) eqn:E; simpl.
  - apply String.eqb_eq in E as ->. by apply String.eqb_neq in Hne as ->.
  - destruct (String.eqb k0 k'); auto.
Qed.

Lemma dict_get_None d k : dict_get k d = None ↔ k ∉ d.*1.
Proof.
  induction d as [|[k' v'] d IH]; simpl.
  - split; [intros _; apply not_elem_of_nil | done].
  - rewrite not_elem_of_cons. destruct (String.eqb k' k) eqn:E.
    + apply String.eqb_eq in E as ->. split; [done | intros [? _]; done].
    + apply String.eqb_neq in E. rewrite IH.
      split; [intros H; split; [congruence | done] | intros [_ H]; done].
Qed.

Lemma dict_get_Some_elem d k v : dict_get k d = Some v → (k, v) ∈ d.
Proof.
  induction d as [|[k' v'] d IH]; simpl; [done|].
  destruct (String.eqb k' k) eqn:E.
  - apply String.eqb_eq in E as ->. intros [= ->]. left.
  - intros H. right. auto.
Qed.

Lemma dict_has_get d k : dict_has k d = true ↔ is_Some (dict_get k d).
Proof.
  unfold dict_has. destruct (dict_get k d); split; eauto; try done.
Qed.

Lemma dict_del_absent d k : dict_get k d = None → dict_del k d = d.
Proof.
  induction d as [|[k' v'] d IH]; simpl; [done|].
  destruct (String.eqb k' k); simpl; [done|]. intros H. by rewrite IH.
Qed.

(** After [base.update(d)] a key of [d] holds the value of its last binding
    in [d], and any other key keeps what [base] held. *)
Lemma dict_get_update_snoc b d k v k' :
  dict_get k' (dict_update b (d ++ [(k, v)]))
  = if String.eqb k k' then Some v else dict_get k' (dict_update b d).
Proof.
  unfold dict_update. rewrite fold_left_app. simpl. apply dict_get_set.
Qed.

Lemma dict_get_update_absent b d k :
  dict_get k d = None → dict_get k (dict_update b d) = dict_get k b.
Proof.
  revert b. induction d as [|[k' v'] d IH]; intros b; simpl; [done|].
  destruct (String.eqb k' k) eqn:E; [done|]. intros H.
  unfold dict_update in *. simpl. rewrite IH by done.
  apply String.eqb_neq in E. by apply dict_get_set_ne.
Qed.

Lemma dict_get_update_present b d k v :
  NoDup d.*1 → dict_get k d = Some v → dict_get k (dict_update b d) = Some v.
Proof.
  revert b. induction d as [|[k' v'] d IH]; intros b Hnd; simpl; [done|].
  apply NoDup_cons in Hnd as [Hk' Hnd].
  unfold dict_update in *. simpl.
  destruct (String.eqb k' k) eqn:E.
  - apply String.eqb_eq in E as ->. intros [= ->].
    fold (dict_update (dict_set b k v) d).
    rewrite dict_get_update_absent by by apply dict_get_None.
    apply dict_get_set_eq.
  - intros H. by apply IH.
Qed.

Lemma dict_get_update b d k :
  NoDup d.*1 →
  dict_get k (dict_update b d)
  = match dict_get k d with Some v => Some v | None => dict_get k b end.
Proof.
  intros Hnd. destruct (dict_get k d) eqn:E.
  - by apply dict_get_update_present.
  - by apply dict_get_update_absent.
Qed.

(** A dictionary without repeated keys is rebuilt by updating the empty
    one with it. *)
Lemma dict_update_nil_app b d :
  NoDup (b ++ d).*1 → dict_update b d = b ++ d.
Proof.
  revert b. induction d as [|[k v] d IH]; intros b Hnd.
  - by rewrite app_nil_r.
  - unfold dict_update in *. simpl.
    assert (dict_set b k v = b ++ [(k, v)]) as ->.
    { rewrite fmap_app in Hnd. apply NoDup_app in Hnd as (_ & Hb & _).
      assert (k ∉ b.*1) as Hk by (intros Hin; apply (Hb k Hin); simpl; left).
      clear -Hk. induction b as [|[k0 v0] b IHb]; simpl; [done|].
      simpl in Hk. apply not_elem_of_cons in Hk as [Hne Hk].
      apply String.eqb_neq in Hne. rewrite String.eqb_sym in Hne.
      rewrite Hne. by rewrite IHb. }
    rewrite IH; rewrite <- app_assoc; done.
Qed.

Lemma dict_set_keys_NoDup d k v : NoDup d.*1 → NoDup (dict_set d k v).*1.
Proof.
  induction d as [|[k' v'] d IH]; simpl; intros Hnd.
  - apply NoDup_singleton.
  - apply NoDup_cons in Hnd as [Hk' Hnd].
    destruct (String.eqb k' k) eqn:E; simpl.
    + apply String.eqb_eq in E as ->. by apply NoDup_cons.
    + apply NoDup_cons. split; [|auto].
      apply String.eqb_neq in E.
      rewrite <- dict_get_None, dict_get_set_ne by done.
      by apply dict_get_None.
Qed.

Lemma dict_update_keys_NoDup b d : NoDup b.*1 → NoDup (dict_update b d).*1.
Proof.
  revert b. unfold dict_update.
  induction d as [|[k v] d IH]; intros b Hnd; simpl; [done|].
  apply IH. by apply dict_set_keys_NoDup.
Qed.

End dictionary_facts.

Lemma deepcopy_id v : deepcopy v = v.
Proof.
  induction v as [| | | |l IH|d IH] using value_ind; simpl; try done.
  - f_equal. induction IH as [|x l Hx _ IHl]; simpl; [done|]. by rewrite Hx, IHl.
  - f_equal. induction IH as [|[k x] d Hx _ IHd]; simpl; [done|].
    simpl in Hx. by rewrite Hx, IHd.
Qed.

(** ** [_filter_fields] and [_copy_fields] *)

Lemma pick_entry_ok entry pick_fields acc :
  (∀ name, name ∈ pick_fields → is_Some (dict_get name entry)) →
  ∃ new_entry, pick_entry entry pick_fields acc = Ok new_entry ∧
    ∀ k, dict_get k new_entry
         = if bool_decide (k ∈ pick_fields) then dict_get k entry else dict_get k acc.
Proof.
  revert acc. induction pick_fields as [|name rest IH]; intros acc Hall; simpl.
  - by exists acc.
  - destruct (Hall name) as [v Hv]; [left|].
    unfold dict_subscript. rewrite Hv. simpl.
    destruct (IH (dict_set acc name v)) as (e & He & Hget).
    { intros n Hn. apply Hall. by right. }
    exists e. split; [done|]. intros k. rewrite Hget.
    destruct (decide (k ∈ rest)) as [Hin|Hin].
    + rewrite !bool_decide_eq_true_2; [done | by right | done].
    + rewrite (bool_decide_eq_false_2 _ Hin). rewrite dict_get_set.
      destruct (String.eqb name k) eqn:E.
      * apply String.eqb_eq in E as ->. rewrite bool_decide_eq_true_2 by left. done.
      * apply String.eqb_neq in E. rewrite bool_decide_eq_false_2; [done|].
        rewrite not_elem_of_cons. split; congruence.
Qed.

Lemma pick_entry_keys_NoDup entry pick_fields acc new_entry :
  NoDup acc.*1 → pick_entry entry pick_fields acc = Ok new_entry → NoDup new_entry.*1.
Proof.
  revert acc. induction pick_fields as [|name rest IH]; intros acc Hnd; simpl.
  - by intros [= <-].
  - unfold dict_subscript. destruct (dict_get name entry); simpl; [|done].
    apply IH. by apply dict_set_keys_NoDup.
Qed.

Lemma pick_entry_missing entry pick_fields acc name :
  name ∈ pick_fields → dict_get name entry = None →
  pick_entry entry pick_fields acc = Raise KeyError.
Proof.
  revert acc. induction pick_fields as [|n rest IH]; intros acc Hin Hnone.
  - by apply elem_of_nil in Hin.
  - simpl. unfold dict_subscript. destruct (dict_get n entry) eqn:E; simpl; [|done].
    apply IH; [|done]. apply elem_of_cons in Hin as [->|]; [congruence | done].
Qed.

Lemma pick_entry_ok_or_raise entry pick_fields :
  (∃ e, pick_entry entry pick_fields [] = Ok e) ∨
  pick_entry entry pick_fields [] = Raise KeyError.
Proof.
  generalize (@nil (string * value)).
  induction pick_fields as [|n ns IHn]; intros acc; simpl; [eauto|].
  unfold dict_subscript. destruct (dict_get n entry); simpl; auto.
Qed.

Lemma copy_fields_get dict_item pick_fields k :
  dict_get k (_copy_fields dict_item pick_fields)
  = if bool_decide (k ∈ pick_fields) then dict_get k dict_item else None.
Proof.
  unfold _copy_fields.
  enough (∀ acc,
    dict_get k (fold_left (λ result name,
        match dict_get name dict_item with
        | Some v => dict_set result name (deepcopy v)
        | None => result
        end) pick_fields acc)
    = if bool_decide (k ∈ pick_fields)
      then match dict_get k dict_item with Some v => Some v | None => dict_get k acc end
      else dict_get k acc) as H.
  { rewrite H. simpl. by destruct (dict_get k dict_item), (bool_decide _). }
  induction pick_fields as [|name rest IH]; intros acc; simpl.
  - done.
  - rewrite IH. destruct (decide (k ∈ rest)) as [Hin|Hin].
    + rewrite !bool_decide_eq_true_2; [|by right|done].
      destruct (dict_get k dict_item) eqn:Ek; [done|].
      destruct (dict_get name dict_item) eqn:En; [|done].
      rewrite dict_get_set_ne; [done | congruence].
    + rewrite (bool_decide_eq_false_2 _ Hin).
      destruct (String.eqb name k) eqn:E.
      * apply String.eqb_eq in E as ->. rewrite bool_decide_eq_true_2 by left.
        destruct (dict_get k dict_item) eqn:Ek; [|done].
        by rewrite dict_get_set_eq, deepcopy_id.
      * apply String.eqb_neq in E.
        rewrite bool_decide_eq_false_2 by (rewrite not_elem_of_cons; split; congruence).
        destruct (dict_get name dict_item); [|done]. by rewrite dict_get_set_ne.
Qed.

(** C10: when every entry of [dict_list] has every name of [pick_fields],
    [_filter_fields] returns (its [KeyError] is out of reach) a list of the
    same length whose i-th entry holds exactly the picked names, each with
    the value the i-th input entry gives it.  An entry that lacks a picked
    name makes it raise [KeyError], where [_copy_fields] always returns and
    leaves the absent names out. *)
Theorem filter_fields_picks (dict_list : list dict) (pick_fields : list string) :
  ((∀ entry name, entry ∈ dict_list → name ∈ pick_fields →
      is_Some (dict_get name entry)) →
   ∃ result,
     _filter_fields dict_list pick_fields = Ok result ∧
     length result = length dict_list ∧
     ∀ i entry, dict_list !! i = Some entry →
       ∃ new_entry, result !! i = Some new_entry ∧
         NoDup new_entry.*1 ∧
         ∀ k, dict_get k new_entry
              = if bool_decide (k ∈ pick_fields) then dict_get k entry else None) ∧
  ((∃ entry name, entry ∈ dict_list ∧ name ∈ pick_fields ∧
      dict_get name entry = None) →
   _filter_fields dict_list pick_fields = Raise KeyError) ∧
  (∀ dict_item k,
     dict_get k (_copy_fields dict_item pick_fields)
     = if bool_decide (k ∈ pick_fields) then dict_get k dict_item else None).
Proof.
  split; [|split].
  - induction dict_list as [|entry rest IH]; intros Hall; simpl.
    + exists []. split; [done|]. split; [done|]. intros i e Hi. by destruct i.
    + destruct (pick_entry_ok entry pick_fields []) as (e & He & Hget).
      { intros n Hn. apply Hall; [left | done]. }
      destruct IH as (r & Hr & Hlen & Hith).
      { intros e' n He' Hn. apply Hall; [by right | done]. }
      rewrite He, Hr. simpl. exists (e :: r).
      split; [done|]. split; [simpl; by rewrite Hlen|].
      intros [|i] entry' Hi; simpl in *.
      * injection Hi as <-. exists e. split; [done|]. split.
        -- eapply pick_entry_keys_NoDup; [|exact He]. apply NoDup_nil_2.
        -- intros k. rewrite Hget. simpl. by destruct (bool_decide _).
      * by apply Hith.
  - intros (entry & name & Hentry & Hname & Hnone).
    induction dict_list as [|e rest IH]; [by apply elem_of_nil in Hentry|].
    simpl. apply elem_of_cons in Hentry as [<-|Hin].
    + by rewrite (pick_entry_missing entry pick_fields [] name).
    + destruct (pick_entry_ok_or_raise e pick_fields) as [[e' ->]| ->]; simpl; [|done].
      by rewrite IH.
  - intros. apply copy_fields_get.
Qed.

Lemma filter_fields_picks_witness :
  ∃ result,
    _filter_fields [[("key", VStr "c1"); ("name", VStr "Course"); ("dir", VStr "c1")]]
      ["key"; "name"] = Ok result ∧
    length result = 1.
Proof.
  destruct (filter_fields_picks
              [[("key", VStr "c1"); ("name", VStr "Course"); ("dir", VStr "c1")]]
              ["key"; "name"]) as [H _].
  destruct H as (result & Hr & Hlen & _).
  - intros entry name He Hn.
    apply list_elem_of_singleton in He as ->.
    apply elem_of_cons in Hn as [->|Hn]; [by eexists|].
    apply list_elem_of_singleton in Hn as ->. by eexists.
  - exists result. split; [exact Hr | exact Hlen].
Defined.

(** ** [_type_dict] *)

Lemma del_if_has {V} k (b : list (string * V)) :
  (if dict_has k b then dict_del k b else b) = dict_del k b.
Proof.
  unfold dict_has. destruct (dict_get k b) eqn:E; [done|].
  symmetry. by apply dict_del_absent.
Qed.

(** [_type_dict] in one step: the base is chosen, updated, and loses its
    ["type"] key. *)
Lemma type_dict_unfold dict_item dict_types :
  _type_dict dict_item dict_types
  = base ← match dict_get "type" dict_item with
           | Some t =>
               types ← as_dict dict_types;
               found ← dict_contains t types;
               if found : bool
               then tv ← dict_getitem t types; Ok tv
               else Ok (VDict [])
           | None => Ok (VDict [])
           end;
    updated ← py_update base dict_item;
    Ok (dict_del "type" updated).
Proof.
  unfold _type_dict.
  destruct (dict_get "type" dict_item) as [t|]; simpl.
  - destruct (as_dict dict_types) as [types| |]; simpl; try done.
    destruct (dict_contains t types) as [[]| |]; simpl; try done.
    + destruct (dict_getitem t types) as [tv| |]; simpl; try done.
      rewrite deepcopy_id. destruct (py_update tv dict_item); simpl; try done.
      by rewrite del_if_has.
    + by rewrite del_if_has.
  - by rewrite del_if_has.
Qed.

Lemma types_value_get s dict_types :
  dict_get s (prod_map id VDict <$> dict_types) = VDict <$> type_named (VStr s) dict_types.
Proof.
  simpl. induction dict_types as [|[k d] dts IH]; simpl; [done|].
  destruct (String.eqb k s); [done | exact IH].
Qed.

Lemma type_dict_found dict_item dict_types s td :
  dict_get "type" dict_item = Some (VStr s) →
  type_named (VStr s) dict_types = Some td →
  _type_dict dict_item (types_value dict_types)
  = Ok (dict_del "type" (dict_update td dict_item)).
Proof.
  intros Ht Htd. rewrite type_dict_unfold, Ht. unfold types_value. simpl.
  unfold dict_has, dict_subscript. rewrite types_value_get, Htd. done.
Qed.

Lemma type_dict_not_found dict_item dict_types t :
  dict_get "type" dict_item = Some t → hashable t = true →
  type_named t dict_types = None →
  _type_dict dict_item (types_value dict_types)
  = Ok (dict_del "type" (dict_update [] dict_item)).
Proof.
  intros Ht Hh Htd. rewrite type_dict_unfold, Ht. unfold types_value. simpl.
  destruct t; try done; simpl.
  unfold dict_has. rewrite types_value_get, Htd. done.
Qed.

Lemma type_dict_untyped dict_item dict_types :
  dict_get "type" dict_item = None →
  _type_dict dict_item dict_types = Ok (dict_del "type" (dict_update [] dict_item)).
Proof. intros Ht. by rewrite type_dict_unfold, Ht. Qed.

Lemma type_dict_unhashable dict_item dict_types t :
  dict_get "type" dict_item = Some t → hashable t = false →
  _type_dict dict_item (types_value dict_types) = Raise TypeError.
Proof.
  intros Ht Hh. rewrite type_dict_unfold, Ht. unfold types_value. simpl.
  by destruct t.
Qed.

Lemma type_dict_result_no_type dict_item dict_types result :
  _type_dict dict_item dict_types = Ok result → dict_get "type" result = None.
Proof.
  rewrite type_dict_unfold.
  destruct (match dict_get "type" dict_item with Some _ => _ | None => _ end)
    as [base| |]; simpl; try done.
  destruct (py_update base dict_item) as [u| |]; simpl; try done.
  intros [= <-]. apply dict_get_del_eq.
Qed.

Lemma get_del_update {V} k (td dict_item : list (string * V)) :
  NoDup dict_item.*1 →
  dict_get k (dict_del "type" (dict_update td dict_item))
  = if String.eqb k "type" then None
    else match dict_get k dict_item with
         | Some v => Some v
         | None => dict_get k td
         end.
Proof.
  intros Hnd. destruct (String.eqb k "type") eqn:E.
  - apply String.eqb_eq in E as ->. apply dict_get_del_eq.
  - apply String.eqb_neq in E. rewrite dict_get_del_ne by done.
    by apply dict_get_update.
Qed.

(** C1, amended: [_type_dict] performs type inheritance.  When [dict_item]
    has a ["type"] key whose value is a key of [dict_types], the result has
    no ["type"] key and maps every other key of the named type dictionary to
    that type's value unless [dict_item] also has that key, in which case
    [dict_item]'s value wins (and it has no further keys but those of
    [dict_item]).  When [dict_item] has no ["type"] key, or its type is a
    hashable value that is no key of [dict_types], the entries of the result
    are exactly those of [dict_item], less any ["type"] key. *)
Theorem type_dict_inheritance (dict_item : dict) (dict_types : list (string * dict)) :
  NoDup dict_item.*1 →
  (∀ t td,
     dict_get "type" dict_item = Some (VStr t) →
     type_named (VStr t) dict_types = Some td →
     ∃ result,
       _type_dict dict_item (types_value dict_types) = Ok result ∧
       dict_get "type" result = None ∧
       ∀ k, k ≠ "type" →
         dict_get k result
         = match dict_get k dict_item with
           | Some v => Some v
           | None => dict_get k td
           end) ∧
  (dict_get "type" dict_item = None ∨
   (∃ t, dict_get "type" dict_item = Some t ∧ hashable t = true ∧
         type_named t dict_types = None) →
   ∃ result,
     _type_dict dict_item (types_value dict_types) = Ok result ∧
     ∀ k, dict_get k result
          = if String.eqb k "type" then None else dict_get k dict_item).
Proof.
  intros Hnd. split.
  - intros t td Ht Htd. eexists. split; [by apply (type_dict_found _ _ t td)|].
    split; [apply dict_get_del_eq|].
    intros k Hk. rewrite get_del_update by done.
    by apply String.eqb_neq in Hk as ->.
  - intros H. exists (dict_del "type" (dict_update [] dict_item)). split.
    + destruct H as [Hnone|(t & Ht & Hh & Htd)].
      * by apply type_dict_untyped.
      * by eapply type_dict_not_found.
    + intros k. rewrite get_del_update by done.
      destruct (String.eqb k "type"); [done|]. by destruct (dict_get k dict_item).
Qed.

Lemma type_dict_inheritance_witness :
  ∃ result,
    _type_dict [("type", VStr "quiz"); ("max_points", VInt 5)]
      (types_value [("quiz", [("max_points", VInt 10); ("max_submissions", VInt 3)])])
    = Ok result ∧
    dict_get "max_points" result = Some (VInt 5) ∧
    dict_get "max_submissions" result = Some (VInt 3).
Proof.
  destruct (type_dict_inheritance
              [("type", VStr "quiz"); ("max_points", VInt 5)]
              [("quiz", [("max_points", VInt 10); ("max_submissions", VInt 3)])])
    as [H _].
  - compute_done.
  - destruct (H "quiz" [("max_points", VInt 10); ("max_submissions", VInt 3)])
      as (result & Hr & _ & Hget); [reflexivity | reflexivity |].
    exists result. split; [exact Hr|].
    split; [exact (Hget "max_points" ltac:(done)) | exact (Hget "max_submissions" ltac:(done))].
Defined.

(** C1 as worded fails where the type dictionary has a ["type"] key of its
    own: it is a key of the named type dictionary and [dict_item] has it,
    yet the result does not map it. *)
Lemma type_dict_drops_inherited_type :
  ¬ inherits_every_key
      [("type", VStr "quiz")]
      [("quiz", [("type", VStr "base"); ("max_points", VInt 10)])].
Proof.
  intros (result & Hr & Hall). simpl in Hall.
  specialize (Hall "type" (VStr "base") eq_refl).
  vm_compute in Hr. injection Hr as <-. discriminate Hall.
Qed.

(** ** The views that look an entry up *)

Section views.
Variable E : env.
Variable request : request.

(** C6: for a course and exercise key whose entries exist, [exercise]
    resolves the handler that the ["view_type"] string of the exercise
    entry names when the request is served and returns what the handler
    returns for [(request, course, exercise, post_url)]; when the path
    cannot be imported it raises [ConfigError]. *)
Theorem exercise_calls_configured_view
    (course_key exercise_key : string) (c e : dict) (view_type : string) :
  config_exercise_entry E (VStr course_key) (VStr exercise_key)
    (GET request "lang") = (Some c, Some e) →
  dict_get "view_type" e = Some (VStr view_type) →
  (∀ exview, import_by_path E (VStr view_type) = Ok exview →
     exercise E request course_key exercise_key
     = exview (exercise_lang (GET request "lang") c) request c e
         (GET request "post_url")) ∧
  (import_by_path E (VStr view_type) = Raise ImproperlyConfigured →
   exercise E request course_key exercise_key = Raise ConfigError).
Proof.
  intros Hentry Hvt. unfold exercise.
  rewrite Hentry. unfold dict_subscript. rewrite Hvt. simpl.
  split; [intros exview ->| intros ->]; done.
Qed.

(** An exercise entry without a ["view_type"] raises [KeyError]. *)
Lemma exercise_without_view_type (course_key exercise_key : string) (c e : dict) :
  config_exercise_entry E (VStr course_key) (VStr exercise_key)
    (GET request "lang") = (Some c, Some e) →
  dict_get "view_type" e = None →
  exercise E request course_key exercise_key = Raise KeyError.
Proof.
  intros Hentry Hvt. unfold exercise.
  rewrite Hentry. unfold dict_subscript. by rewrite Hvt.
Qed.

(** ** [test_result] *)

Variable now : string.
Variable fs : files.

(** C5, amended: a POST to [test_result], whatever its form holds, for
    which [SUBMISSION_PATH/test-result] can be opened for writing, writes
    that one file: its content is the dump of the posted fields with a
    ["time"] field set, it replaces what an earlier POST stored there, and
    the response is the JSON body [{"success": true}].  When the file
    cannot be opened, the POST raises the [OSError] of [open], returns no
    response and writes nothing.  No other file is written in either
    case. *)
Theorem test_result_post_writes_one_file :
  method request = "POST" →
  let file_path := os_path_join (SUBMISSION_PATH E) "test-result" in
  let vals := dict_set (POST request) "time" (VStr now) in
  (writable fs file_path = true →
   (test_result E now request fs).1 = Ok (JsonResponse [("success", VBool true)]) ∧
   (test_result E now request fs).2 !! file_path = Some (json_dumps E vals)) ∧
  (writable fs file_path = false →
   (test_result E now request fs).1 = Raise OSError ∧
   (test_result E now request fs).2 = fs) ∧
  (∀ path, path ≠ file_path → (test_result E now request fs).2 !! path = fs !! path) ∧
  writable (test_result E now request fs).2 = writable fs ∧
  dict_get "time" vals = Some (VStr now) ∧
  (∀ k, k ≠ "time" → dict_get k vals = dict_get k (POST request)) ∧
  (∀ earlier_now earlier_request,
     method earlier_request = "POST" →
     (test_result E now request (test_result E earlier_now earlier_request fs).2).2
     = (test_result E now request fs).2).
Proof.
  intros Hpost file_path vals. unfold test_result.
  rewrite Hpost. simpl. fold file_path. fold vals.
  split; [|split; [|split; [|split; [|split; [|split]]]]].
  - intros ->. simpl. split; [done|]. apply lookup_insert_eq.
  - by intros ->.
  - intros path Hne. destruct (writable fs file_path); simpl; [|done].
    by apply lookup_insert_ne.
  - by destruct (writable fs file_path).
  - apply dict_get_set_eq.
  - intros k Hk. by apply dict_get_set_ne.
  - intros earlier_now earlier_request ->. simpl. fold file_path.
    destruct (writable fs file_path) eqn:Hw; simpl; rewrite Hw; simpl; [|done].
    unfold write_file. simpl. f_equal. apply insert_insert_eq.
Qed.

(** C9: a GET to [test_result] answers the content of
    [SUBMISSION_PATH/test-result] when the file exists and is not empty,
    and the text [No test result received yet.] when it does not exist or
    is empty; it writes nothing. *)
Theorem test_result_get_reads_file :
  method request = "GET" →
  let file_path := os_path_join (SUBMISSION_PATH E) "test-result" in
  (∀ content, fs !! file_path = Some content → content ≠ "" →
     (test_result E now request fs).1 = Ok (HttpResponse (VStr content))) ∧
  (fs !! file_path = None ∨ fs !! file_path = Some "" →
     (test_result E now request fs).1 = Ok (HttpResponse (VStr no_test_result))) ∧
  (test_result E now request fs).2 = fs.
Proof.
  intros Hget file_path. unfold test_result. rewrite Hget. simpl. fold file_path.
  repeat split.
  - intros content -> Hne. apply String.eqb_neq in Hne. by rewrite Hne.
  - intros [-> | ->]; done.
Qed.

End views.

(** ** The build hook *)

Lemma bind_keywords_extra unbound bound kwargs keywords :
  (∀ k, k ∈ keywords.*1 → (k ∉ unbound) ∧ dict_get k bound = None) →
  ∃ kwargs', bind_keywords unbound bound kwargs keywords = Ok (bound, unbound, kwargs').
Proof.
  revert kwargs. induction keywords as [|[k v] keywords IH]; intros kwargs Hextra.
  - by eexists.
  - simpl. destruct (Hextra k) as [Hk Hb]; [left|].
    unfold dict_has. rewrite Hb. rewrite bool_decide_eq_false_2 by done.
    apply IH. intros k' Hk'. apply Hextra. by right.
Qed.

Lemma bind_positional_spec parameters args :
  bind_positional parameters args
  = if decide (length args ≤ length parameters)
    then Ok (zip (take (length args) parameters) args,
             drop (length args) parameters)
    else Raise TypeError.
Proof.
  revert parameters. induction args as [|a args IH]; intros parameters.
  - case_decide as Hn; [by destruct parameters | simpl in Hn; lia].
  - destruct parameters as [|p parameters]; simpl.
    + done.
    + rewrite IH. repeat case_decide; simpl in *; try lia; done.
Qed.

Lemma bind_keywords_keeps unbound bound kwargs keywords bound' unbound' kwargs' :
  bind_keywords unbound bound kwargs keywords = Ok (bound', unbound', kwargs') →
  ∀ p, p ∈ unbound ∨ is_Some (dict_get p bound) →
       p ∈ unbound' ∨ is_Some (dict_get p bound').
Proof.
  revert unbound bound kwargs.
  induction keywords as [|[k v] keywords IH]; intros unbound bound kwargs; simpl.
  - by intros [= <- <- <-].
  - destruct (dict_has k bound); [done|]. case_bool_decide as Hk.
    + intros Hbind p Hp. apply (IH _ _ _ Hbind).
      destruct (decide (p = k)) as [->|Hne].
      * right. rewrite dict_get_set_eq. by eexists.
      * destruct Hp as [Hp|Hp].
        -- left. apply list_elem_of_In, filter_In. split; [by apply list_elem_of_In|].
           apply negb_true_iff, String.eqb_neq. done.
        -- right. by rewrite dict_get_set_ne.
    + intros Hbind p Hp. by apply (IH _ _ _ Hbind).
Qed.

(** Keyword arguments that name no parameter bound by position, each name
    once, bind: what is left unbound is named by none of them. *)
Lemma bind_keywords_binds unbound bound kwargs keywords :
  NoDup keywords.*1 →
  (∀ k, k ∈ keywords.*1 → dict_get k bound = None) →
  ∃ bound' unbound' kwargs',
    bind_keywords unbound bound kwargs keywords = Ok (bound', unbound', kwargs') ∧
    ∀ p, p ∈ unbound' → p ∈ unbound ∧ p ∉ keywords.*1.
Proof.
  revert unbound bound kwargs.
  induction keywords as [|[k v] keywords IH]; intros unbound bound kwargs Hnd Hfree.
  - exists bound, unbound, kwargs. split; [done|]. intros p Hp.
    split; [done | apply not_elem_of_nil].
  - simpl in *. apply NoDup_cons in Hnd as [Hk Hnd].
    unfold dict_has. rewrite (Hfree k) by left. case_bool_decide as Hin.
    + destruct (IH (List.filter (λ p, negb (String.eqb p k)) unbound)
                  (dict_set bound k v) kwargs Hnd)
        as (bound' & unbound' & kwargs' & -> & Hleft).
      { intros k' Hk'. rewrite dict_get_set_ne by (intros ->; done).
        apply Hfree. by right. }
      exists bound', unbound', kwargs'. split; [done|]. intros p Hp.
      destruct (Hleft p Hp) as [Hfiltered Hnot].
      apply list_elem_of_In, filter_In in Hfiltered as [Hp' Hne].
      apply negb_true_iff, String.eqb_neq in Hne.
      split; [by apply list_elem_of_In|]. rewrite not_elem_of_cons. done.
    + destruct (IH unbound bound (dict_set kwargs k v) Hnd)
        as (bound' & unbound' & kwargs' & -> & Hleft).
      { intros k' Hk'. apply Hfree. by right. }
      exists bound', unbound', kwargs'. split; [done|]. intros p Hp.
      destruct (Hleft p Hp) as [Hp' Hnot]. split; [done|].
      rewrite not_elem_of_cons. split; [|done]. by intros ->.
Qed.

(** With every parameter bound, the body of [build] runs. *)
Lemma build_body_runs (bound kwargs : dict) :
  (∀ p, p ∈ build_parameters → is_Some (dict_get p bound)) →
  (logger ← dict_subscript "logger" bound;
   course_key ← dict_subscript "course_key" bound;
   path ← dict_subscript "path" bound;
   image ← dict_subscript "image" bound;
   env ← dict_subscript "env" bound;
   settings ← dict_subscript "settings" bound;
   Ok (build logger course_key path image env settings kwargs))
  = Ok VNone.
Proof.
  intros Hall. unfold dict_subscript.
  destruct (Hall "logger") as [? ->]; [compute_done|].
  destruct (Hall "course_key") as [? ->]; [compute_done|].
  destruct (Hall "path") as [? ->]; [compute_done|].
  destruct (Hall "image") as [? ->]; [compute_done|].
  destruct (Hall "env") as [? ->]; [compute_done|].
  destruct (Hall "settings") as [? ->]; [compute_done|].
  done.
Qed.

(** The signature of [build]: the six arguments bind by position or by
    name, with any further keyword arguments, and any other number of
    positional arguments raises [TypeError]; the annotations name the six
    parameters in order and [bool] as what is returned. *)
Lemma build_binds_six_arguments
    (logger course_key path image env settings : value) (keywords : dict) :
  (∀ k, k ∈ keywords.*1 → k ∉ build_parameters) →
  call_build [logger; course_key; path; image; env; settings] keywords = Ok VNone ∧
  call_build []
    ([("logger", logger); ("course_key", course_key); ("path", path);
      ("image", image); ("env", env); ("settings", settings)] ++ keywords)
  = Ok VNone ∧
  (∀ args, length args ≠ 6 → call_build args keywords = Raise TypeError) ∧
  build_parameters = (take 6 build_annotations).*1 ∧
  dict_get "return" build_annotations = Some "bool".
Proof.
  intros Hextra. split; [|split; [|split; [|done]]].
  - unfold call_build. simpl.
    destruct (bind_keywords_extra []
                [("logger", logger); ("course_key", course_key); ("path", path);
                 ("image", image); ("env", env); ("settings", settings)]
                [] keywords) as [kwargs ->]; [|done].
    intros k Hk. split; [apply not_elem_of_nil|].
    apply dict_get_None. simpl. by apply Hextra.
  - unfold call_build. simpl.
    destruct (bind_keywords_extra []
                [("logger", logger); ("course_key", course_key); ("path", path);
                 ("image", image); ("env", env); ("settings", settings)]
                [] keywords) as [kwargs ->]; [|done].
    intros k Hk. split; [apply not_elem_of_nil|].
    apply dict_get_None. simpl. by apply Hextra.
  - intros args Hlen. unfold call_build.
    rewrite bind_positional_spec.
    destruct (decide (length args ≤ length build_parameters)) as [Hle|]; [|done].
    cbn -[bind_keywords build_parameters zip take drop].
    destruct (bind_keywords_extra (drop (length args) build_parameters)
                (zip (take (length args) build_parameters) args) [] keywords)
      as [kwargs ->].
    + intros k Hk. apply Hextra in Hk. split.
      * intros Hin. apply Hk. by eapply subseteq_drop.
      * apply dict_get_None. rewrite fst_zip by (rewrite length_take; lia).
        intros Hin. apply Hk. by eapply subseteq_take.
    + cbn -[build_parameters drop].
      destruct (drop (length args) build_parameters) eqn:Hdrop; [|done].
      apply (f_equal length) in Hdrop. rewrite length_drop in Hdrop.
      simpl in *. lia.
Qed.

(** C7: [build] is documented and annotated to return a boolean that says
    whether the build succeeded, and the template does not: its body is the
    docstring alone.  A call that supplies each of the six parameters once,
    by position or by name, with any further keyword arguments, binds and
    returns [None]; and whatever call returns, returns [None], which is no
    boolean. *)
Theorem build_template_returns_none (args : list value) (keywords : dict) :
  (length args ≤ length build_parameters →
   NoDup keywords.*1 →
   (∀ p, p ∈ take (length args) build_parameters → p ∉ keywords.*1) →
   (∀ p, p ∈ drop (length args) build_parameters → p ∈ keywords.*1) →
   call_build args keywords = Ok VNone) ∧
  (∀ result,
     call_build args keywords = Ok result →
     result = VNone ∧ ¬ is_boolean result) ∧
  dict_get "return" build_annotations = Some "bool".
Proof.
  split; [|split; [|done]].
  - intros Hlen Hnd Hpositional Hnamed. unfold call_build.
    rewrite bind_positional_spec. rewrite decide_True by done.
    cbn -[bind_keywords build_parameters zip take drop].
    assert (∀ p, p ∈ take (length args) build_parameters →
                 is_Some (dict_get p (zip (take (length args) build_parameters) args)))
      as Hbound.
    { intros p Hp.
      destruct (dict_get p (zip (take (length args) build_parameters) args)) eqn:E;
        [by eexists|].
      apply dict_get_None in E. rewrite fst_zip in E by (rewrite length_take; lia).
      done. }
    destruct (bind_keywords_binds (drop (length args) build_parameters)
                (zip (take (length args) build_parameters) args) [] keywords Hnd)
      as (bound & unbound & kwargs & Hbind & Hleft).
    { intros k Hk. apply dict_get_None.
      rewrite fst_zip by (rewrite length_take; lia).
      intros Hin. by apply (Hpositional k). }
    rewrite Hbind. cbn -[build_parameters].
    destruct unbound as [|p unbound].
    + apply build_body_runs. intros p Hp.
      destruct (bind_keywords_keeps _ _ _ _ _ _ _ Hbind p) as [Hin|Hsome];
        [|by apply elem_of_nil in Hin|done].
      rewrite <- (take_drop (length args) build_parameters) in Hp.
      apply elem_of_app in Hp as [Hp|Hp]; [right; by apply Hbound | by left].
    + destruct (Hleft p) as [Hp Hnot]; [left|]. by apply Hnamed in Hp.
  - intros result. unfold call_build.
    destruct (bind_positional build_parameters args) as [[bound unbound]| |];
      [|done..].
    simpl.
    destruct (bind_keywords unbound bound [] keywords)
      as [[[bound' unbound'] kwargs]| |]; [|done..].
    simpl. destruct unbound'; [|done].
    destruct (dict_subscript "logger" bound'); [|done..]. simpl.
    destruct (dict_subscript "course_key" bound'); [|done..]. simpl.
    destruct (dict_subscript "path" bound'); [|done..]. simpl.
    destruct (dict_subscript "image" bound'); [|done..]. simpl.
    destruct (dict_subscript "env" bound'); [|done..]. simpl.
    destruct (dict_subscript "settings" bound'); [|done..]. simpl.
    intros [= <-]. split; [done|]. intros [b Hb]. discriminate Hb.
Qed.

(** The call [build(logger, "course", path, image, env, None)] of a build
    module made from the template, and the same call with the last four
    arguments given by name and a further keyword argument. *)
Lemma build_template_returns_none_witness :
  (call_build
     [VStr "gitmanager.build"; VStr "course"; VStr "/srv/courses/course";
      VStr "apluslms/compile-rst"; VDict [("COURSE_KEY", VStr "course")]; VNone]
     []
   = Ok VNone ∧ ¬ is_boolean VNone) ∧
  call_build
    [VStr "gitmanager.build"; VStr "course"]
    [("settings", VNone); ("path", VStr "/srv/courses/course");
     ("image", VStr "apluslms/compile-rst"); ("timeout", VInt 60);
     ("env", VDict [("COURSE_KEY", VStr "course")])]
  = Ok VNone.
Proof.
  split.
  - destruct (build_template_returns_none
                [VStr "gitmanager.build"; VStr "course"; VStr "/srv/courses/course";
                 VStr "apluslms/compile-rst"; VDict [("COURSE_KEY", VStr "course")];
                 VNone]
                []) as (_ & H & _).
    destruct (H VNone eq_refl) as (_ & Hnone). split; [reflexivity | exact Hnone].
  - destruct (build_template_returns_none
                [VStr "gitmanager.build"; VStr "course"]
                [("settings", VNone); ("path", VStr "/srv/courses/course");
                 ("image", VStr "apluslms/compile-rst"); ("timeout", VInt 60);
                 ("env", VDict [("COURSE_KEY", VStr "course")])])
      as (H & _).
    apply H; [simpl; lia | compute_done | |].
    + intros p Hp. simpl in Hp. set_solver.
    + intros p Hp. simpl in Hp. set_solver.
Defined.

(** ** The JSON feed *)

Lemma dict_find_get {R} k (found : value → R) absent d :
  dict_find k found absent d
  = match dict_get k d with Some v => found v | None => absent end.
Proof.
  induction d as [|[k' v] d IH]; simpl; [done|].
  by destruct (String.eqb k' k).
Qed.

Lemma for_each_if_filter {A B} (p : A → bool) (f : A → outcome B) l :
  for_each_if p f l = for_each f (List.filter p l).
Proof.
  induction l as [|x l IH]; simpl; [done|].
  destruct (p x); simpl; by rewrite IH.
Qed.

Lemma for_each_Ok {A B} (f : A → outcome B) l r :
  for_each f l = Ok r ↔ Forall2 (λ x y, f x = Ok y) l r.
Proof.
  revert r. induction l as [|x l IH]; intros r; simpl.
  - split; [intros [= <-]; constructor | by inversion 1].
  - destruct (f x) as [y| |] eqn:Ex; simpl.
    + destruct (for_each f l) as [ys| |] eqn:El; simpl.
      * split.
        -- intros [= <-]. constructor; [done | by apply IH].
        -- inversion 1 as [|? y' ? ys' Hy Hys]; subst.
           apply IH in Hys. congruence.
      * split; [done|]. inversion 1 as [|? y' ? ys' Hy Hys]; subst.
        apply IH in Hys. done.
      * split; [done|]. inversion 1 as [|? y' ? ys' Hy Hys]; subst.
        apply IH in Hys. done.
    + split; [done|]. inversion 1; congruence.
    + split; [done|]. inversion 1; congruence.
Qed.

Lemma for_each_returns {A B} (f : A → outcome B) l :
  (∀ x, x ∈ l → ∃ y, f x = Ok y) → ∃ r, for_each f l = Ok r.
Proof.
  induction l as [|x l IH]; intros Hall; simpl; [eauto|].
  destruct (Hall x) as [y ->]; [left|]. simpl.
  destruct IH as [r ->]; [|simpl; eauto].
  intros x' Hx'. apply Hall. by right.
Qed.

(** [children_recursion] as the source writes it: no children for a parent
    without ["children"], otherwise the loop over the children that have a
    ["key"]. *)
Lemma children_recursion_unfold E request course d :
  children_recursion E request course (VDict d)
  = match dict_get "children" d with
    | None => Ok []
    | Some (VList l) =>
        if forallb is_dict l then
          for_each
            (λ o, match o with
                  | VDict od =>
                      child_entry E request course od
                        (children_recursion E request course o)
                  | _ => IllTyped
                  end)
            (List.filter has_key l)
        else IllTyped
    | Some _ => IllTyped
    end.
Proof.
  simpl. rewrite dict_find_get.
  destruct (dict_get "children" d) as [[]|]; try done.
  by rewrite for_each_if_filter.
Qed.

(** Induction along the ["children"] of dictionaries. *)
Lemma children_ind (P : dict → Prop) :
  (∀ d, (∀ l o, dict_get "children" d = Some (VList l) → VDict o ∈ l → P o) → P d) →
  ∀ d, P d.
Proof.
  intros Hstep.
  enough (∀ v, match v with
               | VDict d => P d
               | VList l => ∀ o, VDict o ∈ l → P o
               | _ => True
               end) as H by (intros d; apply (H (VDict d))).
  induction v as [| | | |l IH|d IH] using value_ind; try done.
  - intros o Ho. rewrite Forall_forall in IH. exact (IH _ Ho).
  - apply Hstep. intros l o Hget Ho.
    apply dict_get_Some_elem in Hget.
    rewrite Forall_forall in IH. exact (IH _ Hget o Ho).
Qed.

Lemma exercise_fields_keys E request course o fields :
  exercise_fields E request course o = Ok fields →
  NoDup fields.*1 ∧ dict_get "type" fields = None.
Proof.
  unfold exercise_fields, dict_subscript.
  destruct (dict_has "config" o).
  - destruct (dict_get "key" course); simpl; [|done].
    destruct (dict_get "key" o); simpl; [|done].
    destruct (config_exercise_entry _ _ _ _).2 as [exercise|]; [|done].
    destruct (dict_get "key" exercise); simpl; [|done].
    intros [= <-]. split; [compute_done | done].
  - destruct (dict_has "static_content" o).
    + destruct (dict_get "key" course); simpl; [|done].
      destruct (dict_get "static_content" o); simpl; [|done].
      intros [= <-]. split; [compute_done | done].
    + intros [= <-]. split; [apply NoDup_nil_2 | done].
Qed.

Lemma type_dict_keeps k v dict_item dict_types result :
  NoDup dict_item.*1 → k ≠ "type" → dict_get k dict_item = Some v →
  _type_dict dict_item dict_types = Ok result →
  dict_get k result = Some v.
Proof.
  intros Hnd Hk Hv. rewrite type_dict_unfold.
  destruct (match dict_get "type" dict_item with Some _ => _ | None => _ end)
    as [[]| |]; simpl; try done.
  intros [= <-]. rewrite dict_get_del_ne by done.
  by apply dict_get_update_present.
Qed.

Lemma type_dict_returns dict_item types :
  type_ok types dict_item → ∃ result, _type_dict dict_item types = Ok result.
Proof.
  unfold type_ok. rewrite type_dict_unfold.
  destruct (dict_get "type" dict_item) as [t|]; simpl; [|eauto].
  intros (Hh & dts & -> & Hdict). simpl.
  destruct t; try done; simpl; eauto.
  simpl in Hdict. unfold dict_has, dict_subscript in *.
  destruct (dict_get s dts) as [tv|]; simpl; [|eauto].
  specialize (Hdict tv eq_refl). destruct tv; try done. simpl. eauto.
Qed.

Lemma child_entry_Ok E request course o rec y :
  child_entry E request course o rec = Ok y ↔
  ∃ fields children typed,
    exercise_fields E request course o = Ok fields ∧
    rec = Ok children ∧
    _type_dict (dict_set (dict_update fields o) "children" (VList children))
      (exercise_types course) = Ok typed ∧
    y = VDict typed.
Proof.
  unfold child_entry. split.
  - destruct (exercise_fields E request course o) as [fields| |]; simpl; try done.
    destruct rec as [children| |]; simpl; try done.
    destruct (_type_dict _ _) as [typed| |] eqn:Et; simpl; try done.
    intros [= <-]. by exists fields, children, typed.
  - intros (fields & children & typed & -> & -> & Ht & ->). simpl.
    by rewrite Ht.
Qed.

(** A child with ["config"] for which the configuration has no exercise
    entry makes the feed raise [AttributeError]. *)
Lemma exercise_fields_without_entry E request course o course_key o_key :
  dict_has "config" o = true →
  dict_get "key" course = Some course_key →
  dict_get "key" o = Some o_key →
  (config_exercise_entry E course_key o_key None).2 = None →
  exercise_fields E request course o = Raise AttributeError.
Proof.
  intros Hconfig Hck Hok Hentry. unfold exercise_fields, dict_subscript.
  by rewrite Hconfig, Hck, Hok; simpl; rewrite Hentry.
Qed.

Section feed.
Variable E : env.
Variable request : request.
Variable course : dict.

(** Whatever [children_recursion] returns is the children list of the
    relation, and none of its entries, at any depth, has a ["type"]. *)
Lemma children_recursion_built d children :
  children_recursion E request course (VDict d) = Ok children →
  built_children E request course (VDict d) children ∧
  Forall no_type_field children.
Proof.
  revert children. induction d as [d IH] using children_ind. intros children.
  rewrite children_recursion_unfold.
  destruct (dict_get "children" d) as [[| | | |l|]|] eqn:Hd; try done.
  - destruct (forallb is_dict l); [|done].
    rewrite for_each_Ok. intros Hall.
    assert (∀ o, o ∈ List.filter has_key l → o ∈ l) as Hsub.
    { intros o. rewrite !list_elem_of_In, filter_In. tauto. }
    enough (Forall2 (built_child E request course) (List.filter has_key l) children ∧
            Forall no_type_field children) as [H1 H2].
    { split; [by eapply built_from_children | done]. }
    induction Hall as [|o y os ys Hy _ IHall]; [by split; constructor|].
    destruct IHall as [H1 H2]; [intros o' Ho'; apply Hsub; by right|].
    destruct o as [| | | | |od]; try done.
    apply child_entry_Ok in Hy as (fields & ocs & typed & Hf & Hrec & Ht & ->).
    destruct (IH l od eq_refl (Hsub _ ltac:(left)) _ Hrec) as [Hb Hn].
    split; constructor; try done.
    + by eapply built_child_entry.
    + apply exercise_fields_keys in Hf as [Hnd _].
      eapply (no_type_field_entry _ ocs); [by eapply type_dict_result_no_type| |done].
      eapply type_dict_keeps; [| |apply dict_get_set_eq|exact Ht]; [|done].
      by apply dict_set_keys_NoDup, dict_update_keys_NoDup.
  - intros [= <-]. split; [by apply built_no_children | constructor].
Qed.

Lemma children_recursion_returns d :
  children_ok E course (VDict d) →
  ∃ children, children_recursion E request course (VDict d) = Ok children.
Proof.
  induction d as [d IH] using children_ind. intros Hok.
  inversion Hok as [d' Hlist Hchild]; subst.
  rewrite children_recursion_unfold.
  destruct (dict_get "children" d) as [v|] eqn:Hd; [|eauto].
  destruct (Hlist v eq_refl) as (l & -> & Hdicts). rewrite Hdicts.
  apply for_each_returns. intros o Ho.
  apply list_elem_of_In, filter_In in Ho as [Ho Hkey].
  apply list_elem_of_In in Ho.
  destruct o as [| | | | |od]; try done. simpl in Hkey.
  destruct (Hchild l od eq_refl Ho Hkey) as (Hnd & Hf & Ht & Hc).
  destruct (IH l od eq_refl Ho Hc) as [ocs Hocs].
  assert (∃ fields, exercise_fields E request course od = Ok fields) as [fields Hfields].
  { destruct Hf as [Hconfig Hstatic].
    unfold exercise_fields, dict_subscript.
    destruct (dict_has "config" od).
    - destruct Hconfig as (ck & -> & Hex); [done|]. simpl.
      apply dict_has_get in Hkey as [ok Hok']. rewrite Hok'. simpl.
      destruct (Hex ok Hok') as (ex & -> & [ek ->]). simpl. eauto.
    - destruct (dict_has "static_content" od) eqn:Hs; [|eauto].
      destruct Hstatic as [ck ->]; [done..|]. simpl.
      apply dict_has_get in Hs as [sc ->]. simpl. eauto. }
  destruct (type_dict_returns
              (dict_set (dict_update fields od) "children" (VList ocs))
              (exercise_types course)) as [typed Htyped].
  { unfold type_ok in *.
    rewrite dict_get_set_ne by done.
    rewrite dict_get_update by done.
    apply exercise_fields_keys in Hfields as [_ ->].
    by destruct (dict_get "type" od). }
  exists (VDict typed). apply child_entry_Ok. by exists fields, ocs, typed.
Qed.

Lemma module_entry_Ok m mf :
  module_entry E request course m = Ok mf →
  built_module E request course m mf ∧ no_type_field mf.
Proof.
  unfold module_entry. destruct m as [| | | | |md]; try done.
  cbn -[children_recursion _type_dict].
  destruct (_type_dict md (module_types course)) as [typed| |] eqn:Ht; try done.
  cbn -[children_recursion _type_dict].
  destruct (children_recursion E request course (VDict md)) as [children| |] eqn:Hc;
    try done.
  intros [= <-]. apply children_recursion_built in Hc as [Hb Hn]. split.
  - by exists md, typed, children.
  - eapply (no_type_field_entry _ children); [| apply dict_get_set_eq | done].
    rewrite dict_get_set_ne by done. by eapply type_dict_result_no_type.
Qed.

Lemma module_entry_returns m :
  (∃ md, m = VDict md ∧ type_ok (module_types course) md ∧ children_ok E course m) →
  ∃ mf, module_entry E request course m = Ok mf.
Proof.
  intros (md & -> & Ht & Hc). unfold module_entry.
  cbn -[children_recursion _type_dict].
  destruct (type_dict_returns _ _ Ht) as [typed ->].
  cbn -[children_recursion _type_dict].
  destruct (children_recursion_returns _ Hc) as [children ->]. simpl. eauto.
Qed.

End feed.

(** C3, amended: for every request and every course key whose course entry
    exists, [aplus_json] validates nothing of the entry and either raises
    or returns a JSON response; a response holds the picked fields of the
    course and a ["modules"] list with one element for every element of the
    ["modules"] of the course, in the same order, each the type inheritance
    of the module with the module types of the course, carrying the
    ["children"] list built by recursion over the children of the module
    with the exercise types; without a ["modules"] field the list is empty.
    It returns a response at least for every well-formed course entry. *)
Theorem aplus_json_feed (E : env) (request : request) (course_key : string)
    (course : dict) :
  config_course_entry E course_key = Some course →
  (∀ answer,
     aplus_json E request course_key = Ok answer →
     ∃ data modules,
       answer = JsonResponse data ∧
       dict_get "modules" data = Some (VList modules) ∧
       (∀ k, k ≠ "modules" →
          dict_get k data
          = if bool_decide (k ∈ course_fields) then dict_get k course else None) ∧
       match dict_get "modules" course with
       | None => modules = []
       | Some ms =>
           ∃ l, ms = VList l ∧ Forall2 (built_module E request course) l modules
       end) ∧
  (course_ok E course →
   ∃ data, aplus_json E request course_key = Ok (JsonResponse data)).
Proof.
  intros Hentry. unfold aplus_json. rewrite Hentry.
  unfold dict_has, dict_subscript.
  destruct (dict_get "modules" course) as [ms|] eqn:Hms.
  - split.
    + destruct ms as [| | | |l|]; try done.
      cbn -[for_each module_entry _copy_fields course_fields].
      destruct (for_each (module_entry E request course) l) as [modules| |] eqn:Hmods;
        [|done..].
      cbn -[_copy_fields course_fields]. intros answer [= <-].
      eexists _, modules. split; [done|]. split; [apply dict_get_set_eq|].
      split.
      * intros k Hk. rewrite dict_get_set_ne by done. apply copy_fields_get.
      * exists l. split; [done|]. apply for_each_Ok in Hmods.
        eapply Forall2_impl; [exact Hmods|]. intros m mf Hm.
        by apply module_entry_Ok in Hm as [? _].
    + intros Hok. destruct (Hok ms Hms) as (l & -> & Hmod).
      destruct (for_each_returns (module_entry E request course) l) as [modules Hmods].
      { intros m Hm. apply module_entry_returns. by apply Hmod. }
      cbn -[for_each module_entry _copy_fields course_fields].
      rewrite Hmods. cbn -[_copy_fields course_fields]. by eexists.
  - cbn -[_copy_fields course_fields]. split.
    + intros answer [= <-].
      eexists _, []. split; [done|]. split; [apply dict_get_set_eq|].
      split; [|done].
      intros k Hk. rewrite dict_get_set_ne by done. apply copy_fields_get.
    + intros _. by eexists.
Qed.

Lemma example_course_ok : course_ok example_env example_course.
Proof.
  intros ms [= <-]. eexists. split; [done|].
  intros m ->%list_elem_of_singleton.
  eexists. split; [done|]. split.
  - split; [done|]. eexists. split; [done|]. by intros tv [=].
  - constructor.
    + intros v [= <-]. by eexists.
    + intros l o [= <-] Ho Hkey.
      apply elem_of_cons in Ho as [[= ->]|Ho].
      * split; [compute_done|]. split; [|split].
        -- split; [|done]. intros _. eexists. split; [done|].
           intros o_key [= <-]. eexists. split; [done|]. by eexists.
        -- split; [done|]. eexists. split; [done|].
           intros tv [= <-]. done.
        -- constructor; [by intros v [=] | by intros l o [=]].
      * apply list_elem_of_singleton in Ho as [= ->]. done.
Defined.

Lemma aplus_json_feed_witness :
  ∃ data modules,
    aplus_json example_env (example_request "GET") "c1" = Ok (JsonResponse data) ∧
    dict_get "modules" data = Some (VList modules) ∧
    length modules = 1.
Proof.
  destruct (aplus_json_feed example_env (example_request "GET") "c1" example_course
              eq_refl) as [Hfeed Hreturns].
  destruct (Hreturns example_course_ok) as [data Hr].
  destruct (Hfeed _ Hr) as (data' & modules & [= <-] & Hm & _ & l & Hl & Hall).
  exists data, modules. split; [exact Hr|]. split; [exact Hm|].
  injection Hl as <-. apply Forall2_length in Hall. by rewrite <- Hall.
Defined.

(** C3 as worded fails on a course entry that exists but is not well
    formed: a module whose type is a list makes [aplus_json] raise. *)
Lemma aplus_json_raises_on_list_type :
  config_course_entry example_env "c2" = Some list_typed_course ∧
  aplus_json example_env (example_request "GET") "c2" = Raise TypeError.
Proof. split; reflexivity. Qed.

(** C8: whatever [_type_dict] returns has no ["type"] key, and it returns
    for every dictionary whose type, if it has one, is hashable, whether or
    not the type names an entry of [dict_types] and whether or not that
    entry has a ["type"] key of its own; hence no entry of the ["modules"]
    of the JSON feed, nor of their ["children"] at any depth, has a
    ["type"] field. *)
Theorem no_type_key_in_results :
  (∀ dict_item dict_types result,
     _type_dict dict_item dict_types = Ok result →
     dict_get "type" result = None) ∧
  (∀ dict_item dict_types,
     (∀ t, dict_get "type" dict_item = Some t → hashable t = true) →
     ∃ result, _type_dict dict_item (types_value dict_types) = Ok result) ∧
  (∀ E request course_key data,
     aplus_json E request course_key = Ok (JsonResponse data) →
     ∃ modules,
       dict_get "modules" data = Some (VList modules) ∧
       Forall no_type_field modules).
Proof.
  split; [|split].
  - apply type_dict_result_no_type.
  - intros dict_item dict_types Hh. apply type_dict_returns. unfold type_ok.
    destruct (dict_get "type" dict_item) as [t|]; [|done].
    split; [by apply Hh|]. eexists. split; [done|].
    intros tv. destruct t; try done. simpl. unfold dict_subscript.
    rewrite types_value_get. by destruct (type_named _ _); simpl; intros [= <-].
  - intros E request course_key data. unfold aplus_json.
    destruct (config_course_entry E course_key) as [course|]; [|done].
    unfold dict_has, dict_subscript.
    destruct (dict_get "modules" course) as [ms|].
    + destruct ms as [| | | |l|]; try done.
      cbn -[for_each module_entry _copy_fields course_fields].
      destruct (for_each (module_entry E request course) l) as [modules| |] eqn:Hm;
        try done.
      cbn -[_copy_fields course_fields]. intros [= <-].
      exists modules. split; [apply dict_get_set_eq|].
      apply for_each_Ok in Hm. clear -Hm.
      induction Hm as [|m mf l modules Hmf _ IH]; constructor; [|done].
      by apply module_entry_Ok in Hmf as [_ ?].
    + cbn -[_copy_fields course_fields]. intros [= <-].
      exists []. split; [apply dict_get_set_eq | constructor].
Qed.

Lemma no_type_key_in_results_witness :
  (∃ result,
     _type_dict [("type", VStr "quiz")]
       (types_value [("quiz", [("type", VStr "base"); ("max_points", VInt 10)])])
     = Ok result ∧ dict_get "type" result = None) ∧
  (∃ data modules,
     aplus_json example_env (example_request "GET") "c1" = Ok (JsonResponse data) ∧
     dict_get "modules" data = Some (VList modules) ∧
     Forall no_type_field modules).
Proof.
  destruct no_type_key_in_results as (Hno & Hret & Hfeed). split.
  - destruct (Hret [("type", VStr "quiz")]
                [("quiz", [("type", VStr "base"); ("max_points", VInt 10)])])
      as [result Hr].
    + by intros t [= <-].
    + exists result. split; [exact Hr | exact (Hno _ _ _ Hr)].
  - assert (∃ data, aplus_json example_env (example_request "GET") "c1"
                    = Ok (JsonResponse data)) as [data Hd]
      by (eexists; reflexivity).
    destruct (Hfeed _ _ _ data Hd) as (modules & Hm & Hall).
    exists data, modules. split; [exact Hd|]. split; [exact Hm | exact Hall].
Defined.

(** ** No recovery from failures *)




(** ** Instances on the example configuration *)


Lemma exercise_calls_configured_view_witness :
  exercise example_env (example_request "GET") "c1" "e1"
  = example_view (VStr "en") (example_request "GET") example_course
      (example_exercise (VStr "e1")) None.
Proof.
  destruct (exercise_calls_configured_view example_env (example_request "GET")
              "c1" "e1" example_course (example_exercise (VStr "e1"))
              "access.types.stdsync.createForm" eq_refl eq_refl) as [H _].
  exact (H example_view eq_refl).
Defined.

Lemma test_result_post_writes_one_file_witness :
  (test_result example_env "2014-05-05 12:00:00" (example_request "POST") (disk ∅)).1
  = Ok (JsonResponse [("success", VBool true)]) ∧
  (test_result example_env "2014-05-05 12:00:00" (example_request "POST") (disk ∅)).2
    !! "/srv/uploads/test-result"
  = Some "2014-05-05 12:00:00" ∧
  (test_result example_env "2014-05-05 12:00:00" (example_request "POST")
     (read_only_disk ∅)).1
  = Raise OSError.
Proof.
  split; [|split].
  - destruct (test_result_post_writes_one_file example_env (example_request "POST")
                "2014-05-05 12:00:00" (disk ∅) eq_refl) as ((H1 & H2) & _);
      [reflexivity | exact H1].
  - destruct (test_result_post_writes_one_file example_env (example_request "POST")
                "2014-05-05 12:00:00" (disk ∅) eq_refl) as ((H1 & H2) & _);
      [reflexivity | exact H2].
  - destruct (test_result_post_writes_one_file example_env (example_request "POST")
                "2014-05-05 12:00:00" (read_only_disk ∅) eq_refl) as (_ & H & _).
    destruct H as [H _]; [reflexivity | exact H].
Defined.

(** C5 as worded fails: a POST for which the file cannot be opened stores
    nothing and answers no success. *)
Lemma test_result_post_writes_nothing_unwritable :
  ¬ ((test_result example_env "2014-05-05 12:00:00" (example_request "POST")
        (read_only_disk ∅)).1
     = Ok (JsonResponse [("success", VBool true)]) ∧
     (test_result example_env "2014-05-05 12:00:00" (example_request "POST")
        (read_only_disk ∅)).2 !! "/srv/uploads/test-result"
     = Some "2014-05-05 12:00:00").
Proof. intros [H _]. discriminate H. Qed.

Lemma test_result_get_reads_file_witness :
  (test_result example_env "2014-05-05 12:00:00" (example_request "GET")
     (disk {["/srv/uploads/test-result" := "{}"]})).1
  = Ok (HttpResponse (VStr "{}")) ∧
  (test_result example_env "2014-05-05 12:00:00" (example_request "GET") (disk ∅)).1
  = Ok (HttpResponse (VStr "No test result received yet.")).
Proof.
  split.
  - destruct (test_result_get_reads_file example_env (example_request "GET")
                "2014-05-05 12:00:00" (disk {["/srv/uploads/test-result" := "{}"]})
                eq_refl)
      as (H & _). apply H; [reflexivity | discriminate].
  - destruct (test_result_get_reads_file example_env (example_request "GET")
                "2014-05-05 12:00:00" (disk ∅) eq_refl) as (_ & H & _).
    apply H. left. reflexivity.
Defined.

(** ** Object identity: what [copy.deepcopy] makes and what it shares *)

Section object_identity.
Import Heap.
Implicit Types h : heap.
Implicit Types memo : gmap loc loc.

Lemma dict_set_absent {V} (d : list (string * V)) k v :
  k ∉ d.*1 → dict_set d k v = d ++ [(k, v)].
Proof.
  induction d as [|[k' v'] d IH]; simpl; [done|].
  rewrite not_elem_of_cons. intros [Hne Hk].
  apply String.eqb_neq in Hne. rewrite String.eqb_sym in Hne.
  by rewrite Hne, IH.
Qed.

Lemma store_item_length y k v h : length (store_item y k v h) = length h.
Proof. unfold store_item. destruct (h !! y) as [[]|]; by rewrite ?length_insert. Qed.

Lemma store_item_other y k v h l : l ≠ y → store_item y k v h !! l = h !! l.
Proof.
  intros Hne. unfold store_item. destruct (h !! y) as [[]|]; try done.
  by rewrite list_lookup_insert_ne.
Qed.

Lemma store_item_at y k v h d :
  h !! y = Some (ODict d) →
  store_item y k v h !! y = Some (ODict (dict_set d k v)).
Proof.
  intros Hy. unfold store_item. rewrite Hy.
  apply list_lookup_insert_eq. by eapply lookup_lt_Some.
Qed.

Lemma store_append_length y v h : length (store_append y v h) = length h.
Proof. unfold store_append. destruct (h !! y) as [[]|]; by rewrite ?length_insert. Qed.

Lemma store_append_other y v h l : l ≠ y → store_append y v h !! l = h !! l.
Proof.
  intros Hne. unfold store_append. destruct (h !! y) as [[]|]; try done.
  by rewrite list_lookup_insert_ne.
Qed.

Lemma dict_set_refs (P : loc → Prop) (d : entries) k v :
  Forall P (obj_refs (ODict d)) → Forall P (val_refs v) →
  Forall P (obj_refs (ODict (dict_set d k v))).
Proof.
  simpl. induction d as [|[k' v'] d IH]; simpl; intros Hd Hv.
  - by rewrite app_nil_r.
  - apply Forall_app in Hd as [Hv' Hd].
    destruct (String.eqb k' k); simpl; apply Forall_app; auto.
Qed.

Lemma store_item_refs (P : loc → Prop) y k v h l o :
  Forall P (val_refs v) →
  (∀ o', h !! l = Some o' → Forall P (obj_refs o')) →
  store_item y k v h !! l = Some o → Forall P (obj_refs o).
Proof.
  intros Hv Hold. destruct (decide (l = y)) as [->|Hne].
  - unfold store_item. destruct (h !! y) as [[d|xs]|] eqn:Hy;
      [|intros Ho; apply Hold; congruence..].
    rewrite list_lookup_insert_eq by by eapply lookup_lt_Some.
    intros [= <-]. apply dict_set_refs; auto.
  - rewrite store_item_other by done. auto.
Qed.

Lemma store_append_refs (P : loc → Prop) y v h l o :
  Forall P (val_refs v) →
  (∀ o', h !! l = Some o' → Forall P (obj_refs o')) →
  store_append y v h !! l = Some o → Forall P (obj_refs o).
Proof.
  intros Hv Hold. destruct (decide (l = y)) as [->|Hne].
  - unfold store_append. destruct (h !! y) as [[d|xs]|] eqn:Hy;
      [intros Ho; apply Hold; congruence| |intros Ho; apply Hold; congruence].
    rewrite list_lookup_insert_eq by by eapply lookup_lt_Some.
    intros [= <-]. simpl. rewrite bind_app. apply Forall_app. split.
    + by apply (Hold (OList xs)).
    + simpl. by rewrite app_nil_r.
  - rewrite store_append_other by done. auto.
Qed.

Lemma store_append_at y v h xs :
  h !! y = Some (OList xs) →
  store_append y v h !! y = Some (OList (xs ++ [v])).
Proof.
  intros Hy. unfold store_append. rewrite Hy.
  apply list_lookup_insert_eq. by eapply lookup_lt_Some.
Qed.

Lemma renamed_mono memo memo' v v' :
  memo ⊆ memo' → renamed memo v v' → renamed memo' v v'.
Proof.
  intros Hsub. destruct v as [a|l]; [done|].
  intros (y & -> & Hy). exists y. split; [done|]. by eapply lookup_weaken.
Qed.

Lemma renamed_obj_mono memo memo' o o' :
  memo ⊆ memo' → renamed_obj memo o o' → renamed_obj memo' o o'.
Proof.
  intros Hsub. destruct o as [d|xs], o' as [d'|xs']; simpl; try done.
  - intros H. eapply Forall2_impl; [exact H|].
    intros e e' [He Hr]. eauto using renamed_mono.
  - intros H. eapply Forall2_impl; [exact H|]. eauto using renamed_mono.
Qed.

(** Storing a copy into an object made during the pass keeps the state of
    the pass. *)
Lemma copying_store h0 memo h h' y v :
  copying h0 memo h →
  length h0 ≤ y →
  Forall (λ l, length h0 ≤ l < length h) (val_refs v) →
  length h' = length h →
  (∀ l, l ≠ y → h' !! l = h !! l) →
  (∀ o, h' !! y = Some o →
     Forall (λ l, length h0 ≤ l < length h) (obj_refs o)) →
  copying h0 memo h'.
Proof.
  intros ((Hlen & Hframe) & Hmemo & Hnew) Hy Hv Hl Hother Hat.
  split; [split|split].
  - lia.
  - intros l Hl0. rewrite Hother by lia. auto.
  - intros l y' Hly. rewrite Hl. eauto.
  - intros y' o Hy' Ho. rewrite Hl. destruct (decide (y' = y)) as [->|Hne].
    + auto.
    + rewrite Hother in Ho by done. eauto.
Qed.

Lemma copying_alloc h0 memo h l o :
  copying h0 memo h → l < length h0 → obj_refs o = [] →
  copying h0 (<[l := length h]> memo) (h ++ [o]).
Proof.
  intros ((Hlen & Hframe) & Hmemo & Hnew) Hl Ho.
  unfold copying. rewrite length_app. simpl. split; [split|split].
  - lia.
  - intros l' Hl'. rewrite lookup_app_l by lia. auto.
  - intros l' y. rewrite lookup_insert. case_decide as Heq.
    + intros [= <-]. subst. lia.
    + intros Hly. apply Hmemo in Hly. lia.
  - intros y o' Hy. destruct (decide (y < length h)) as [Hlt|Hge].
    + rewrite lookup_app_l by done. intros Ho'.
      eapply Forall_impl; [by eapply Hnew|]. simpl. lia.
    + rewrite lookup_app_r by lia.
      destruct (y - length h) as [|n] eqn:E; simpl; [|by rewrite lookup_nil].
      intros [= <-]. rewrite Ho. constructor.
Qed.

Lemma copy_post_copy_of h0 x memo h r :
  copy_post h0 x memo h r → copy_of h0 x r.1.1.
Proof.
  intros ((_ & Hmemo & _) & _ & _ & Hx). destruct x as [a|l]; [done|].
  destruct Hx as (y & -> & Hy & _). exists y. split; [done|].
  apply Hmemo in Hy. lia.
Qed.

Lemma copy_post_refs h0 x memo h r :
  copy_post h0 x memo h r →
  Forall (λ l, length h0 ≤ l < length r.2) (val_refs r.1.1).
Proof.
  intros ((_ & Hmemo & _) & _ & _ & Hx). destruct x as [a|l].
  - rewrite Hx. constructor.
  - destruct Hx as (y & -> & Hy & _). apply Hmemo in Hy.
    repeat constructor; lia.
Qed.

Section pass.
Variable h0 : heap.
Hypothesis Hclosed : closed h0.

Lemma closed_lookup l o : h0 !! l = Some o → obj_ok (length h0) o.
Proof.
  intros Hl. unfold closed in Hclosed. rewrite Forall_forall in Hclosed.
  apply Hclosed. by eapply list_elem_of_lookup_2.
Qed.

Lemma copy_items_sound copy y :
  copy_sound h0 copy →
  ∀ d memo h acc r,
    copying h0 memo h →
    length h0 ≤ y < length h →
    h !! y = Some (ODict acc) →
    Forall (λ l, l < length h0) (obj_refs (ODict d)) →
    NoDup (acc.*1 ++ d.*1) →
    copy_items copy y d memo h = Some r →
    copying h0 r.1 r.2 ∧ memo ⊆ r.1 ∧
    (length h ≤ length r.2 ∧ ∀ l, l < length h → l ≠ y → r.2 !! l = h !! l) ∧
    ∃ d', r.2 !! y = Some (ODict (acc ++ d')) ∧
      Forall2 (λ e e', e.1 = e'.1 ∧ copy_of h0 e.2 e'.2) d d'.
Proof.
  intros Hcopy. induction d as [|[key value] d IH]; intros memo h acc r Hc Hy Hacc Hrefs Hnd.
  - intros [= <-]. simpl. split; [done|]. split; [done|]. split; [done|].
    exists []. rewrite app_nil_r. split; [done | constructor].
  - simpl. simpl in Hrefs. apply Forall_app in Hrefs as [Hvalue Hrefs].
    destruct (copy value memo h) as [[[v memo1] h1]|] eqn:Ecopy; [|done]. simpl.
    pose proof (Hcopy _ _ _ _ Hc Hvalue Ecopy) as Hpost.
    pose proof (copy_post_copy_of _ _ _ _ _ Hpost) as Hcopy_of.
    pose proof (copy_post_refs _ _ _ _ _ Hpost) as Hv.
    destruct Hpost as (Hc1 & Hsub1 & (Hlen1 & Hframe1) & _). simpl in *.
    assert (h1 !! y = Some (ODict acc)) as Hacc1 by (rewrite Hframe1; [done | lia]).
    assert (key ∉ acc.*1) as Hkey.
    { apply NoDup_app in Hnd as (_ & Hdisj & _). intros Hin.
      apply (Hdisj _ Hin). left. }
    intros Hitems.
    apply (IH _ _ (acc ++ [(key, v)])) in Hitems
      as (Hc2 & Hsub2 & (Hlen2 & Hframe2) & d' & Hd' & Hall).
    + rewrite store_item_length in Hlen2. split; [done|]. split; [by etrans|].
      split; [split; [lia|]|].
      * intros l Hl Hne. rewrite Hframe2; [|rewrite store_item_length; lia|done].
        rewrite store_item_other by done. apply Hframe1. done.
      * exists ((key, v) :: d'). rewrite <- app_assoc in Hd'. split; [done|].
        constructor; [done | done].
    + eapply (copying_store _ _ h1 _ y v); eauto using store_item_length; try lia.
      * intros l Hne. by apply store_item_other.
      * intros o Ho. eapply (store_item_refs _ y key v h1 y); [done| |exact Ho].
        intros o' Ho'. destruct Hc1 as (_ & _ & Hnew). eapply Hnew; [|done]. lia.
    + rewrite store_item_length. lia.
    + erewrite store_item_at by done. by rewrite dict_set_absent.
    + done.
    + rewrite fmap_app. simpl. rewrite <- app_assoc. done.
Qed.

Lemma copy_elements_sound copy y :
  copy_sound h0 copy →
  ∀ xs memo h r,
    copying h0 memo h →
    length h0 ≤ y < length h →
    Forall (λ l, l < length h0) (obj_refs (OList xs)) →
    copy_elements copy y xs memo h = Some r →
    copying h0 r.1 r.2 ∧ memo ⊆ r.1 ∧
    (length h ≤ length r.2 ∧ ∀ l, l < length h → l ≠ y → r.2 !! l = h !! l).
Proof.
  intros Hcopy. induction xs as [|a xs IH]; intros memo h r Hc Hy Hrefs.
  - intros [= <-]. simpl. split; [done|]. split; done.
  - simpl. simpl in Hrefs. apply Forall_app in Hrefs as [Ha Hrefs].
    destruct (copy a memo h) as [[[v memo1] h1]|] eqn:Ecopy; [|done]. simpl.
    pose proof (Hcopy _ _ _ _ Hc Ha Ecopy) as Hpost.
    pose proof (copy_post_refs _ _ _ _ _ Hpost) as Hv.
    destruct Hpost as (Hc1 & Hsub1 & (Hlen1 & Hframe1) & _). simpl in *.
    intros Helems.
    apply IH in Helems as (Hc2 & Hsub2 & (Hlen2 & Hframe2)).
    + rewrite store_append_length in Hlen2. split; [done|]. split; [by etrans|].
      split; [lia|].
      intros l Hl Hne. rewrite Hframe2; [|rewrite store_append_length; lia|done].
      rewrite store_append_other by done. apply Hframe1. done.
    + eapply (copying_store _ _ h1 _ y v); eauto using store_append_length; try lia.
      * intros l Hne. by apply store_append_other.
      * intros o Ho. eapply (store_append_refs _ y v h1 y); [done| |exact Ho].
        intros o' Ho'. destruct Hc1 as (_ & _ & Hnew). eapply Hnew; [|done]. lia.
    + rewrite store_append_length. lia.
    + done.
Qed.

Lemma alloc_lookup h (o : obj) : (h ++ [o]) !! length h = Some o.
Proof. rewrite lookup_app_r by lia. by rewrite Nat.sub_diag. Qed.

(** [copy.deepcopy] keeps the state of a copying pass, with any fuel. *)
Lemma deepcopy_sound fuel : copy_sound h0 (deepcopy fuel).
Proof.
  induction fuel as [|fuel IH]; intros x memo h r Hc Hrefs; [done|].
  simpl. destruct x as [a|l].
  { intros [= <-]. split; [done|]. split; [done|]. split; done. }
  simpl in Hrefs. rewrite Forall_singleton in Hrefs.
  destruct (memo !! l) as [y|] eqn:Hmemo.
  { intros [= <-]. split; [done|]. split; [done|]. split; [done|].
    exists y. split; [done|]. split; [done|]. simpl. congruence. }
  pose proof Hc as ((Hlen & Hframe) & _ & _).
  rewrite (Hframe l Hrefs).
  destruct (h0 !! l) as [[d|xs]|] eqn:Hl; [| |done].
  - pose proof (closed_lookup _ _ Hl) as [Hd Hnd].
    destruct (copy_items (deepcopy fuel) (length h) d
                (<[l:=length h]> memo) (h ++ [ODict []]))
      as [[memo2 h2]|] eqn:Eitems; [|done].
    simpl. intros [= <-].
    eapply (copy_items_sound _ _ IH _ _ _ []) in Eitems
      as (Hc2 & Hsub & (Hlen2 & Hframe2) & d' & Hd' & Hall);
      [|by apply copying_alloc|rewrite length_app; simpl; lia
       |apply alloc_lookup|done|done].
    rewrite length_app in Hlen2. unfold copy_post. simpl in *.
    split; [done|]. split; [|split; [split; [lia|]|]].
    + etrans; [|exact Hsub]. by apply insert_subseteq.
    + intros l' Hl'. rewrite Hframe2; [|rewrite length_app; simpl; lia|lia].
      by rewrite lookup_app_l.
    + exists (length h). split; [done|]. split.
      * eapply lookup_weaken; [|exact Hsub]. apply lookup_insert_eq.
      * intros _ d0 Hd0. rewrite Hd0 in Hl. injection Hl as ->. eauto.
  - pose proof (closed_lookup _ _ Hl) as [Hxs _].
    destruct (copy_elements (deepcopy fuel) (length h) xs
                (<[l:=length h]> memo) (h ++ [OList []]))
      as [[memo2 h2]|] eqn:Eelems; [|done].
    simpl. intros [= <-].
    eapply (copy_elements_sound _ _ IH) in Eelems
      as (Hc2 & Hsub & (Hlen2 & Hframe2));
      [|by apply copying_alloc|rewrite length_app; simpl; lia|done].
    rewrite length_app in Hlen2. unfold copy_post. simpl in *.
    split; [done|]. split; [|split; [split; [lia|]|]].
    + etrans; [|exact Hsub]. by apply insert_subseteq.
    + intros l' Hl'. rewrite Hframe2; [|rewrite length_app; simpl; lia|lia].
      by rewrite lookup_app_l.
    + exists (length h). split; [done|]. split.
      * eapply lookup_weaken; [|exact Hsub]. apply lookup_insert_eq.
      * intros _ d0 Hd0. rewrite Hd0 in Hl. done.
Qed.

(** The objects that the loops of [copy.deepcopy] copy are copied whole, and
    so is the object that the loop fills. *)
Lemma copy_items_whole copy y :
  copy_sound h0 copy → copy_whole h0 copy →
  ∀ d memo h acc memo' h',
    copying h0 memo h →
    length h0 ≤ y < length h →
    h !! y = Some (ODict acc) →
    Forall (λ l, l < length h0) (obj_refs (ODict d)) →
    NoDup (acc.*1 ++ d.*1) →
    copy_items copy y d memo h = Some (memo', h') →
    (∃ d', h' !! y = Some (ODict (acc ++ d')) ∧
       Forall2 (λ e e' : string * val, e.1 = e'.1 ∧ renamed memo' e.2 e'.2) d d') ∧
    copied_whole h0 memo memo' (length h) h'.
Proof.
  intros Hsound Hwhole.
  induction d as [|[key value] d IH]; intros memo h acc memo' h' Hc Hy Hacc Hrefs Hnd.
  - intros [= <- <-]. split.
    + exists []. rewrite app_nil_r. split; [done | constructor].
    + intros l y' Hl Hl'. congruence.
  - simpl. simpl in Hrefs. apply Forall_app in Hrefs as [Hvalue Hrefs].
    destruct (copy value memo h) as [[[v memo1] h1]|] eqn:Ecopy; [|done]. simpl.
    pose proof (Hsound _ _ _ _ Hc Hvalue Ecopy) as Hpost.
    pose proof (copy_post_refs _ _ _ _ _ Hpost) as Hv.
    destruct (Hwhole _ _ _ _ _ _ Hc Hvalue Ecopy) as (Hren & Hwhole1 & _).
    destruct Hpost as (Hc1 & Hsub1 & (Hlen1 & Hframe1) & _). simpl in *.
    assert (h1 !! y = Some (ODict acc)) as Hacc1 by (rewrite Hframe1; [done | lia]).
    assert (key ∉ acc.*1) as Hkey.
    { apply NoDup_app in Hnd as (_ & Hdisj & _). intros Hin.
      apply (Hdisj _ Hin). left. }
    assert (copying h0 memo1 (store_item y key v h1)) as Hc1'.
    { eapply (copying_store _ _ h1 _ y v); eauto using store_item_length; try lia.
      - intros l Hne. by apply store_item_other.
      - intros o Ho. eapply (store_item_refs _ y key v h1 y); [done| |exact Ho].
        intros o' Ho'. destruct Hc1 as (_ & _ & Hnew). eapply Hnew; [|done]. lia. }
    assert (store_item y key v h1 !! y = Some (ODict (acc ++ [(key, v)]))) as Hacc1'.
    { erewrite store_item_at by done. by rewrite dict_set_absent. }
    assert (NoDup ((acc ++ [(key, v)]).*1 ++ d.*1)) as Hnd'.
    { rewrite fmap_app. simpl. rewrite <- app_assoc. done. }
    intros Hitems.
    destruct (copy_items_sound copy y Hsound d memo1 (store_item y key v h1)
                (acc ++ [(key, v)]) (memo', h') Hc1')
      as (Hc2 & Hsub2 & (Hlen2 & Hframe2) & _);
      [rewrite store_item_length; lia|done..|]. simpl in *.
    destruct (IH memo1 (store_item y key v h1) (acc ++ [(key, v)]) memo' h' Hc1')
      as ((d' & Hd' & Hall) & Hwhole2);
      [rewrite store_item_length; lia|done..|].
    rewrite store_item_length in *. split.
    + exists ((key, v) :: d'). rewrite <- app_assoc in Hd'. split; [done|].
      constructor; [|done]. split; [done|]. by eapply renamed_mono.
    + intros l y' Hl Hl'. destruct (memo1 !! l) as [y1|] eqn:Hl1.
      * assert (y' = y1) as -> by (eapply lookup_weaken in Hl1; [|exact Hsub2]; congruence).
        destruct (Hwhole1 l y1 Hl1 Hl') as (Hy1 & o & o' & Ho & Ho' & Hoo').
        split; [done|]. exists o, o'. split; [done|]. split.
        -- destruct Hc1 as (_ & Hmemo1 & _). apply Hmemo1 in Hl1.
           rewrite Hframe2 by lia. by rewrite store_item_other by lia.
        -- by eapply renamed_obj_mono.
      * destruct (Hwhole2 l y' Hl Hl1) as (Hy' & Hobj). split; [lia | done].
Qed.

Lemma copy_elements_whole copy y :
  copy_sound h0 copy → copy_whole h0 copy →
  ∀ xs memo h acc memo' h',
    copying h0 memo h →
    length h0 ≤ y < length h →
    h !! y = Some (OList acc) →
    Forall (λ l, l < length h0) (obj_refs (OList xs)) →
    copy_elements copy y xs memo h = Some (memo', h') →
    (∃ xs', h' !! y = Some (OList (acc ++ xs')) ∧ Forall2 (renamed memo') xs xs') ∧
    copied_whole h0 memo memo' (length h) h'.
Proof.
  intros Hsound Hwhole.
  induction xs as [|a xs IH]; intros memo h acc memo' h' Hc Hy Hacc Hrefs.
  - intros [= <- <-]. split.
    + exists []. rewrite app_nil_r. split; [done | constructor].
    + intros l y' Hl Hl'. congruence.
  - simpl. simpl in Hrefs. apply Forall_app in Hrefs as [Ha Hrefs].
    destruct (copy a memo h) as [[[v memo1] h1]|] eqn:Ecopy; [|done]. simpl.
    pose proof (Hsound _ _ _ _ Hc Ha Ecopy) as Hpost.
    pose proof (copy_post_refs _ _ _ _ _ Hpost) as Hv.
    destruct (Hwhole _ _ _ _ _ _ Hc Ha Ecopy) as (Hren & Hwhole1 & _).
    destruct Hpost as (Hc1 & Hsub1 & (Hlen1 & Hframe1) & _). simpl in *.
    assert (h1 !! y = Some (OList acc)) as Hacc1 by (rewrite Hframe1; [done | lia]).
    assert (copying h0 memo1 (store_append y v h1)) as Hc1'.
    { eapply (copying_store _ _ h1 _ y v); eauto using store_append_length; try lia.
      - intros l Hne. by apply store_append_other.
      - intros o Ho. eapply (store_append_refs _ y v h1 y); [done| |exact Ho].
        intros o' Ho'. destruct Hc1 as (_ & _ & Hnew). eapply Hnew; [|done]. lia. }
    intros Helems.
    destruct (copy_elements_sound copy y Hsound xs memo1 (store_append y v h1)
                (memo', h') Hc1')
      as (Hc2 & Hsub2 & (Hlen2 & Hframe2));
      [rewrite store_append_length; lia|done..|]. simpl in *.
    destruct (IH memo1 (store_append y v h1) (acc ++ [v]) memo' h' Hc1')
      as ((xs' & Hxs' & Hall) & Hwhole2);
      [rewrite store_append_length; lia|by apply store_append_at|done..|].
    rewrite store_append_length in *. split.
    + exists (v :: xs'). rewrite <- app_assoc in Hxs'. split; [done|].
      constructor; [|done]. by eapply renamed_mono.
    + intros l y' Hl Hl'. destruct (memo1 !! l) as [y1|] eqn:Hl1.
      * assert (y' = y1) as -> by (eapply lookup_weaken in Hl1; [|exact Hsub2]; congruence).
        destruct (Hwhole1 l y1 Hl1 Hl') as (Hy1 & o & o' & Ho & Ho' & Hoo').
        split; [done|]. exists o, o'. split; [done|]. split.
        -- destruct Hc1 as (_ & Hmemo1 & _). apply Hmemo1 in Hl1.
           rewrite Hframe2 by lia. by rewrite store_append_other by lia.
        -- by eapply renamed_obj_mono.
      * destruct (Hwhole2 l y' Hl Hl1) as (Hy' & Hobj). split; [lia | done].
Qed.

(** [copy.deepcopy] copies whole, with any fuel. *)
Lemma deepcopy_whole fuel : copy_whole h0 (deepcopy fuel).
Proof.
  induction fuel as [|fuel IH]; intros x memo h v memo' h' Hc Hrefs; [done|].
  simpl. destruct x as [a|l].
  { intros [= <- <- <-]. split; [done|]. split; [|done].
    intros l y Hl Hl'. congruence. }
  simpl in Hrefs. rewrite Forall_singleton in Hrefs.
  destruct (memo !! l) as [y|] eqn:Hmemo.
  { intros [= <- <- <-]. split; [by exists y|]. split; [|congruence].
    intros l' y' Hl Hl'. congruence. }
  pose proof Hc as ((Hlen & Hframe) & _ & _).
  rewrite (Hframe l Hrefs).
  destruct (h0 !! l) as [[d|xs]|] eqn:Hl; [| |done].
  - pose proof (closed_lookup _ _ Hl) as [Hd Hnd].
    destruct (copy_items (deepcopy fuel) (length h) d
                (<[l:=length h]> memo) (h ++ [ODict []]))
      as [[memo2 h2]|] eqn:Eitems; [|done].
    simpl. intros [= <- <- <-].
    pose proof (copying_alloc h0 memo h l (ODict []) Hc Hrefs eq_refl) as Hc1.
    assert (length h0 ≤ length h < length (h ++ [ODict []])) as Hy1
      by (rewrite length_app; simpl; lia).
    destruct (copy_items_sound _ _ (deepcopy_sound fuel) _ _ _ [] _ Hc1
                Hy1 (alloc_lookup _ _) Hd Hnd Eitems)
      as (Hc2 & Hsub & _).
    destruct (copy_items_whole _ _ (deepcopy_sound fuel) IH _ _ _ [] _ _ Hc1
                Hy1 (alloc_lookup _ _) Hd Hnd Eitems)
      as ((d' & Hd' & Hall) & Hwhole).
    simpl in *. rewrite length_app in Hwhole. simpl in Hwhole.
    assert (memo2 !! l = Some (length h)) as Hl2.
    { eapply lookup_weaken; [|exact Hsub]. apply lookup_insert_eq. }
    split; [by exists (length h)|]. split.
    + intros l' y' Hl' Hnone. destruct (decide (l' = l)) as [->|Hne].
      * assert (y' = length h) as -> by congruence.
        split; [done|]. by exists (ODict d), (ODict d').
      * destruct (Hwhole l' y' Hl') as (Hy' & Hobj); [by rewrite lookup_insert_ne|].
        split; [lia | done].
    + intros l0 [= <-] _. split; [done|]. intros l' y' Hne Hl' Hnone.
      destruct (Hwhole l' y' Hl') as (Hy' & _); [by rewrite lookup_insert_ne|]. lia.
  - pose proof (closed_lookup _ _ Hl) as [Hxs _].
    destruct (copy_elements (deepcopy fuel) (length h) xs
                (<[l:=length h]> memo) (h ++ [OList []]))
      as [[memo2 h2]|] eqn:Eelems; [|done].
    simpl. intros [= <- <- <-].
    pose proof (copying_alloc h0 memo h l (OList []) Hc Hrefs eq_refl) as Hc1.
    assert (length h0 ≤ length h < length (h ++ [OList []])) as Hy1
      by (rewrite length_app; simpl; lia).
    destruct (copy_elements_sound _ _ (deepcopy_sound fuel) _ _ _ _ Hc1
                Hy1 Hxs Eelems)
      as (Hc2 & Hsub & _).
    destruct (copy_elements_whole _ _ (deepcopy_sound fuel) IH _ _ _ [] _ _ Hc1
                Hy1 (alloc_lookup _ _) Hxs Eelems)
      as ((xs' & Hxs' & Hall) & Hwhole).
    simpl in *. rewrite length_app in Hwhole. simpl in Hwhole.
    assert (memo2 !! l = Some (length h)) as Hl2.
    { eapply lookup_weaken; [|exact Hsub]. apply lookup_insert_eq. }
    split; [by exists (length h)|]. split.
    + intros l' y' Hl' Hnone. destruct (decide (l' = l)) as [->|Hne].
      * assert (y' = length h) as -> by congruence.
        split; [done|]. by exists (OList xs), (OList xs').
      * destruct (Hwhole l' y' Hl') as (Hy' & Hobj); [by rewrite lookup_insert_ne|].
        split; [lia | done].
    + intros l0 [= <-] _. split; [done|]. intros l' y' Hne Hl' Hnone.
      destruct (Hwhole l' y' Hl') as (Hy' & _); [by rewrite lookup_insert_ne|]. lia.
Qed.

Lemma uncopied_mono memo memo' :
  memo ⊆ memo' → size (uncopied h0 memo') ≤ size (uncopied h0 memo).
Proof.
  intros Hsub. apply subseteq_size. unfold uncopied.
  apply subseteq_dom in Hsub. set_solver.
Qed.

Lemma uncopied_insert memo l y :
  l < length h0 → memo !! l = None →
  size (uncopied h0 (<[l:=y]> memo)) < size (uncopied h0 memo).
Proof.
  intros Hl Hmemo. apply subset_size. unfold uncopied.
  rewrite dom_insert_L. apply not_elem_of_dom in Hmemo.
  assert (l ∈ (set_seq 0 (length h0) : gset nat)) by (apply elem_of_set_seq; lia).
  set_solver.
Qed.

Lemma copy_items_returns fuel copy y :
  copy_sound h0 copy → copy_returns h0 fuel copy →
  ∀ d memo h,
    copying h0 memo h →
    length h0 ≤ y < length h →
    Forall (λ l, l < length h0) (obj_refs (ODict d)) →
    size (uncopied h0 memo) < fuel →
    is_Some (copy_items copy y d memo h).
Proof.
  intros Hsound Hret. induction d as [|[key value] d IH]; intros memo h Hc Hy Hrefs Hsize.
  - by eexists.
  - simpl. simpl in Hrefs. apply Forall_app in Hrefs as [Hvalue Hrefs].
    destruct (Hret value memo h Hc Hvalue Hsize) as [[[v memo1] h1] Ecopy].
    rewrite Ecopy. simpl.
    pose proof (Hsound _ _ _ _ Hc Hvalue Ecopy) as Hpost.
    pose proof (copy_post_refs _ _ _ _ _ Hpost) as Hv.
    destruct Hpost as (Hc1 & Hsub1 & (Hlen1 & Hframe1) & _). simpl in *.
    apply IH.
    + eapply (copying_store _ _ h1 _ y v); eauto using store_item_length; try lia.
      * intros l Hne. by apply store_item_other.
      * intros o Ho. eapply (store_item_refs _ y key v h1 y); [done| |exact Ho].
        intros o' Ho'. destruct Hc1 as (_ & _ & Hnew). eapply Hnew; [|done]. lia.
    + rewrite store_item_length. lia.
    + done.
    + pose proof (uncopied_mono _ _ Hsub1). lia.
Qed.

Lemma copy_elements_returns fuel copy y :
  copy_sound h0 copy → copy_returns h0 fuel copy →
  ∀ xs memo h,
    copying h0 memo h →
    length h0 ≤ y < length h →
    Forall (λ l, l < length h0) (obj_refs (OList xs)) →
    size (uncopied h0 memo) < fuel →
    is_Some (copy_elements copy y xs memo h).
Proof.
  intros Hsound Hret. induction xs as [|a xs IH]; intros memo h Hc Hy Hrefs Hsize.
  - by eexists.
  - simpl. simpl in Hrefs. apply Forall_app in Hrefs as [Ha Hrefs].
    destruct (Hret a memo h Hc Ha Hsize) as [[[v memo1] h1] Ecopy].
    rewrite Ecopy. simpl.
    pose proof (Hsound _ _ _ _ Hc Ha Ecopy) as Hpost.
    pose proof (copy_post_refs _ _ _ _ _ Hpost) as Hv.
    destruct Hpost as (Hc1 & Hsub1 & (Hlen1 & Hframe1) & _). simpl in *.
    apply IH.
    + eapply (copying_store _ _ h1 _ y v); eauto using store_append_length; try lia.
      * intros l Hne. by apply store_append_other.
      * intros o Ho. eapply (store_append_refs _ y v h1 y); [done| |exact Ho].
        intros o' Ho'. destruct Hc1 as (_ & _ & Hnew). eapply Hnew; [|done]. lia.
    + rewrite store_append_length. lia.
    + done.
    + pose proof (uncopied_mono _ _ Hsub1). lia.
Qed.

(** [copy.deepcopy] returns once its fuel exceeds the number of objects
    left to copy. *)
Lemma deepcopy_returns fuel : copy_returns h0 fuel (deepcopy fuel).
Proof.
  induction fuel as [|fuel IH]; intros x memo h Hc Hrefs Hsize; [lia|].
  simpl. destruct x as [a|l]; [by eexists|].
  simpl in Hrefs. rewrite Forall_singleton in Hrefs.
  destruct (memo !! l) as [y|] eqn:Hmemo; [by eexists|].
  pose proof Hc as ((Hlen & Hframe) & _ & _).
  rewrite (Hframe l Hrefs).
  destruct (lookup_lt_is_Some_2 h0 l Hrefs) as [o Hl]. rewrite Hl.
  pose proof (uncopied_insert memo l (length h) Hrefs Hmemo) as Hless.
  pose proof (closed_lookup _ _ Hl) as [Ho _].
  destruct o as [d|xs].
  - destruct (copy_items_returns fuel (deepcopy fuel) (length h)
                (deepcopy_sound fuel) IH d (<[l:=length h]> memo) (h ++ [ODict []]))
      as [[memo2 h2] ->]; [by apply copying_alloc|rewrite length_app; simpl; lia
                          |done|lia|by eexists].
  - destruct (copy_elements_returns fuel (deepcopy fuel) (length h)
                (deepcopy_sound fuel) IH xs (<[l:=length h]> memo) (h ++ [OList []]))
      as [[memo2 h2] ->]; [by apply copying_alloc|rewrite length_app; simpl; lia
                          |done|lia|by eexists].
Qed.

End pass.

(** ** What a copy holds *)

Lemma Forall2_through {A B C} (R : A → B → Prop) (P : A → C → Prop)
    (Q : B → C → Prop) l l' k :
  Forall2 R l l' → Forall2 P l k →
  (∀ x x' z, R x x' → P x z → Q x' z) →
  Forall2 Q l' k.
Proof.
  intros HR. revert k. induction HR as [|x x' l l' Hx _ IH]; intros k HP HQ.
  - inversion HP. constructor.
  - inversion HP as [|? z ? k' Hz Hk']; subst. constructor; eauto.
Qed.

(** More fuel reads the same tree. *)
Lemma read_mono h k k' v tree :
  k ≤ k' → read k h v = Some tree → read k' h v = Some tree.
Proof.
  revert k' v tree. induction k as [|k IH]; intros k' v tree Hk; [done|].
  destruct k' as [|k']; [lia|]. simpl. destruct v as [a|l]; [done|].
  destruct (h !! l) as [[d|xs]|]; [| |done].
  - rewrite !fmap_Some. intros (dt & Hd & ->). exists dt. split; [|done].
    apply mapM_Some in Hd. apply mapM_Some. eapply Forall2_impl; [exact Hd|].
    intros e et. simpl. rewrite !fmap_Some. intros (t & Ht & ->).
    exists t. split; [|done]. apply (IH k'); [lia | done].
  - rewrite !fmap_Some. intros (xt & Hxs & ->). exists xt. split; [|done].
    apply mapM_Some in Hxs. apply mapM_Some. eapply Forall2_impl; [exact Hxs|].
    intros x t Ht. apply (IH k'); [lia | done].
Qed.

(** The least fuel with which a value is read. *)
Lemma least_fuel (P : nat → Prop) `{!∀ n, Decision (P n)} n :
  P n → ∃ m, m ≤ n ∧ P m ∧ ∀ k, k < m → ¬ P k.
Proof.
  assert (∀ n, (∀ k, k < n → ¬ P k) ∨ ∃ m, m < n ∧ P m ∧ ∀ k, k < m → ¬ P k)
    as Hsearch.
  { clear n. induction n as [|n [IH|(m & Hm & Hfirst)]].
    - left. lia.
    - destruct (decide (P n)) as [Hn|Hn].
      + right. exists n. split; [lia|]. done.
      + left. intros k Hk. destruct (decide (k = n)) as [->|]; [done|].
        apply IH. lia.
    - right. exists m. split; [lia | done]. }
  intros Hn. destruct (Hsearch n) as [Hnone|(m & Hm & Hfirst)].
  - exists n. split; [lia|]. done.
  - exists m. split; [lia | done].
Qed.

(** A value that stands for another in copies that are whole reads as the
    other does; a copy that is not whole does no harm as long as the object
    it was made from cannot be read within the bound. *)
Lemma read_renamed h h' memo bound :
  (∀ l y, memo !! l = Some y →
     (∃ o o', h !! l = Some o ∧ h' !! y = Some o' ∧ renamed_obj memo o o') ∨
     (∀ k, k ≤ bound → read k h (Ref l) = None)) →
  ∀ fuel v v' tree,
    fuel ≤ bound → renamed memo v v' →
    read fuel h v = Some tree → read fuel h' v' = Some tree.
Proof.
  intros Hmemo. induction fuel as [|fuel IH]; intros v v' tree Hfuel Hren; [done|].
  destruct v as [a|l]; simpl in Hren.
  { by subst v'. }
  destruct Hren as (y & -> & Hy).
  destruct (Hmemo l y Hy) as [(o & o' & Ho & Ho' & Hoo')|Hnone];
    [|by rewrite Hnone].
  simpl. rewrite Ho, Ho'.
  destruct o as [d|xs], o' as [d'|xs']; simpl in Hoo'; try done.
  - rewrite !fmap_Some. intros (dt & Hd & ->). exists dt. split; [|done].
    apply mapM_Some in Hd. apply mapM_Some.
    eapply Forall2_through; [exact Hoo' | exact Hd |].
    intros e e' et [He Hr]. simpl. rewrite !fmap_Some. intros (t & Ht & ->).
    exists t. split; [|by rewrite He]. eapply IH; [lia | exact Hr | exact Ht].
  - rewrite !fmap_Some. intros (xt & Hxs & ->). exists xt. split; [|done].
    apply mapM_Some in Hxs. apply mapM_Some.
    eapply Forall2_through; [exact Hoo' | exact Hxs |].
    intros x x' t Hr Ht. eapply IH; [lia | exact Hr | exact Ht].
Qed.

(** The copies that stand for the values of a dictionary hold their
    content, whatever has become of the copy [c] of the dictionary itself
    since. *)
Lemma read_copy_below h h' memo ltd (td : entries) c key v v' :
  h !! ltd = Some (ODict td) →
  (key, v) ∈ td →
  (∀ l y, memo !! l = Some y → y ≠ c →
     ∃ o o', h !! l = Some o ∧ h' !! y = Some o' ∧ renamed_obj memo o o') →
  (∀ l, memo !! l = Some c → l = ltd) →
  renamed memo v v' →
  same_content h v h' v'.
Proof.
  intros Hltd Hin Hwhole Hc Hren fuel tree Hread.
  destruct (least_fuel (λ n, is_Some (read n h v)) fuel)
    as (m & Hm & [t Ht] & Hleast); [by eexists|].
  assert (t = tree) as ->.
  { apply (read_mono _ _ fuel) in Ht; [congruence | done]. }
  apply (read_mono h' m fuel); [done|].
  eapply (read_renamed h h' memo m); [|done | exact Hren | exact Ht].
  intros l y Hl. destruct (decide (y = c)) as [->|Hne]; [right | left; eauto].
  apply Hc in Hl as ->. intros k Hk.
  destruct (read k h (Ref ltd)) as [T|] eqn:HT; [|done]. exfalso.
  destruct k as [|k]; [done|]. simpl in HT. rewrite Hltd in HT.
  apply fmap_Some in HT as (dt & Hd & _). apply mapM_Some in Hd.
  apply list_elem_of_lookup in Hin as [i Hi].
  destruct (Forall2_lookup_l _ _ _ _ _ Hd Hi) as (et & _ & Het). simpl in Het.
  apply fmap_Some in Het as (t' & Ht' & _).
  apply (Hleast k); [lia | by eexists].
Qed.

(** The same where every copy is whole. *)
Lemma read_copy h h' memo v v' :
  (∀ l y, memo !! l = Some y →
     ∃ o o', h !! l = Some o ∧ h' !! y = Some o' ∧ renamed_obj memo o o') →
  renamed memo v v' →
  same_content h v h' v'.
Proof.
  intros Hwhole Hren fuel tree Hread.
  eapply (read_renamed h h' memo fuel); [|done | exact Hren | exact Hread].
  intros l y Hl. left. eauto.
Qed.

Lemma uncopied_empty h0 : size (uncopied h0 ∅) = length h0.
Proof.
  unfold uncopied. rewrite dom_empty_L, difference_empty_L. apply size_set_seq.
Qed.

(** A whole pass of [copy.deepcopy], begun with an empty memo on a heap [h]
    that extends the closed heap [h0] by objects that hold no address of
    [h0]: with fuel beyond the size of [h0] it returns. *)
Lemma deepcopy_pass h0 h x fuel :
  closed h0 → copying h0 ∅ h →
  Forall (λ l, l < length h0) (val_refs x) →
  length h0 < fuel →
  ∃ r, deepcopy fuel x ∅ h = Some r ∧ copy_post h0 x ∅ h r.
Proof.
  intros Hclosed Hc Hx Hfuel.
  destruct (deepcopy_returns h0 Hclosed fuel x ∅ h Hc Hx) as [r Hr].
  { by rewrite uncopied_empty. }
  exists r. split; [done|]. by eapply deepcopy_sound.
Qed.

Lemma copying_start h : copying h ∅ h.
Proof.
  split; [split; [lia | done]|]. split.
  - intros l y. by rewrite lookup_empty.
  - intros y o Hy Ho. apply lookup_lt_Some in Ho. lia.
Qed.

Lemma copying_alloc_empty h0 h o :
  copying h0 ∅ h → obj_refs o = [] → copying h0 ∅ (h ++ [o]).
Proof.
  intros ((Hlen & Hframe) & _ & Hnew) Ho. unfold copying.
  rewrite length_app. simpl. split; [split|split].
  - lia.
  - intros l Hl. rewrite lookup_app_l by lia. auto.
  - intros l y. by rewrite lookup_empty.
  - intros y o' Hy. destruct (decide (y < length h)) as [Hlt|Hge].
    + rewrite lookup_app_l by done. intros Ho'.
      eapply Forall_impl; [by eapply Hnew|]. simpl. lia.
    + rewrite lookup_app_r by lia.
      destruct (y - length h) as [|n] eqn:E; simpl; [|by rewrite lookup_nil].
      intros [= <-]. rewrite Ho. constructor.
Qed.

(** [base.update(d)] on the heap: the dictionary at [base] is updated, and
    no other object is touched. *)
Lemma update_at y (d acc : entries) h :
  h !! y = Some (ODict acc) →
  update y d h !! y = Some (ODict (dict_update acc d)) ∧
  length (update y d h) = length h ∧
  ∀ l, l ≠ y → update y d h !! l = h !! l.
Proof.
  revert acc h. unfold update, dict_update.
  induction d as [|[k v] d IH]; intros acc h Hy; simpl; [done|].
  destruct (IH (dict_set acc k v) (store_item y k v h)) as (H1 & H2 & H3).
  { by apply store_item_at. }
  split; [done|]. split.
  - by rewrite H2, store_item_length.
  - intros l Hne. rewrite H3 by done. by apply store_item_other.
Qed.

Lemma dict_get_copied {V W} (R : V → W → Prop)
    (d : list (string * V)) (d' : list (string * W)) k :
  Forall2 (λ e e', e.1 = e'.1 ∧ R e.2 e'.2) d d' →
  match dict_get k d with
  | Some v => ∃ v', dict_get k d' = Some v' ∧ R v v'
  | None => dict_get k d' = None
  end.
Proof.
  induction 1 as [|[k1 v1] [k2 v2] d d' [Hk Hv] _ IH]; simpl; [done|].
  simpl in Hk, Hv. subst k2. destruct (String.eqb k1 k); eauto.
Qed.

Lemma type_dict_copies h fuel li lt (item types td : entries) t ltd :
  closed h → length h < fuel →
  h !! li = Some (ODict item) →
  h !! lt = Some (ODict types) →
  dict_get "type" item = Some (Atom (AStr t)) →
  dict_get t types = Some (Ref ltd) →
  h !! ltd = Some (ODict td) →
  ∃ r h' res,
    Heap._type_dict fuel (Ref li) (Ref lt) h = Some (Ref r, h') ∧
    (∀ l, l < length h → h' !! l = h !! l) ∧
    length h ≤ r ∧
    h' !! r = Some (ODict res) ∧
    (∀ k v, k ≠ "type" → dict_get k item = Some v → dict_get k res = Some v) ∧
    (∀ k v, k ≠ "type" → dict_get k item = None → dict_get k td = Some v →
       ∃ v', dict_get k res = Some v' ∧ copy_of h v v' ∧ same_content h v h' v') ∧
    (∀ y o, length h ≤ y → y ≠ r → h' !! y = Some o →
       Forall (λ l, length h ≤ l) (obj_refs o)).
Proof.
  intros Hclosed Hfuel Hli Hlt Htype Ht Hltd.
  pose proof (closed_lookup h Hclosed _ _ Hli) as [_ Hnd].
  pose proof (closed_lookup h Hclosed _ _ Hlt) as [Htypes _].
  assert (ltd < length h) as Hltd_lt by by eapply lookup_lt_Some.
  destruct (deepcopy_pass h (h ++ [ODict []]) (Ref ltd) fuel) as ([[v memo'] h2] & Ecopy & Hpost);
    [done|by apply copying_alloc_empty; [apply copying_start|]|by repeat constructor|done|].
  destruct Hpost as (Hc & _ & (Hlen2 & Hframe2) & y & Hv & Hy & Hcontent).
  simpl in *. subst v.
  destruct (Hcontent (lookup_empty _) td Hltd) as (cd & Hcd & Hall). clear Hcontent.
  pose proof Hc as (_ & Hmemo & Hnew).
  assert (copying h ∅ (h ++ [ODict []])) as Hstart
    by (by apply copying_alloc_empty; [apply copying_start|]).
  assert (Forall (λ l, l < length h) (val_refs (Ref ltd))) as Hrefs
    by by repeat constructor.
  destruct (deepcopy_whole h Hclosed fuel _ _ _ _ _ _ Hstart Hrefs Ecopy)
    as (_ & Hwhole & Htop).
  destruct (Htop ltd eq_refl (lookup_empty _)) as [[= Hfirst] Hlater].
  destruct (Hwhole ltd y Hy (lookup_empty _)) as (_ & o & o' & Ho & Ho' & Hrenamed).
  rewrite Hltd in Ho. injection Ho as <-.
  rewrite Hcd in Ho'. injection Ho' as <-. simpl in Hrenamed.
  apply Hmemo in Hy as [_ Hy].
  destruct (update_at y item cd h2 Hcd) as (Hupd & Hlen3 & Hother3).
  rewrite length_app in Hlen2. simpl in Hlen2.
  assert (dict_get "type" (dict_update cd item) = Some (Atom (AStr t))) as Hhas.
  { by apply dict_get_update_present. }
  exists y, (<[y := ODict (dict_del "type" (dict_update cd item))]> (update y item h2)),
    (dict_del "type" (dict_update cd item)).
  split; [|split; [|split; [|split; [|split; [|split]]]]].
  - unfold Heap._type_dict. simpl. rewrite Hli. simpl.
    rewrite Htype. simpl. rewrite lookup_app_l by by eapply lookup_lt_Some.
    rewrite Hlt. simpl. rewrite Ht. simpl.
    rewrite Ecopy. simpl. rewrite Hcd. simpl. rewrite Hupd. simpl.
    rewrite Hhas. done.
  - intros l Hl. rewrite list_lookup_insert_ne by lia.
    rewrite Hother3 by lia. rewrite Hframe2 by (rewrite length_app; simpl; lia).
    by rewrite lookup_app_l.
  - lia.
  - apply list_lookup_insert_eq. rewrite Hlen3. lia.
  - intros k v Hk Hv. rewrite get_del_update by done.
    apply String.eqb_neq in Hk as ->. by rewrite Hv.
  - intros k v Hk Hnone Hv. rewrite get_del_update by done.
    apply String.eqb_neq in Hk as ->. rewrite Hnone.
    pose proof (dict_get_copied (renamed memo') td cd k Hrenamed) as Hcopied.
    rewrite Hv in Hcopied. destruct Hcopied as (v' & Hv' & Hvv').
    exists v'. split; [done|]. split.
    + destruct v as [a|l]; simpl in *; [done|].
      destruct Hvv' as (y' & -> & Hy'). exists y'. split; [done|].
      apply Hmemo in Hy'. lia.
    + eapply (read_copy_below h _ memo' ltd td y k v v');
        [done | by apply dict_get_Some_elem | | | done].
      * intros l y' Hl Hne.
        destruct (Hwhole l y' Hl (lookup_empty _)) as (_ & o & o' & Ho & Ho' & Hoo').
        exists o, o'. split; [done|]. split; [|done].
        rewrite list_lookup_insert_ne by done. by rewrite Hother3.
      * intros l Hl. destruct (decide (l = ltd)) as [|Hne]; [done|]. exfalso.
        specialize (Hlater l y Hne Hl (lookup_empty _)). lia.
  - intros y' o Hy' Hne. rewrite list_lookup_insert_ne by done.
    rewrite Hother3 by done. intros Ho.
    eapply Forall_impl; [by eapply Hnew|]. simpl. lia.
Qed.

Lemma copying_forget h0 memo h : copying h0 memo h → copying h0 ∅ h.
Proof.
  intros (Hframe & _ & Hnew). split; [done|]. split; [|done].
  intros l y. by rewrite lookup_empty.
Qed.

Lemma dict_get_refs (P : loc → Prop) (d : entries) k v :
  Forall P (obj_refs (ODict d)) → dict_get k d = Some v → Forall P (val_refs v).
Proof.
  simpl. induction d as [|[k' v'] d IH]; simpl; [done|].
  intros [Hv' Hd]%Forall_app. destruct (String.eqb k' k); [|auto].
  by intros [= <-].
Qed.

Lemma copy_loop_copies h fuel (item : entries) result :
  closed h → length h < fuel →
  Forall (λ l, l < length h) (obj_refs (ODict item)) →
  ∀ pick_fields hc (acc : entries),
    copying h ∅ hc →
    length h ≤ result < length hc →
    hc !! result = Some (ODict acc) →
    ∃ h' (acc' : entries),
      copy_loop fuel item pick_fields result hc = Some h' ∧
      copying h ∅ h' ∧
      (∀ y, y < length hc → y ≠ result → h' !! y = hc !! y) ∧
      h' !! result = Some (ODict acc') ∧
      ∀ k, match dict_get k item with
           | Some v =>
               if bool_decide (k ∈ pick_fields)
               then ∃ v', dict_get k acc' = Some v' ∧ copy_of h v v' ∧
                          same_content h v h' v'
               else dict_get k acc' = dict_get k acc
           | None => dict_get k acc' = dict_get k acc
           end.
Proof.
  intros Hclosed Hfuel Hitem.
  induction pick_fields as [|name rest IH]; intros hc acc Hc Hres Hacc.
  - exists hc, acc. split; [done|]. split; [done|]. split; [done|]. split; [done|].
    intros k. by destruct (dict_get k item).
  - simpl. destruct (dict_get name item) as [v|] eqn:Hname.
    + destruct (deepcopy_pass h hc v fuel) as ([[copy memo'] h1] & Ecopy & Hpost);
        [done|done|by eapply dict_get_refs|done|].
      rewrite Ecopy. simpl.
      pose proof (copy_post_copy_of _ _ _ _ _ Hpost) as Hcopy_of.
      pose proof (copy_post_refs _ _ _ _ _ Hpost) as Hrefs.
      destruct (deepcopy_whole h Hclosed fuel _ _ _ _ _ _ Hc
                  (dict_get_refs _ _ _ _ Hitem Hname) Ecopy) as (Hren & Hwhole & _).
      destruct Hpost as (Hc1 & _ & (Hlen1 & Hframe1) & _). simpl in *.
      assert (h1 !! result = Some (ODict acc)) as Hacc1
        by (rewrite Hframe1; [done | lia]).
      destruct (IH (store_item result name copy h1) (dict_set acc name copy))
        as (h' & acc' & Hloop & Hc' & Hframe' & Hacc' & Hget).
      * eapply (copying_store _ _ h1 _ result copy);
          eauto using store_item_length, copying_forget; try lia.
        -- intros l Hne. by apply store_item_other.
        -- intros o Ho. eapply (store_item_refs _ result name copy h1 result);
             [done| |exact Ho].
           intros o' Ho'. destruct Hc1 as (_ & _ & Hnew). eapply Hnew; [|done]. lia.
      * rewrite store_item_length. lia.
      * by apply store_item_at.
      * rewrite store_item_length in Hframe'.
        assert (∀ y, y < length hc → y ≠ result → h' !! y = hc !! y) as Hframe.
        { intros y Hy Hne. rewrite Hframe' by (done || lia).
          rewrite store_item_other by done. by apply Hframe1. }
        exists h', acc'. split; [done|]. split; [done|]. split; [done|].
        split; [done|].
        intros k. specialize (Hget k).
        destruct (dict_get k item) as [vk|] eqn:Hk.
        -- destruct (decide (k ∈ rest)) as [Hin|Hin].
           ++ rewrite bool_decide_eq_true_2 in Hget by done.
              by rewrite bool_decide_eq_true_2 by by right.
           ++ rewrite bool_decide_eq_false_2 in Hget by done.
              rewrite Hget, dict_get_set.
              destruct (String.eqb name k) eqn:E.
              ** apply String.eqb_eq in E as ->.
                 rewrite bool_decide_eq_true_2 by left.
                 rewrite Hk in Hname. injection Hname as ->.
                 exists copy. split; [done|]. split; [done|].
                 apply (read_copy h h' memo'); [|done].
                 intros l y Hl.
                 destruct (Hwhole l y Hl (lookup_empty _))
                   as (Hy & o & o' & Ho & Ho' & Hoo').
                 exists o, o'. split; [done|]. split; [|done].
                 destruct Hc1 as (_ & Hmemo1 & _). apply Hmemo1 in Hl.
                 rewrite Hframe' by lia. by rewrite store_item_other by lia.
              ** apply String.eqb_neq in E.
                 rewrite bool_decide_eq_false_2; [done|].
                 rewrite not_elem_of_cons. split; congruence.
        -- rewrite Hget. apply dict_get_set_ne. congruence.
    + destruct (IH hc acc Hc Hres Hacc)
        as (h' & acc' & Hloop & Hc' & Hframe' & Hacc' & Hget).
      exists h', acc'. split; [done|]. split; [done|]. split; [done|].
      split; [done|].
      intros k. specialize (Hget k).
      destruct (dict_get k item) as [vk|] eqn:Hk; [|done].
      destruct (decide (k ∈ rest)) as [Hin|Hin].
      * rewrite bool_decide_eq_true_2 in Hget by done.
        by rewrite bool_decide_eq_true_2 by by right.
      * rewrite bool_decide_eq_false_2 in Hget by done.
        rewrite bool_decide_eq_false_2; [done|].
        rewrite not_elem_of_cons. split; congruence.
Qed.

Lemma copy_fields_copies h fuel li (item : entries) pick_fields :
  closed h → length h < fuel →
  h !! li = Some (ODict item) →
  ∃ r h' res,
    Heap._copy_fields fuel (Ref li) pick_fields h = Some (Ref r, h') ∧
    (∀ l, l < length h → h' !! l = h !! l) ∧
    length h ≤ r ∧
    h' !! r = Some (ODict res) ∧
    (∀ k v, k ∈ pick_fields → dict_get k item = Some v →
       ∃ v', dict_get k res = Some v' ∧ copy_of h v v' ∧ same_content h v h' v') ∧
    (∀ y o, length h ≤ y → h' !! y = Some o →
       Forall (λ l, length h ≤ l) (obj_refs o)).
Proof.
  intros Hclosed Hfuel Hli.
  pose proof (closed_lookup h Hclosed _ _ Hli) as [Hitem _].
  destruct (copy_loop_copies h fuel item (length h) Hclosed Hfuel Hitem
              pick_fields (h ++ [ODict []]) [])
    as (h' & res & Hloop & ((Hlen & Hframe) & _ & Hnew) & _ & Hres & Hget).
  { by apply copying_alloc_empty; [apply copying_start|]. }
  { rewrite length_app. simpl. lia. }
  { apply alloc_lookup. }
  exists (length h), h', res. split; [|split; [|split; [|split; [|split]]]].
  - unfold Heap._copy_fields. simpl. rewrite Hli. simpl. by rewrite Hloop.
  - done.
  - done.
  - done.
  - intros k v Hk Hv. specialize (Hget k). rewrite Hv in Hget.
    by rewrite bool_decide_eq_true_2 in Hget.
  - intros y o Hy Ho. eapply Forall_impl; [by eapply Hnew|]. simpl. lia.
Qed.

(** C2, amended: the merge has deep-copy semantics for what it takes from
    the type dictionary, and shallow ones only for [dict_item].  On a closed
    heap, with fuel beyond its size, [_type_dict] returns a new dictionary
    and changes no object that was there; a value of [dict_item] is in the
    result as it is, the very object if it is one; a value inherited from
    the type dictionary is in the result as a copy: the atom, or a new
    object that holds the content of the one stored in the type
    dictionary (it stands for the same tree of values); and every object
    made besides the result holds new objects only.  [_copy_fields]
    likewise returns a new dictionary whose picked values are copies of
    those of the course entry, with their content, down to every object
    made. *)
Theorem merge_copies_deeply h fuel li (item : entries) :
  closed h → length h < fuel →
  h !! li = Some (ODict item) →
  (∀ lt (types td : entries) t ltd,
     h !! lt = Some (ODict types) →
     dict_get "type" item = Some (Atom (AStr t)) →
     dict_get t types = Some (Ref ltd) →
     h !! ltd = Some (ODict td) →
     ∃ r h' res,
       Heap._type_dict fuel (Ref li) (Ref lt) h = Some (Ref r, h') ∧
       (∀ l, l < length h → h' !! l = h !! l) ∧
       length h ≤ r ∧
       h' !! r = Some (ODict res) ∧
       (∀ k v, k ≠ "type" → dict_get k item = Some v → dict_get k res = Some v) ∧
       (∀ k v, k ≠ "type" → dict_get k item = None → dict_get k td = Some v →
          ∃ v', dict_get k res = Some v' ∧ copy_of h v v' ∧
                same_content h v h' v') ∧
       (∀ y o, length h ≤ y → y ≠ r → h' !! y = Some o →
          Forall (λ l, length h ≤ l) (obj_refs o))) ∧
  (∀ pick_fields,
     ∃ r h' res,
       Heap._copy_fields fuel (Ref li) pick_fields h = Some (Ref r, h') ∧
       (∀ l, l < length h → h' !! l = h !! l) ∧
       length h ≤ r ∧
       h' !! r = Some (ODict res) ∧
       (∀ k v, k ∈ pick_fields → dict_get k item = Some v →
          ∃ v', dict_get k res = Some v' ∧ copy_of h v v' ∧
                same_content h v h' v') ∧
       (∀ y o, length h ≤ y → h' !! y = Some o →
          Forall (λ l, length h ≤ l) (obj_refs o))).
Proof.
  intros Hclosed Hfuel Hli. split.
  - intros lt types td t ltd Hlt Htype Ht Hltd. by eapply type_dict_copies.
  - intros pick_fields. by apply copy_fields_copies.
Qed.

Lemma example_heap_closed : closed example_heap.
Proof.
  unfold closed, example_heap.
  repeat (apply Forall_cons; split;
          [split; [simpl; repeat constructor; lia | simpl; try compute_done; done]|]).
  apply Forall_nil_2.
Defined.

Lemma merge_copies_deeply_witness :
  (∃ r h' res y,
     Heap._type_dict 7 (Ref 4) (Ref 1) example_heap = Some (Ref r, h') ∧
     h' !! r = Some (ODict res) ∧
     dict_get "key" res = Some (Atom (AStr "e1")) ∧
     dict_get "tags" res = Some (Ref y) ∧ 6 ≤ y ∧
     read 2 h' (Ref y) = Some (VList [VStr "auto"])) ∧
  (∃ r h' res y,
     Heap._copy_fields 7 (Ref 0) ["name"; "assistants"] example_heap = Some (Ref r, h') ∧
     h' !! r = Some (ODict res) ∧
     dict_get "assistants" res = Some (Ref y) ∧ 6 ≤ y ∧
     read 2 h' (Ref y) = Some (VList [VStr "ta1"; VStr "ta2"])).
Proof.
  split.
  - destruct (merge_copies_deeply example_heap 7 4
                [("key", Atom (AStr "e1")); ("type", Atom (AStr "quiz"))]
                example_heap_closed ltac:(simpl; lia) eq_refl) as [H _].
    destruct (H 1 [("quiz", Ref 2)]
                [("max_points", Atom (AInt 10)); ("tags", Ref 3)] "quiz" 2
                eq_refl eq_refl eq_refl eq_refl)
      as (r & h' & res & Hr & _ & _ & Hres & Hitem & Htd & _).
    destruct (Htd "tags" (Ref 3) ltac:(done) eq_refl eq_refl)
      as (v' & Hv' & (y & -> & Hy) & Hcontent).
    exists r, h', res, y. split; [exact Hr|]. split; [exact Hres|].
    split; [exact (Hitem "key" _ ltac:(done) eq_refl)|].
    split; [exact Hv'|]. split; [exact Hy|].
    exact (Hcontent 2 (VList [VStr "auto"]) eq_refl).
  - destruct (merge_copies_deeply example_heap 7 0
                [("name", Atom (AStr "Course")); ("assistants", Ref 5);
                 ("exercise_types", Ref 1)]
                example_heap_closed ltac:(simpl; lia) eq_refl) as [_ H].
    destruct (H ["name"; "assistants"])
      as (r & h' & res & Hr & _ & _ & Hres & Hpick & _).
    destruct (Hpick "assistants" (Ref 5) ltac:(set_solver) eq_refl)
      as (v' & Hv' & (y & -> & Hy) & Hcontent).
    exists r, h', res, y. split; [exact Hr|]. split; [exact Hres|].
    split; [exact Hv'|]. split; [exact Hy|].
    exact (Hcontent 2 (VList [VStr "ta1"; VStr "ta2"]) eq_refl).
Defined.

(** C2 as worded fails: the tags that an exercise inherits from its type
    and the assistants picked from the course entry are new lists, not the
    lists stored in the type dictionary and in the course entry. *)
Lemma merge_shares_no_inherited_object :
  ¬ shares_type_values 7 (Ref 4) (Ref 1) example_heap ∧
  ¬ shares_course_values 7 (Ref 0) ["name"; "assistants"] example_heap.
Proof.
  split.
  - intros H.
    specialize (H _ _ _ _ _ _ _ _ eq_refl eq_refl eq_refl eq_refl eq_refl eq_refl
                  eq_refl "tags" (Ref 3) ltac:(done) eq_refl eq_refl).
    discriminate H.
  - intros H.
    specialize (H _ _ _ _ eq_refl eq_refl eq_refl "assistants" (Ref 5)
                  ltac:(set_solver) eq_refl).
    discriminate H.
Qed.

End object_identity.

(** On the example heap the two readings of [_type_dict] agree: the
    dictionary made on the heap stands for the dictionary computed on the
    trees that its arguments stand for. *)
Example example_heap_agrees :
  ∃ r h' item types result,
    Heap._type_dict 7 (Heap.Ref 4) (Heap.Ref 1) Heap.example_heap = Some (r, h') ∧
    Heap.read 4 Heap.example_heap (Heap.Ref 4) = Some (VDict item) ∧
    Heap.read 4 Heap.example_heap (Heap.Ref 1) = Some types ∧
    _type_dict item types = Ok result ∧
    Heap.read 4 h' r = Some (VDict result).
Proof. do 5 eexists. repeat split; reflexivity. Qed.

(** * Further properties *)

(** ** Outcomes of [_type_dict] *)

(** With a dictionary as [dict_types], [_type_dict] raises [TypeError]
    exactly when the type of [dict_item] is a list or a dictionary,
    [AttributeError] exactly when the type names an entry that is no
    dictionary, and returns otherwise. *)
Theorem type_dict_outcomes (dict_item types : dict) :
  (_type_dict dict_item (VDict types) = Raise TypeError ↔
   ∃ t, dict_get "type" dict_item = Some t ∧ hashable t = false) ∧
  (_type_dict dict_item (VDict types) = Raise AttributeError ↔
   ∃ s tv, dict_get "type" dict_item = Some (VStr s) ∧
           dict_get s types = Some tv ∧ is_dict tv = false) ∧
  ((∃ result, _type_dict dict_item (VDict types) = Ok result) ∨
   _type_dict dict_item (VDict types) = Raise TypeError ∨
   _type_dict dict_item (VDict types) = Raise AttributeError).
Proof.
  rewrite type_dict_unfold.
  destruct (dict_get "type" dict_item) as [t|] eqn:Ht; simpl.
  2:{ split; [|split]; [split; [done | by intros (? & ? & _)]
                       |split; [done | by intros (? & ? & ? & _)]
                       |eauto]. }
  destruct t as [| | |s| |]; simpl;
    try (split; [|split]; [split; [done | by intros (? & [= <-] & ?)]
                          |split; [done | by intros (? & ? & ? & _)]
                          |eauto]);
    try (split; [|split]; [split; [by eexists | done]
                          |split; [done | by intros (? & ? & ? & _)]
                          |eauto]).
  unfold dict_has, dict_subscript.
  destruct (dict_get s types) as [tv|] eqn:Hs; simpl.
  - destruct tv; simpl;
      try (split; [|split]; [split; [done | by intros (? & [= <-] & ?)]
                            |split; [by intros _; eexists _, _ | done]
                            |eauto]).
    split; [|split]; [split; [done | by intros (? & [= <-] & ?)]| |eauto].
    split; [done|]. intros (s' & tv & [= <-] & Hs' & Hd).
    rewrite Hs in Hs'. by injection Hs' as <-.
  - split; [|split]; [split; [done | by intros (? & [= <-] & ?)]| |eauto].
    split; [done|]. intros (s' & tv & [= <-] & Hs' & _). congruence.
Qed.

Lemma dict_del_keys_NoDup {V} k (d : list (string * V)) :
  NoDup d.*1 → NoDup (dict_del k d).*1.
Proof.
  induction d as [|[k' v] d IH]; simpl; [done|].
  intros [Hk' Hnd]%NoDup_cons. destruct (String.eqb k' k); simpl; [auto|].
  apply NoDup_cons. split; [|auto].
  intros Hin. apply Hk'. clear -Hin.
  induction d as [|[k0 v0] d IH]; simpl in *; [done|].
  destruct (String.eqb k0 k); simpl in *.
  - right. auto.
  - apply elem_of_cons in Hin as [->|Hin]; [left | right; auto].
Qed.

Lemma type_named_elem t dict_types td :
  type_named t dict_types = Some td → ∃ k, (k, td) ∈ dict_types.
Proof.
  destruct t; try done. simpl.
  induction dict_types as [|[k d] dts IH]; simpl; [done|].
  destruct (String.eqb k s); simpl.
  - intros [= <-]. exists k. left.
  - intros H. destruct (IH H) as [k' Hk']. exists k'. by right.
Qed.

(** What [_type_dict] returns holds, for every key but ["type"], the value
    of [dict_item] if it has the key, and the value of the inherited
    dictionary otherwise. *)
Lemma type_dict_lookup dict_item dict_types result :
  NoDup dict_item.*1 →
  _type_dict dict_item dict_types = Ok result →
  ∀ k, dict_get k result
       = if String.eqb k "type" then None
         else match dict_get k dict_item with
              | Some v => Some v
              | None => dict_get k (inherited dict_item dict_types)
              end.
Proof.
  intros Hnd. rewrite type_dict_unfold. unfold inherited.
  destruct (dict_get "type" dict_item) as [t|]; simpl.
  2:{ intros [= <-] k. by rewrite get_del_update. }
  destruct dict_types as [| | | | |types]; try done. simpl.
  destruct t as [| | |s| |]; simpl; try done;
    try (intros [= <-] k; by rewrite get_del_update).
  unfold dict_has, dict_subscript.
  destruct (dict_get s types) as [tv|]; simpl.
  - destruct tv; simpl; try done. intros [= <-] k. by rewrite get_del_update.
  - intros [= <-] k. by rewrite get_del_update.
Qed.

(** A dictionary without a ["type"] key comes back from [_type_dict] as it
    is, whatever [dict_types] is; so type inheritance is idempotent: what it
    returned once it returns again, under any types. *)
Theorem type_dict_idempotent (dict_item : dict) (dict_types : list (string * dict))
    (result : dict) :
  NoDup dict_item.*1 →
  Forall (λ kd : string * dict, NoDup kd.2.*1) dict_types →
  _type_dict dict_item (types_value dict_types) = Ok result →
  (∀ other_types, _type_dict result other_types = Ok result) ∧
  (dict_get "type" dict_item = None → result = dict_item).
Proof.
  intros Hnd Htypes Hresult.
  assert (∀ d : dict, NoDup d.*1 → dict_get "type" d = None →
            ∀ types, _type_dict d types = Ok d) as Hpass.
  { intros d Hd Hno types. rewrite type_dict_untyped by done.
    rewrite (dict_update_nil_app [] d) by done.
    simpl. by rewrite dict_del_absent. }
  split.
  - apply Hpass; [|by eapply type_dict_result_no_type].
    revert Hresult. rewrite type_dict_unfold.
    destruct (match dict_get "type" dict_item with Some _ => _ | None => _ end)
      as [[| | | | |base]| |] eqn:Hbase; simpl; try done.
    intros [= <-]. apply dict_del_keys_NoDup, dict_update_keys_NoDup.
    destruct (dict_get "type" dict_item) as [t|]; simpl in Hbase.
    + destruct (dict_contains t _) as [[]| |]; simpl in Hbase; try done.
      * destruct t; try done. simpl in Hbase. unfold dict_subscript in Hbase.
        rewrite types_value_get in Hbase.
        destruct (type_named (VStr s) dict_types) as [td|] eqn:Htd; [|done].
        simpl in Hbase. injection Hbase as <-.
        apply type_named_elem in Htd as [k Hk].
        rewrite Forall_forall in Htypes. exact (Htypes _ Hk).
      * injection Hbase as <-. apply NoDup_nil_2.
    + injection Hbase as <-. apply NoDup_nil_2.
  - intros Hno. rewrite Hpass in Hresult by done. by injection Hresult.
Qed.

Lemma type_dict_idempotent_witness :
  ∃ result,
    _type_dict [("type", VStr "quiz"); ("key", VStr "e1")]
      (types_value [("quiz", [("max_points", VInt 10)])]) = Ok result ∧
    _type_dict result VNone = Ok result.
Proof.
  assert (∃ result,
            _type_dict [("type", VStr "quiz"); ("key", VStr "e1")]
              (types_value [("quiz", [("max_points", VInt 10)])]) = Ok result)
    as [result Hr] by (eexists; reflexivity).
  destruct (type_dict_idempotent
              [("type", VStr "quiz"); ("key", VStr "e1")]
              [("quiz", [("max_points", VInt 10)])] result) as [H _].
  - compute_done.
  - repeat constructor. compute_done.
  - exact Hr.
  - exists result. split; [exact Hr | exact (H VNone)].
Defined.

(** ** The listings: [index] and [course] *)

Lemma filter_fields_returns dict_list pick_fields :
  (∀ entry name, entry ∈ dict_list → name ∈ pick_fields →
     is_Some (dict_get name entry)) →
  ∃ result, _filter_fields dict_list pick_fields = Ok result ∧
            Forall2 (picked_from pick_fields) dict_list result.
Proof.
  induction dict_list as [|entry rest IH]; intros Hall; simpl.
  - exists []. split; [done | constructor].
  - destruct (pick_entry_ok entry pick_fields []) as (e & -> & Hget).
    { intros n Hn. apply Hall; [left | done]. }
    destruct IH as (r & -> & Hr).
    { intros e' n He' Hn. apply Hall; [by right | done]. }
    simpl. exists (e :: r). split; [done|]. constructor; [|done].
    intros k. rewrite Hget. simpl. by destruct (bool_decide _).
Qed.

Lemma filter_fields_raises dict_list pick_fields :
  (∃ entry name, entry ∈ dict_list ∧ name ∈ pick_fields ∧
                 dict_get name entry = None) →
  _filter_fields dict_list pick_fields = Raise KeyError.
Proof.
  intros (entry & name & Hentry & Hname & Hnone).
  induction dict_list as [|e rest IH]; [by apply elem_of_nil in Hentry|].
  simpl. apply elem_of_cons in Hentry as [<-|Hin].
  - by rewrite (pick_entry_missing entry pick_fields [] name).
  - destruct (pick_entry_ok_or_raise e pick_fields) as [[e' ->]| ->]; simpl; [|done].
    by rewrite IH.
Qed.

(** [index] lists every course as it is on the HTML page and never fails
    there.  For an AJAX request it answers [ready] and, for every course in
    order, its ["key"] and ["name"] alone; a single course that lacks one of
    the two makes the whole request raise [KeyError]. *)
Theorem index_lists_courses (E : env) (request : request) :
  (is_ajax request = false →
   index E request
   = Ok (Render "access/ready.html"
           [("courses", VList (VDict <$> config_courses E))])) ∧
  (is_ajax request = true →
   (∀ c name, c ∈ config_courses E → name ∈ ["key"; "name"] →
      is_Some (dict_get name c)) →
   ∃ picked,
     index E request
     = Ok (JsonResponse [("ready", VBool true);
                         ("courses", VList (VDict <$> picked))]) ∧
     Forall2 (picked_from ["key"; "name"]) (config_courses E) picked) ∧
  (is_ajax request = true →
   (∃ c name, c ∈ config_courses E ∧ name ∈ ["key"; "name"] ∧
              dict_get name c = None) →
   index E request = Raise KeyError).
Proof.
  unfold index. split; [|split].
  - by intros ->.
  - intros -> Hall.
    destruct (filter_fields_returns _ _ Hall) as (picked & -> & Hpicked).
    by exists picked.
  - intros -> Hmissing. by rewrite filter_fields_raises.
Qed.

Lemma index_lists_courses_witness :
  ∃ picked,
    index example_env
      {| method := "GET"; is_ajax := true; GET := λ _, None; POST := [];
         build_absolute_uri := λ location, location |}
    = Ok (JsonResponse [("ready", VBool true);
                        ("courses", VList (VDict <$> picked))]) ∧
    length picked = 2.
Proof.
  destruct (index_lists_courses example_env
              {| method := "GET"; is_ajax := true; GET := λ _, None; POST := [];
                 build_absolute_uri := λ location, location |}) as (_ & H & _).
  destruct (H eq_refl) as (picked & Hr & Hall).
  - intros c name Hc Hname. simpl in Hc.
    apply elem_of_cons in Hc as [->|Hc];
      [|apply list_elem_of_singleton in Hc as ->];
      (apply elem_of_cons in Hname as [->|Hname];
       [|apply list_elem_of_singleton in Hname as ->]); by eexists.
  - exists picked. split; [exact Hr|].
    apply Forall2_length in Hall. by rewrite <- Hall.
Defined.

(** For a course that the configuration has, [course] answers an AJAX
    request with the name of the course and, for every exercise in order,
    its ["key"] and ["title"] alone, and raises [KeyError] when the course
    has no ["name"] or an exercise lacks one of the two; the HTML page has
    the course and the exercises as they are, with the address of the JSON
    feed made from the ["key"] of the course entry, and raises [KeyError]
    only when the course entry has no ["key"]. *)
Theorem course_lists_exercises (E : env) (request : request) (course_key : string)
    (c : dict) (exercises : list dict) :
  config_exercises E course_key = (Some c, exercises) →
  (is_ajax request = true →
   ∀ name, dict_get "name" c = Some name →
   (∀ e field, e ∈ exercises → field ∈ ["key"; "title"] →
      is_Some (dict_get field e)) →
   ∃ picked,
     course E request course_key
     = Ok (JsonResponse [("ready", VBool true); ("course_name", name);
                         ("exercises", VList (VDict <$> picked))]) ∧
     Forall2 (picked_from ["key"; "title"]) exercises picked) ∧
  (is_ajax request = true →
   dict_get "name" c = None ∨
   (∃ e field, e ∈ exercises ∧ field ∈ ["key"; "title"] ∧
               dict_get field e = None) →
   course E request course_key = Raise KeyError) ∧
  (is_ajax request = false →
   course E request course_key
   = match dict_get "key" c with
     | Some key =>
         Ok (Render "access/course.html"
               [("course", VDict c);
                ("exercises", VList (VDict <$> exercises));
                ("plus_config_url",
                 VStr (build_absolute_uri request
                         (reverse E "access.views.aplus_json" [key])))])
     | None => Raise KeyError
     end).
Proof.
  intros Hentry. unfold course. rewrite Hentry. unfold dict_subscript.
  split; [|split].
  - intros -> name -> Hall. simpl.
    destruct (filter_fields_returns _ _ Hall) as (picked & -> & Hpicked).
    by exists picked.
  - intros -> [-> | Hmissing]; [done|].
    destruct (dict_get "name" c); simpl; [|done].
    by rewrite filter_fields_raises.
  - intros ->. by destruct (dict_get "key" c).
Qed.

Lemma course_lists_exercises_witness :
  ∃ picked,
    course example_env
      {| method := "GET"; is_ajax := true; GET := λ _, None; POST := [];
         build_absolute_uri := λ location, location |} "c1"
    = Ok (JsonResponse [("ready", VBool true); ("course_name", VStr "Course");
                        ("exercises", VList (VDict <$> picked))]) ∧
    length picked = 1.
Proof.
  destruct (course_lists_exercises example_env
              {| method := "GET"; is_ajax := true; GET := λ _, None; POST := [];
                 build_absolute_uri := λ location, location |}
              "c1" example_course [example_exercise (VStr "e1")] eq_refl)
    as (H & _).
  destruct (H eq_refl (VStr "Course") eq_refl) as (picked & Hr & Hall).
  - intros e field He Hfield. apply list_elem_of_singleton in He as ->.
    apply elem_of_cons in Hfield as [->|Hfield];
      [|apply list_elem_of_singleton in Hfield as ->]; by eexists.
  - exists picked. split; [exact Hr|].
    apply Forall2_length in Hall. by rewrite <- Hall.
Defined.

(** ** The language of an exercise *)

(** The handler of an exercise runs in the language that the query string
    asks for; only when the query has no [lang], or an empty one, the
    language that the course entry names as its ["lang"] is taken, and
    ["en"] when the course names none. *)
Theorem exercise_language (E : env) (request : request)
    (course_key exercise_key : string) (c e : dict) (view_type : value)
    (exview : handler) :
  config_exercise_entry E (VStr course_key) (VStr exercise_key)
    (GET request "lang") = (Some c, Some e) →
  dict_get "view_type" e = Some view_type →
  import_by_path E view_type = Ok exview →
  ∃ lang,
    exercise E request course_key exercise_key
    = exview lang request c e (GET request "post_url") ∧
    (∀ s, GET request "lang" = Some s → s ≠ "" → lang = VStr s) ∧
    (GET request "lang" = None ∨ GET request "lang" = Some "" →
     (∀ s, dict_get "lang" c = Some (VStr s) → lang = VStr s) ∧
     (dict_get "lang" c = None → lang = VStr "en")).
Proof.
  intros Hentry Hvt Himport.
  exists (exercise_lang (GET request "lang") c). split; [|split].
  - unfold exercise. rewrite Hentry. unfold dict_subscript.
    rewrite Hvt. simpl. by rewrite Himport.
  - intros s -> Hs. simpl. by apply String.eqb_neq in Hs as ->.
  - unfold exercise_lang, dict_has, dict_get_default.
    intros [-> | ->]; simpl; (split; [intros s -> | intros ->]); done.
Qed.

Lemma exercise_language_witness :
  ∃ lang,
    exercise example_env
      {| method := "GET"; is_ajax := false;
         GET := λ name, if String.eqb name "lang" then Some "" else None;
         POST := []; build_absolute_uri := λ location, location |}
      "c1" "e1"
    = example_view lang
        {| method := "GET"; is_ajax := false;
           GET := λ name, if String.eqb name "lang" then Some "" else None;
           POST := []; build_absolute_uri := λ location, location |}
        example_course (example_exercise (VStr "e1")) None ∧
    lang = VStr "en".
Proof.
  destruct (exercise_language example_env
              {| method := "GET"; is_ajax := false;
                 GET := λ name, if String.eqb name "lang" then Some "" else None;
                 POST := []; build_absolute_uri := λ location, location |}
              "c1" "e1" example_course (example_exercise (VStr "e1"))
              (VStr "access.types.stdsync.createForm") example_view
              eq_refl eq_refl eq_refl) as (lang & Hr & _ & Hlang).
  exists lang. split; [exact Hr|].
  destruct Hlang as [_ Hnone]; [right; reflexivity|]. apply Hnone. reflexivity.
Defined.

(** ** The stored test result *)

Lemma string_app_assoc (a b c : string) : (a +:+ b) +:+ c = a +:+ (b +:+ c).
Proof.
  induction a as [|x a IH]; [done | exact (f_equal (String x) IH)].
Qed.

Lemma ends_with_slash_app (a : string) : ends_with_slash (a +:+ "/") = true.
Proof.
  induction a as [|x a IH]; [done|].
  change (ends_with_slash (String x (a +:+ "/")) = true).
  simpl. destruct (a +:+ "/") eqn:E; [by destruct a | exact IH].
Qed.

(** A result whose POST answered is what a later request that is no POST
    gets back, letter for letter, as long as nothing else is posted in
    between; reading it any number of times leaves it in place.  A POST
    that raised has stored nothing: the later request gets what it had got
    before that POST. *)
Theorem test_result_round_trip (E : env) (now later : string)
    (post get : request) (fs : files) :
  method post = "POST" →
  method get ≠ "POST" →
  json_dumps E (dict_set (POST post) "time" (VStr now)) ≠ "" →
  let stored := (test_result E now post fs).2 in
  (∀ answer, (test_result E now post fs).1 = Ok answer →
     (test_result E later get stored).1
     = Ok (HttpResponse
             (VStr (json_dumps E (dict_set (POST post) "time" (VStr now))))) ∧
     (test_result E later get stored).2 = stored) ∧
  (∀ e, (test_result E now post fs).1 = Raise e →
     test_result E later get stored = test_result E later get fs).
Proof.
  intros Hpost Hget Hdump. unfold test_result. rewrite Hpost. simpl.
  apply String.eqb_neq in Hget as ->.
  destruct (writable fs _) eqn:Hw; simpl; (split; [intros answer Hanswer|done]);
    [|done].
  unfold lookup, files_lookup. simpl.
  rewrite lookup_insert_eq. by apply String.eqb_neq in Hdump as ->.
Qed.

Lemma test_result_round_trip_witness :
  (test_result example_env "2014-05-05 12:05:00" (example_request "GET")
     (test_result example_env "2014-05-05 12:00:00" (example_request "POST")
        (disk ∅)).2).1
  = Ok (HttpResponse (VStr "2014-05-05 12:00:00")) ∧
  test_result example_env "2014-05-05 12:05:00" (example_request "GET")
    (test_result example_env "2014-05-05 12:00:00" (example_request "POST")
       (read_only_disk ∅)).2
  = test_result example_env "2014-05-05 12:05:00" (example_request "GET")
      (read_only_disk ∅).
Proof.
  split.
  - destruct (test_result_round_trip example_env "2014-05-05 12:00:00"
                "2014-05-05 12:05:00" (example_request "POST") (example_request "GET")
                (disk ∅))
      as [H _]; [reflexivity | discriminate | discriminate |].
    destruct (H (JsonResponse [("success", VBool true)]) eq_refl) as [H1 _].
    exact H1.
  - destruct (test_result_round_trip example_env "2014-05-05 12:00:00"
                "2014-05-05 12:05:00" (example_request "POST") (example_request "GET")
                (read_only_disk ∅))
      as [_ H]; [reflexivity | discriminate | discriminate |].
    exact (H OSError eq_refl).
Defined.

(** Every request that is no POST, whatever its method, only reads: the
    answer depends on the stored file alone, not on the request or the
    time, and no file is written. *)
Theorem test_result_reads_only (E : env) (now now' : string)
    (request request' : request) (fs : files) :
  method request ≠ "POST" → method request' ≠ "POST" →
  test_result E now request fs = test_result E now' request' fs ∧
  (test_result E now request fs).2 = fs.
Proof.
  intros Hr Hr'. unfold test_result.
  apply String.eqb_neq in Hr as ->. by apply String.eqb_neq in Hr' as ->.
Qed.

Lemma test_result_reads_only_witness :
  test_result example_env "2014-05-05 12:00:00" (example_request "HEAD") (disk ∅)
  = test_result example_env "2014-05-05 12:05:00" (example_request "DELETE") (disk ∅).
Proof.
  destruct (test_result_reads_only example_env "2014-05-05 12:00:00"
              "2014-05-05 12:05:00" (example_request "HEAD")
              (example_request "DELETE") (disk ∅)) as [H _];
    [discriminate | discriminate | exact H].
Defined.

(** It makes no difference to [test_result] whether SUBMISSION_PATH is
    written with a slash at its end: the file is the same one. *)
Theorem test_result_trailing_slash (E E' : env) (now : string)
    (request : request) (fs : files) :
  SUBMISSION_PATH E ≠ "" →
  ends_with_slash (SUBMISSION_PATH E) = false →
  SUBMISSION_PATH E' = SUBMISSION_PATH E +:+ "/" →
  json_dumps E' = json_dumps E →
  test_result E' now request fs = test_result E now request fs.
Proof.
  intros Hne Hslash Hpath Hdumps.
  assert (os_path_join (SUBMISSION_PATH E') "test-result"
          = os_path_join (SUBMISSION_PATH E) "test-result") as Hjoin.
  { unfold os_path_join. rewrite Hpath, Hslash, ends_with_slash_app.
    apply String.eqb_neq in Hne as ->.
    destruct (SUBMISSION_PATH E) as [|x a] eqn:Ea; [done|]. simpl.
    by rewrite string_app_assoc. }
  unfold test_result. by rewrite Hjoin, Hdumps.
Qed.

Lemma test_result_trailing_slash_witness :
  test_result
    {| config_courses := []; config_exercises := config_exercises example_env;
       config_exercise_entry := config_exercise_entry example_env;
       config_course_entry := config_course_entry example_env;
       reverse := reverse example_env; import_by_path := import_by_path example_env;
       qlength := 0; STATIC_URL := "/static/"; SUBMISSION_PATH := "/srv/uploads/";
       py_str := py_str example_env; json_dumps := json_dumps example_env |}
    "2014-05-05 12:00:00" (example_request "POST") (disk ∅)
  = test_result example_env "2014-05-05 12:00:00" (example_request "POST") (disk ∅).
Proof.
  apply (test_result_trailing_slash example_env); [discriminate | reflexivity..].
Defined.

(** ** What an entry of the feed holds *)

Lemma Forall2_elem_of_l {A B} (P : A → B → Prop) l r :
  Forall2 P l r → Forall2 (λ x y, x ∈ l ∧ P x y) l r.
Proof.
  induction 1 as [|x y l r Hxy _ IH]; constructor.
  - split; [left | done].
  - eapply Forall2_impl; [exact IH|]. intros x' y' [Hin HP].
    split; [by right | done].
Qed.

Lemma inherited_same_type (d d' : dict) types :
  dict_get "type" d = dict_get "type" d' → inherited d types = inherited d' types.
Proof. unfold inherited. by intros ->. Qed.

Lemma child_entry_lookup E request course o fields children typed :
  NoDup o.*1 →
  exercise_fields E request course o = Ok fields →
  _type_dict (dict_set (dict_update fields o) "children" (VList children))
    (exercise_types course) = Ok typed →
  ∀ k, dict_get k typed
       = if String.eqb k "type" then None
         else if String.eqb k "children" then Some (VList children)
         else match dict_get k o with
              | Some v => Some v
              | None =>
                  match dict_get k fields with
                  | Some v => Some v
                  | None => dict_get k (inherited o (exercise_types course))
                  end
              end.
Proof.
  intros Hnd Hfields Htyped k.
  pose proof (exercise_fields_keys _ _ _ _ _ Hfields) as [Hndf Hnotype].
  rewrite (type_dict_lookup _ _ _ ltac:(by apply dict_set_keys_NoDup,
                                          dict_update_keys_NoDup) Htyped).
  destruct (String.eqb k "type") eqn:Ek; [done|].
  rewrite dict_get_set. rewrite (String.eqb_sym "children" k).
  destruct (String.eqb k "children") eqn:Ec; [done|].
  rewrite dict_get_update by done.
  destruct (dict_get k o) as [v|]; [done|].
  destruct (dict_get k fields) as [v|]; [done|].
  f_equal. apply inherited_same_type.
  rewrite dict_get_set_ne by done. rewrite dict_get_update by done.
  rewrite Hnotype. by destruct (dict_get "type" o).
Qed.

(** The entry that the feed has for a child with a ["key"] is layered: the
    fields of the child itself come first, then the fields generated for it
    (title, description and address), then those of its exercise type; its
    ["children"] is always the list built from its own children, and it has
    no ["type"].  Children without a ["key"] have no entry. *)
Theorem children_entries_layered (E : env) (request : request) (course d : dict)
    (l children : list value) :
  dict_get "children" d = Some (VList l) →
  (∀ o, VDict o ∈ l → NoDup o.*1) →
  children_recursion E request course (VDict d) = Ok children →
  Forall2
    (λ child entry,
       ∃ o fields grandchildren typed,
         child = VDict o ∧ entry = VDict typed ∧
         exercise_fields E request course o = Ok fields ∧
         children_recursion E request course child = Ok grandchildren ∧
         ∀ k, dict_get k typed
              = if String.eqb k "type" then None
                else if String.eqb k "children" then Some (VList grandchildren)
                else match dict_get k o with
                     | Some v => Some v
                     | None =>
                         match dict_get k fields with
                         | Some v => Some v
                         | None => dict_get k (inherited o (exercise_types course))
                         end
                     end)
    (List.filter has_key l) children.
Proof.
  intros Hd Hnd. rewrite children_recursion_unfold, Hd.
  destruct (forallb is_dict l); [|done].
  rewrite for_each_Ok. intros Hall%Forall2_elem_of_l.
  eapply Forall2_impl; [exact Hall|]. clear Hall.
  intros child entry [Hin Hentry].
  apply list_elem_of_In, filter_In in Hin as [Hin%list_elem_of_In _].
  destruct child as [| | | | |o]; try done.
  apply child_entry_Ok in Hentry
    as (fields & grandchildren & typed & Hf & Hg & Ht & ->).
  exists o, fields, grandchildren, typed. repeat (split; [done|]).
  by apply (child_entry_lookup E request); [apply Hnd|..].
Qed.

Lemma children_entries_layered_witness :
  ∃ entry,
    children_recursion example_env (example_request "GET") example_course
      (VDict [("key", VStr "m1"); ("type", VStr "week");
              ("children",
               VList [VDict [("key", VStr "e1"); ("config", VStr "e1.yaml");
                             ("type", VStr "quiz")];
                      VDict [("title", VStr "A heading")]])])
    = Ok [VDict entry] ∧
    dict_get "max_points" entry = Some (VInt 10) ∧
    dict_get "title" entry = Some (VStr "Exercise").
Proof.
  assert (∃ children,
            children_recursion example_env (example_request "GET") example_course
              (VDict [("key", VStr "m1"); ("type", VStr "week");
                      ("children",
                       VList [VDict [("key", VStr "e1"); ("config", VStr "e1.yaml");
                                     ("type", VStr "quiz")];
                              VDict [("title", VStr "A heading")]])])
            = Ok children) as [children Hc] by (eexists; reflexivity).
  pose proof (children_entries_layered example_env (example_request "GET")
                example_course
                [("key", VStr "m1"); ("type", VStr "week");
                 ("children",
                  VList [VDict [("key", VStr "e1"); ("config", VStr "e1.yaml");
                                ("type", VStr "quiz")];
                         VDict [("title", VStr "A heading")]])]
                [VDict [("key", VStr "e1"); ("config", VStr "e1.yaml");
                        ("type", VStr "quiz")];
                 VDict [("title", VStr "A heading")]]
                children eq_refl) as H.
  specialize (H ltac:(intros o Ho;
                      apply elem_of_cons in Ho as [[= ->]|Ho];
                      [|apply list_elem_of_singleton in Ho as [= ->]];
                      compute_done) Hc).
  simpl in H. inversion H as [|child entry l' r' He Hrest]; subst.
  inversion Hrest; subst.
  destruct He as (o & fields & grandchildren & typed & [= <-] & -> & [= <-] & _ & Hk).
  exists typed. split; [exact Hc|].
  split; [exact (Hk "max_points") | exact (Hk "title")].
Defined.

(** The children list of the feed has the keys of the children that have
    one, in their order: a child is never dropped for anything but a
    missing ["key"], never reordered and never renamed, and a parent
    without ["children"] has the empty list. *)
Theorem children_keys_in_order (E : env) (request : request) (course d : dict)
    (children : list value) :
  (∀ l o, dict_get "children" d = Some (VList l) → VDict o ∈ l → NoDup o.*1) →
  children_recursion E request course (VDict d) = Ok children →
  match dict_get "children" d with
  | None => children = []
  | Some v =>
      ∃ l, v = VList l ∧
        entry_key <$> children = entry_key <$> List.filter has_key l ∧
        Forall is_Some (entry_key <$> children)
  end.
Proof.
  intros Hnd. rewrite children_recursion_unfold.
  destruct (dict_get "children" d) as [[| | | |l|]|] eqn:Hd; try done;
    [|by intros [= <-]].
  destruct (forallb is_dict l); [|done].
  rewrite for_each_Ok. intros Hall%Forall2_elem_of_l.
  exists l. split; [done|].
  assert (Forall2 (λ child entry, entry_key entry = entry_key child ∧
                                  is_Some (entry_key entry))
            (List.filter has_key l) children) as Hkeys.
  { eapply Forall2_impl; [exact Hall|]. clear Hall.
    intros child entry [Hin Hentry].
    apply list_elem_of_In, filter_In in Hin as [Hin%list_elem_of_In Hkey].
    destruct child as [| | | | |o]; try done.
    apply child_entry_Ok in Hentry
      as (fields & grandchildren & typed & Hf & _ & Ht & ->).
    simpl in *. apply dict_has_get in Hkey as [key Hkey].
    pose proof (exercise_fields_keys _ _ _ _ _ Hf) as [Hndf _].
    rewrite Hkey.
    erewrite type_dict_keeps; [by eauto| | |
      |exact Ht]; [by apply dict_set_keys_NoDup, dict_update_keys_NoDup|done|].
    rewrite dict_get_set_ne by done.
    apply dict_get_update_present; [by eapply Hnd | done]. }
  clear Hall. induction Hkeys as [|child entry l' r' [Heq Hsome] _ [IH1 IH2]].
  - split; [done | constructor].
  - rewrite !fmap_cons. split; [by rewrite Heq, IH1 | by constructor].
Qed.

Lemma children_keys_in_order_witness :
  ∃ children,
    children_recursion example_env (example_request "GET") example_course
      (VDict [("key", VStr "m1");
              ("children",
               VList [VDict [("key", VStr "e1"); ("config", VStr "e1.yaml")];
                      VDict [("title", VStr "A heading")]])])
    = Ok children ∧
    entry_key <$> children = [Some (VStr "e1")].
Proof.
  assert (∃ children,
            children_recursion example_env (example_request "GET") example_course
              (VDict [("key", VStr "m1");
                      ("children",
                       VList [VDict [("key", VStr "e1"); ("config", VStr "e1.yaml")];
                              VDict [("title", VStr "A heading")]])])
            = Ok children) as [children Hc] by (eexists; reflexivity).
  pose proof (children_keys_in_order example_env (example_request "GET")
                example_course
                [("key", VStr "m1");
                 ("children",
                  VList [VDict [("key", VStr "e1"); ("config", VStr "e1.yaml")];
                         VDict [("title", VStr "A heading")]])]
                children) as H.
  specialize (H ltac:(intros l o [= <-] Ho;
                      apply elem_of_cons in Ho as [[= ->]|Ho];
                      [|apply list_elem_of_singleton in Ho as [= ->]];
                      compute_done) Hc).
  simpl in H. destruct H as (l & [= <-] & Hkeys & _).
  exists children. split; [exact Hc | exact Hkeys].
Defined.

(** The entry that the feed has for a module holds the fields of the module
    first and those of its module type second; its ["children"] is the list
    built from the children of the module, never the raw list of the module
    nor a ["children"] of the module type, and it has no ["type"]. *)
Theorem modules_layered (E : env) (request : request) (course_key : string)
    (course : dict) (l : list value) (data : dict) :
  config_course_entry E course_key = Some course →
  dict_get "modules" course = Some (VList l) →
  (∀ m, VDict m ∈ l → NoDup m.*1) →
  aplus_json E request course_key = Ok (JsonResponse data) →
  ∃ modules,
    dict_get "modules" data = Some (VList modules) ∧
    Forall2
      (λ m entry,
         ∃ md typed children,
           m = VDict md ∧ entry = VDict typed ∧
           children_recursion E request course m = Ok children ∧
           ∀ k, dict_get k typed
                = if String.eqb k "children" then Some (VList children)
                  else if String.eqb k "type" then None
                  else match dict_get k md with
                       | Some v => Some v
                       | None => dict_get k (inherited md (module_types course))
                       end)
      l modules.
Proof.
  intros Hentry Hmodules Hnd. unfold aplus_json. rewrite Hentry.
  unfold dict_has, dict_subscript. rewrite Hmodules.
  cbn -[for_each module_entry _copy_fields course_fields].
  destruct (for_each (module_entry E request course) l) as [modules| |] eqn:Hm;
    try done.
  cbn -[_copy_fields course_fields]. intros [= <-].
  exists modules. split; [apply dict_get_set_eq|].
  apply for_each_Ok, Forall2_elem_of_l in Hm.
  eapply Forall2_impl; [exact Hm|]. clear Hm.
  intros m entry [Hin Hentry']. unfold module_entry in Hentry'.
  destruct m as [| | | | |md]; try done.
  cbn -[children_recursion _type_dict] in Hentry'.
  destruct (_type_dict md (module_types course)) as [typed| |] eqn:Ht; try done.
  cbn -[children_recursion _type_dict] in Hentry'.
  destruct (children_recursion E request course (VDict md)) as [children| |] eqn:Hc;
    try done.
  injection Hentry' as <-.
  exists md, (dict_set typed "children" (VList children)), children.
  repeat (split; [done|]). intros k.
  rewrite dict_get_set. rewrite (String.eqb_sym "children" k).
  destruct (String.eqb k "children"); [done|].
  by apply type_dict_lookup; [apply Hnd|].
Qed.

Lemma modules_layered_witness :
  ∃ data modules,
    aplus_json example_env (example_request "GET") "c1" = Ok (JsonResponse data) ∧
    dict_get "modules" data = Some (VList modules) ∧
    length modules = 1.
Proof.
  assert (∃ data, aplus_json example_env (example_request "GET") "c1"
                  = Ok (JsonResponse data)) as [data Hd]
    by (eexists; reflexivity).
  destruct (modules_layered example_env (example_request "GET") "c1"
              example_course
              [VDict [("key", VStr "m1"); ("type", VStr "week");
                      ("children",
                       VList [VDict [("key", VStr "e1");
                                     ("config", VStr "e1.yaml");
                                     ("type", VStr "quiz")];
                              VDict [("title", VStr "A heading")]])]]
              data eq_refl eq_refl) as (modules & Hm & Hall).
  - intros m Hm. apply list_elem_of_singleton in Hm as [= ->]. compute_done.
  - exact Hd.
  - exists data, modules. split; [exact Hd|]. split; [exact Hm|].
    apply Forall2_length in Hall. by rewrite <- Hall.
Defined.

(** ** What the feed depends on *)

Lemma for_each_ext {A B} (f g : A → outcome B) l :
  (∀ x, x ∈ l → f x = g x) → for_each f l = for_each g l.
Proof.
  induction l as [|x l IH]; intros Hfg; simpl; [done|].
  rewrite (Hfg x) by left. rewrite IH; [done|].
  intros x' Hx'. apply Hfg. by right.
Qed.

(** Of the request, [aplus_json] uses [build_absolute_uri] and nothing
    else: two requests that agree on it (whatever their methods, query
    strings and forms are) get the same answer. *)
Theorem aplus_json_uses_only_uri (E : env) (request request' : request)
    (course_key : string) :
  (∀ location,
     build_absolute_uri request location = build_absolute_uri request' location) →
  aplus_json E request course_key = aplus_json E request' course_key.
Proof.
  intros Huri. unfold aplus_json.
  destruct (config_course_entry E course_key) as [course|]; [|done].
  assert (∀ o, exercise_fields E request course o
               = exercise_fields E request' course o) as Hfields.
  { intros o. unfold exercise_fields, dict_subscript.
    destruct (dict_has "config" o).
    - destruct (dict_get "key" course); simpl; [|done].
      destruct (dict_get "key" o); simpl; [|done].
      destruct (config_exercise_entry _ _ _ _).2 as [exercise|]; [|done].
      destruct (dict_get "key" exercise); simpl; [|done]. by rewrite Huri.
    - destruct (dict_has "static_content" o); [|done].
      destruct (dict_get "key" course); simpl; [|done].
      destruct (dict_get "static_content" o); simpl; [|done]. by rewrite Huri. }
  assert (∀ d, children_recursion E request course (VDict d)
               = children_recursion E request' course (VDict d)) as Hchildren.
  { induction d as [d IH] using children_ind.
    rewrite !children_recursion_unfold.
    destruct (dict_get "children" d) as [[| | | |l|]|] eqn:Hd; try done.
    destruct (forallb is_dict l); [|done].
    apply for_each_ext. intros o Ho.
    apply list_elem_of_In, filter_In in Ho as [Ho%list_elem_of_In _].
    destruct o as [| | | | |od]; try done.
    unfold child_entry. by rewrite Hfields, (IH l od eq_refl Ho). }
  destruct (dict_has "modules" course); [|done].
  destruct (dict_subscript "modules" course) as [ms| |]; try done.
  destruct ms as [| | | |l|]; try done.
  cbn -[for_each module_entry _copy_fields course_fields].
  rewrite (for_each_ext (module_entry E request course)
             (module_entry E request' course)); [done|].
  intros m _. unfold module_entry. destruct m as [| | | | |md]; try done.
  cbn -[children_recursion _type_dict]. by rewrite Hchildren.
Qed.

Lemma aplus_json_uses_only_uri_witness :
  aplus_json example_env (example_request "GET") "c1"
  = aplus_json example_env (example_request "POST") "c1".
Proof.
  apply (aplus_json_uses_only_uri example_env (example_request "GET")
           (example_request "POST") "c1").
  intros location. reflexivity.
Defined.

(** ** The configuration is never changed *)

Section cached_configuration.
Import Heap.
Implicit Types h : heap.

Lemma store_item_last h (d : entries) k v :
  store_item (length h) k v (h ++ [ODict d]) = h ++ [ODict (dict_set d k v)].
Proof.
  unfold store_item. rewrite alloc_lookup.
  rewrite insert_app_r_alt by lia. by rewrite Nat.sub_diag.
Qed.

Lemma update_last h (acc d : entries) :
  update (length h) d (h ++ [ODict acc]) = h ++ [ODict (dict_update acc d)].
Proof.
  revert acc. unfold update, dict_update.
  induction d as [|[k v] d IH]; intros acc; simpl; [done|].
  by rewrite store_item_last, IH.
Qed.

(** Without a type that names an entry of [dict_types] the merge is a
    shallow copy and needs no fuel: the result is one new dictionary, put
    after the objects that were there, and its values are the very values
    of [dict_item], objects included. *)
Theorem type_dict_shallow_without_type h fuel li lt (item : entries) :
  h !! li = Some (ODict item) →
  NoDup item.*1 →
  (dict_get "type" item = None ∨
   ∃ a types, dict_get "type" item = Some (Atom a) ∧
              h !! lt = Some (ODict types) ∧
              contains (Atom a) types = Some false) →
  ∃ res : entries,
    Heap._type_dict fuel (Ref li) (Ref lt) h
    = Some (Ref (length h), h ++ [ODict res]) ∧
    ∀ k, dict_get k res = if String.eqb k "type" then None else dict_get k item.
Proof.
  intros Hli Hnd Htype.
  exists (dict_del "type" (dict_update [] item)). split.
  - assert (∀ d : entries,
              (if bool_decide (is_Some (dict_get "type" d))
               then <[length h:=ODict (dict_del "type" d)]> (h ++ [ODict d])
               else h ++ [ODict d]) = h ++ [ODict (dict_del "type" d)]) as Hdel.
    { intros d. case_bool_decide as Hhas.
      - rewrite insert_app_r_alt by lia. by rewrite Nat.sub_diag.
      - rewrite dict_del_absent; [done|].
        destruct (dict_get "type" d) eqn:E; [|done]. destruct Hhas. by eexists. }
    unfold Heap._type_dict. simpl. rewrite Hli. simpl.
    destruct Htype as [-> | (a & types & -> & Hlt & Hfound)].
    + simpl. rewrite alloc_lookup. simpl.
      rewrite update_last, alloc_lookup. simpl. by rewrite Hdel.
    + simpl. rewrite lookup_app_l by by eapply lookup_lt_Some.
      rewrite Hlt. simpl. simpl in Hfound. rewrite Hfound.
      simpl. rewrite alloc_lookup. simpl.
      rewrite update_last, alloc_lookup. simpl. by rewrite Hdel.
  - intros k. rewrite get_del_update by done.
    destruct (String.eqb k "type"); [done|]. by destruct (dict_get k item).
Qed.

Lemma type_dict_shallow_without_type_witness :
  ∃ res : entries,
    Heap._type_dict 0 (Ref 0) (Ref 1) example_heap
    = Some (Ref 6, example_heap ++ [ODict res]) ∧
    dict_get "assistants" res = Some (Ref 5).
Proof.
  destruct (type_dict_shallow_without_type example_heap 0 0 1
              [("name", Atom (AStr "Course")); ("assistants", Ref 5);
               ("exercise_types", Ref 1)] eq_refl) as (res & Hr & Hk).
  - compute_done.
  - left. reflexivity.
  - exists res. split; [exact Hr | exact (Hk "assistants")].
Defined.

Lemma copy_loop_sound h fuel (item : entries) result :
  closed h →
  Forall (λ l, l < length h) (obj_refs (ODict item)) →
  ∀ pick_fields hc h' (acc : entries),
    copying h ∅ hc →
    length h ≤ result < length hc →
    hc !! result = Some (ODict acc) →
    copy_loop fuel item pick_fields result hc = Some h' →
    copying h ∅ h' ∧ ∃ acc' : entries, h' !! result = Some (ODict acc').
Proof.
  intros Hclosed Hitem.
  induction pick_fields as [|name rest IH]; intros hc h' acc Hc Hres Hacc; simpl.
  - intros [= <-]. eauto.
  - destruct (dict_get name item) as [v|] eqn:Hname; [|by eapply IH].
    destruct (deepcopy fuel v ∅ hc) as [[[copy memo'] h1]|] eqn:Ecopy; [|done].
    simpl.
    pose proof (deepcopy_sound h Hclosed fuel v ∅ hc _ Hc
                  (dict_get_refs _ _ _ _ Hitem Hname) Ecopy) as Hpost.
    pose proof (copy_post_refs _ _ _ _ _ Hpost) as Hrefs.
    destruct Hpost as (Hc1 & _ & (Hlen1 & Hframe1) & _). simpl in *.
    assert (h1 !! result = Some (ODict acc)) as Hacc1
      by (rewrite Hframe1; [done | lia]).
    apply (IH _ _ (dict_set acc name copy)).
    + eapply (copying_store _ _ h1 _ result copy);
        eauto using store_item_length, copying_forget; try lia.
      * intros l Hne. by apply store_item_other.
      * intros o Ho. eapply (store_item_refs _ result name copy h1 result);
          [done| |exact Ho].
        intros o' Ho'. destruct Hc1 as (_ & _ & Hnew). eapply Hnew; [|done]. lia.
    + rewrite store_item_length. lia.
    + by apply store_item_at.
Qed.

(** The views hold on to one configuration for several requests, and the
    merge never changes it: on a closed heap, whenever [_type_dict] or
    [_copy_fields] returns, with any fuel, every object that was on the
    heap is as it was and the result is a dictionary made by the call. *)
Theorem merge_never_changes_configuration h fuel li lt :
  closed h → li < length h → lt < length h →
  (∀ r h',
     Heap._type_dict fuel (Ref li) (Ref lt) h = Some (r, h') →
     (∀ l, l < length h → h' !! l = h !! l) ∧
     ∃ y res, r = Ref y ∧ length h ≤ y ∧ h' !! y = Some (ODict res)) ∧
  (∀ pick_fields r h',
     Heap._copy_fields fuel (Ref li) pick_fields h = Some (r, h') →
     (∀ l, l < length h → h' !! l = h !! l) ∧
     ∃ res, r = Ref (length h) ∧ h' !! length h = Some (ODict res)).
Proof.
  intros Hclosed Hli Hlt. split.
  - intros r h'. unfold Heap._type_dict. simpl.
    destruct (h !! li) as [[item|]|] eqn:Eli; try done. simpl.
    pose proof (closed_lookup h Hclosed _ _ Eli) as [Hitem Hnd].
    destruct (match dict_get "type" item with Some _ => _ | None => _ end)
      as [[base h2]|] eqn:Ebase; [|done]. simpl.
    assert ((∀ l, l < length h → h2 !! l = h !! l) ∧
            ∀ b, base = Ref b → length h ≤ b < length h2) as [Hframe2 Hbase].
    { assert ((base, h2) = (Ref (length h), h ++ [ODict []]) →
              (∀ l, l < length h → h2 !! l = h !! l) ∧
              ∀ b, base = Ref b → length h ≤ b < length h2) as Hfresh.
      { intros [= -> ->]. split.
        - intros l Hl. by rewrite lookup_app_l.
        - intros b [= <-]. rewrite length_app. simpl. lia. }
      destruct (dict_get "type" item) as [t|]; [|apply Hfresh; congruence].
      rewrite lookup_app_l in Ebase by done.
      destruct (h !! lt) as [[types|]|] eqn:Elt; try done. simpl in Ebase.
      destruct (contains t types) as [[]|]; simpl in Ebase; try done;
        [|apply Hfresh; congruence].
      destruct (getitem t types) as [tv|] eqn:Etv; [|done]. simpl in Ebase.
      destruct (deepcopy fuel tv ∅ (h ++ [ODict []])) as [[[copy memo'] h3]|] eqn:Ecopy;
        [|done].
      simpl in Ebase. injection Ebase as -> ->.
      assert (Forall (λ l, l < length h) (val_refs tv)) as Htv.
      { pose proof (closed_lookup h Hclosed _ _ Elt) as [Htypes _].
        destruct t as [[| | |s]|]; try done. simpl in Etv.
        by eapply dict_get_refs. }
      pose proof (deepcopy_sound h Hclosed fuel tv ∅ (h ++ [ODict []]) _
                    ltac:(by apply copying_alloc_empty; [apply copying_start|])
                    Htv Ecopy) as Hpost.
      pose proof (copy_post_refs _ _ _ _ _ Hpost) as Hrefs.
      destruct Hpost as (_ & _ & (Hlen & Hframe) & _). simpl in *. split.
      - intros l Hl. rewrite Hframe by (rewrite length_app; simpl; lia).
        by rewrite lookup_app_l.
      - intros b ->. simpl in Hrefs. by rewrite Forall_singleton in Hrefs. }
    destruct base as [|b]; [done|].
    destruct (Hbase b eq_refl) as [Hb1 Hb2].
    simpl. destruct (h2 !! b) as [[d|]|] eqn:Eb; try done. simpl.
    destruct (update_at b item d h2 Eb) as (Hupd & Hlen3 & Hother3).
    rewrite Hupd. simpl. intros [= <- <-]. split.
    + intros l Hl. case_bool_decide.
      * rewrite list_lookup_insert_ne by lia. rewrite Hother3 by lia. auto.
      * rewrite Hother3 by lia. auto.
    + case_bool_decide.
      * eexists b, _. split; [done|]. split; [lia|].
        apply list_lookup_insert_eq. lia.
      * by eexists b, _.
  - intros pick_fields r h'. unfold Heap._copy_fields. simpl.
    destruct (h !! li) as [[item|]|] eqn:Eli; try done. simpl.
    pose proof (closed_lookup h Hclosed _ _ Eli) as [Hitem _].
    destruct (copy_loop fuel item pick_fields (length h) (h ++ [ODict []]))
      as [h2|] eqn:Eloop; [|done].
    simpl. intros [= <- <-].
    destruct (copy_loop_sound h fuel item (length h) Hclosed Hitem
                pick_fields (h ++ [ODict []]) h2 [])
      as (((Hlen & Hframe) & _ & _) & res & Hres); [| | |exact Eloop|].
    + by apply copying_alloc_empty; [apply copying_start|].
    + rewrite length_app. simpl. lia.
    + apply alloc_lookup.
    + split; [done|]. by exists res.
Qed.

Lemma merge_never_changes_configuration_witness :
  ∃ r h',
    Heap._type_dict 7 (Ref 4) (Ref 1) example_heap = Some (r, h') ∧
    ∀ l, l < 6 → h' !! l = example_heap !! l.
Proof.
  assert (∃ r h', Heap._type_dict 7 (Ref 4) (Ref 1) example_heap = Some (r, h'))
    as (r & h' & Hr) by (do 2 eexists; reflexivity).
  destruct (merge_never_changes_configuration example_heap 7 4 1
              example_heap_closed ltac:(simpl; lia) ltac:(simpl; lia)) as [H _].
  destruct (H r h' Hr) as [Hframe _].
  exists r, h'. split; [exact Hr | exact Hframe].
Defined.

End cached_configuration.

(** ** Calls of the build hook *)

Lemma bind_keywords_bound unbound bound kwargs keywords :
  (∃ k, k ∈ keywords.*1 ∧ is_Some (dict_get k bound)) →
  bind_keywords unbound bound kwargs keywords = Raise TypeError.
Proof.
  revert unbound bound kwargs.
  induction keywords as [|[k0 v0] keywords IH]; intros unbound bound kwargs.
  - intros (k & Hk & _). by apply elem_of_nil in Hk.
  - intros (k & Hk & Hbound). simpl. unfold dict_has.
    destruct (dict_get k0 bound) as [v|] eqn:Hk0; [done|].
    simpl in Hk. apply elem_of_cons in Hk as [->|Hk].
    { rewrite Hk0 in Hbound. by destruct Hbound. }
    case_bool_decide.
    + apply IH. exists k. split; [done|].
      rewrite dict_get_set_ne; [done|]. intros ->. rewrite Hk0 in Hbound.
      by destruct Hbound.
    + apply IH. eauto.
Qed.

Lemma bind_keywords_raises unbound bound kwargs keywords e :
  bind_keywords unbound bound kwargs keywords = Raise e → e = TypeError.
Proof.
  revert unbound bound kwargs.
  induction keywords as [|[k v] keywords IH]; intros unbound bound kwargs; simpl;
    [done|].
  destruct (dict_has k bound); [by intros [= <-]|].
  case_bool_decide; apply IH.
Qed.

Lemma bind_keywords_typed unbound bound kwargs keywords :
  bind_keywords unbound bound kwargs keywords ≠ IllTyped.
Proof.
  revert unbound bound kwargs.
  induction keywords as [|[k v] keywords IH]; intros unbound bound kwargs; simpl;
    [done|].
  destruct (dict_has k bound); [done|].
  case_bool_decide; apply IH.
Qed.

(** No call of the template reports a build: whatever the arguments are,
    given by position or by name, [build] either raises [TypeError] or
    returns [None]; and a parameter given both by position and by name
    raises [TypeError]. *)
Theorem build_call_outcomes (args : list value) (keywords : dict) :
  (call_build args keywords = Ok VNone ∨
   call_build args keywords = Raise TypeError) ∧
  ((∃ k, k ∈ keywords.*1 ∧ k ∈ take (length args) build_parameters) →
   call_build args keywords = Raise TypeError).
Proof.
  unfold call_build. rewrite bind_positional_spec.
  case_decide as Hlen; [|by split; [right | intros _]].
  cbn -[bind_keywords build_parameters zip take drop].
  assert (∀ p, p ∈ take (length args) build_parameters →
               is_Some (dict_get p (zip (take (length args) build_parameters) args)))
    as Hbound.
  { intros p Hp.
    destruct (dict_get p (zip (take (length args) build_parameters) args)) eqn:E;
      [by eexists|].
    apply dict_get_None in E. rewrite fst_zip in E by (rewrite length_take; lia).
    done. }
  split.
  - destruct (bind_keywords _ _ _ _) as [[[bound unbound] kwargs]| |] eqn:Hbind;
      [|pose proof Hbind as Hraise..].
    + cbn -[build_parameters]. destruct unbound as [|p unbound]; [|by right].
      left.
      assert (∀ p, p ∈ build_parameters → is_Some (dict_get p bound)) as Hall.
      { intros p Hp.
        destruct (bind_keywords_keeps _ _ _ _ _ _ _ Hbind p) as [Hin|Hsome];
          [|by apply elem_of_nil in Hin|done].
        rewrite <- (take_drop (length args) build_parameters) in Hp.
        apply elem_of_app in Hp as [Hp|Hp]; [right; by apply Hbound | by left]. }
      unfold dict_subscript.
      destruct (Hall "logger") as [? ->]; [compute_done|].
      destruct (Hall "course_key") as [? ->]; [compute_done|].
      destruct (Hall "path") as [? ->]; [compute_done|].
      destruct (Hall "image") as [? ->]; [compute_done|].
      destruct (Hall "env") as [? ->]; [compute_done|].
      destruct (Hall "settings") as [? ->]; [compute_done|].
      done.
    + right. by rewrite (bind_keywords_raises _ _ _ _ _ Hraise).
    + by apply bind_keywords_typed in Hraise.
  - intros (k & Hk & Hpos). rewrite bind_keywords_bound; [done|].
    exists k. split; [done | by apply Hbound].
Qed.

Lemma build_call_outcomes_witness :
  call_build [VStr "gitmanager.build"; VStr "course"]
    [("path", VStr "/srv/courses/course"); ("course_key", VStr "other")]
  = Raise TypeError.
Proof.
  apply (build_call_outcomes [VStr "gitmanager.build"; VStr "course"]
           [("path", VStr "/srv/courses/course"); ("course_key", VStr "other")]).
  exists "course_key". split; compute_done.
Defined.
